(** * Gesture interpreter of the hand-tracking front end

    A shallow embedding of [gestures.js] (the enhanced [initHandTracking]
    with its helpers [lerp], [updateFingerStates],
    [recognizeAdvancedGestures], [detectEnhancedPinch] and
    [calculateHandOpenness]) and of the calibration key handler of
    [main.js] ([setupPerformanceControls], case 'c').

    Modelling choices.
    - A JavaScript number is modelled as a real number: the arithmetic is
      the one the code writes, without rounding, NaN or infinities.
    - A JavaScript exception ([TypeError] on a property of [undefined]) is a
      [Throw] completion; the heap keeps every write made before the throw.
    - The shared [state] object, the closure variables of
      [initHandTracking] and [window.customPinchThreshold] form one
      [World] that every callback transforms.
    - The text written to the status element is not part of the gesture
      state and is left out; whether the element exists is kept, since the
      last statement of the callback dereferences [handedness] only then. *)

From Stdlib Require Import Reals Lra Lia Bool String Arith List Sorted.
Import ListNotations.
Local Open Scope R_scope.

(** ** JavaScript numbers and [Math] *)

Module Js.

Definition ltb (a b : R) : bool := if Rlt_dec a b then true else false.
Definition gtb (a b : R) : bool := ltb b a.

(** A number is falsy exactly when it is zero. *)
Definition truthy (a : R) : bool := if Req_dec_T a 0 then false else true.

(** [v || d] where [v] is [undefined] or a number. *)
Definition or_else (v : option R) (d : R) : R :=
  match v with
  | Some a => if truthy a then a else d
  | None => d
  end.

(** [!!v] where [v] is [undefined] or a number. *)
Definition to_bool (v : option R) : bool :=
  match v with
  | Some a => truthy a
  | None => false
  end.

Definition Math_max (a b : R) : R := Rmax a b.
Definition Math_min (a b : R) : R := Rmin a b.
Definition Math_sqrt (a : R) : R := sqrt a.
Definition Math_hypot (a b : R) : R := sqrt (a * a + b * b).

End Js.

(** ** Completions and a state monad that keeps the heap on a throw *)

Inductive Completion (A : Type) : Type :=
| Normal (a : A)
| Throw.
Arguments Normal {A} a.
Arguments Throw {A}.

Definition M (S A : Type) : Type := S -> Completion A * S.

Definition ret {S A : Type} (a : A) : M S A := fun s => (Normal a, s).

Definition bind {S A B : Type} (m : M S A) (k : A -> M S B) : M S B :=
  fun s =>
    match m s with
    | (Normal a, s') => k a s'
    | (Throw, s') => (Throw, s')
    end.

Definition throw {S A : Type} : M S A := fun s => (Throw, s).
Definition get {S : Type} : M S S := fun s => (Normal s, s).
Definition modify {S : Type} (f : S -> S) : M S unit := fun s => (Normal tt, f s).

(** Reading a property of a value that may be [undefined]. *)
Definition member {S A : Type} (o : option A) : M S A :=
  match o with
  | Some a => ret a
  | None => throw
  end.

(** Running a computation on a sub-object of the heap. *)
Definition zoom {S T A : Type} (proj : S -> T) (upd : T -> S -> S)
    (m : M T A) : M S A :=
  fun s => let (r, t) := m (proj s) in (r, upd t s).

Declare Scope js_scope.
Delimit Scope js_scope with js.
Notation "a <- m ;; k" := (bind m (fun a => k))
  (at level 61, m at next level, right associativity) : js_scope.
Notation "m ;; k" := (bind m (fun _ => k))
  (at level 61, right associativity) : js_scope.
Local Open Scope js_scope.

(** ** Data model *)

(** A 2D point: a landmark, [state.position], [state.handVelocity]. *)
Record XY : Type := mkXY { x : R; y : R }.

Definition origin : XY := mkXY 0 0.

Inductive GestureType : Type :=
| none | fist | pointing | peace | three | open_hand.

Record FingerStates : Type := mkFingerStates {
  thumb : bool;
  index : bool;
  middle : bool;
  ring : bool;
  pinky : bool
}.

(** The object [recognizeAdvancedGestures] returns. *)
Module GestureData.
Record t : Type := mk { type : GestureType; confidence : R }.
End GestureData.

(** The object [detectEnhancedPinch] returns; its early return has no
    [isCustomThreshold] property. *)
Module PinchData.
Record t : Type := mk {
  isPinching : bool;
  distance : R;
  threshold : R;
  confidence : R;
  isCustomThreshold : option bool
}.
End PinchData.

(** [state.pinchDetails]; [handedness] is absent until the first frame. *)
Module PinchDetails.
Record t : Type := mk {
  distance : R;
  threshold : R;
  confidence : R;
  handedness : option string
}.
End PinchDetails.

(** An entry of [gestureHistory]. *)
Module Entry.
Record t : Type := mk {
  position : XY;
  openness : R;
  pinch : bool;
  timestamp : R
}.
End Entry.

(** The shared [gestureState] object of [main.js]. *)
Record GestureState : Type := mkGestureState {
  pinch : bool;
  openness : R;
  position : XY;
  gestureType : GestureType;
  gestureConfidence : R;
  handVelocity : XY;
  fingerStates : FingerStates;
  pinchDetails : option PinchDetails.t
}.

(** One element of [results.multiHandedness]. *)
Record Handedness : Type := mkHandedness { score : R; label : string }.

(** The argument of the [onResults] callback. An entry of
    [multiHandLandmarks] is a landmark array or a missing value. *)
Record Results : Type := mkResults {
  multiHandLandmarks : list (option (list XY));
  multiHandedness : list Handedness
}.

(** Everything the callbacks read and write. *)
Record World : Type := mkWorld {
  state : GestureState;
  gestureHistory : list Entry.t;
  lastPinchTime : R;
  lastGestureTime : R;
  customPinchThreshold : option R;
  statusElement : bool
}.

(** *** Field writes *)

Definition set_thumb (b : bool) (f : FingerStates) : FingerStates :=
  mkFingerStates b (index f) (middle f) (ring f) (pinky f).
Definition set_index (b : bool) (f : FingerStates) : FingerStates :=
  mkFingerStates (thumb f) b (middle f) (ring f) (pinky f).
Definition set_middle (b : bool) (f : FingerStates) : FingerStates :=
  mkFingerStates (thumb f) (index f) b (ring f) (pinky f).
Definition set_ring (b : bool) (f : FingerStates) : FingerStates :=
  mkFingerStates (thumb f) (index f) (middle f) b (pinky f).
Definition set_pinky (b : bool) (f : FingerStates) : FingerStates :=
  mkFingerStates (thumb f) (index f) (middle f) (ring f) b.

Definition set_x (a : R) (p : XY) : XY := mkXY a (y p).
Definition set_y (a : R) (p : XY) : XY := mkXY (x p) a.

Definition set_pinch (b : bool) (s : GestureState) : GestureState :=
  mkGestureState b (openness s) (position s) (gestureType s)
    (gestureConfidence s) (handVelocity s) (fingerStates s) (pinchDetails s).
Definition set_openness (a : R) (s : GestureState) : GestureState :=
  mkGestureState (pinch s) a (position s) (gestureType s)
    (gestureConfidence s) (handVelocity s) (fingerStates s) (pinchDetails s).
Definition set_position (p : XY) (s : GestureState) : GestureState :=
  mkGestureState (pinch s) (openness s) p (gestureType s)
    (gestureConfidence s) (handVelocity s) (fingerStates s) (pinchDetails s).
Definition set_gestureType (g : GestureType) (s : GestureState) : GestureState :=
  mkGestureState (pinch s) (openness s) (position s) g
    (gestureConfidence s) (handVelocity s) (fingerStates s) (pinchDetails s).
Definition set_gestureConfidence (a : R) (s : GestureState) : GestureState :=
  mkGestureState (pinch s) (openness s) (position s) (gestureType s)
    a (handVelocity s) (fingerStates s) (pinchDetails s).
Definition set_handVelocity (p : XY) (s : GestureState) : GestureState :=
  mkGestureState (pinch s) (openness s) (position s) (gestureType s)
    (gestureConfidence s) p (fingerStates s) (pinchDetails s).
Definition set_fingerStates (f : FingerStates) (s : GestureState) : GestureState :=
  mkGestureState (pinch s) (openness s) (position s) (gestureType s)
    (gestureConfidence s) (handVelocity s) f (pinchDetails s).
Definition set_pinchDetails (d : option PinchDetails.t) (s : GestureState)
    : GestureState :=
  mkGestureState (pinch s) (openness s) (position s) (gestureType s)
    (gestureConfidence s) (handVelocity s) (fingerStates s) d.

Definition set_state (s : GestureState) (w : World) : World :=
  mkWorld s (gestureHistory w) (lastPinchTime w) (lastGestureTime w)
    (customPinchThreshold w) (statusElement w).
Definition set_gestureHistory (h : list Entry.t) (w : World) : World :=
  mkWorld (state w) h (lastPinchTime w) (lastGestureTime w)
    (customPinchThreshold w) (statusElement w).
Definition set_lastPinchTime (a : R) (w : World) : World :=
  mkWorld (state w) (gestureHistory w) a (lastGestureTime w)
    (customPinchThreshold w) (statusElement w).
Definition set_lastGestureTime (a : R) (w : World) : World :=
  mkWorld (state w) (gestureHistory w) (lastPinchTime w) a
    (customPinchThreshold w) (statusElement w).
Definition set_customPinchThreshold (o : option R) (w : World) : World :=
  mkWorld (state w) (gestureHistory w) (lastPinchTime w) (lastGestureTime w)
    o (statusElement w).

(** A write to a property of [state]. *)
Definition assign (f : GestureState -> GestureState) : M World unit :=
  modify (fun w => set_state (f (state w)) w).

(** ** Helper functions of [gestures.js] *)

Definition GESTURE_HISTORY_LENGTH : nat := 5.
Definition gestureSmoothing : R := 0.8.

Definition lerp (start end_ factor : R) : R :=
  start + (end_ - start) * factor.

(** [updateFingerStates(landmarks, fingerStates)] writes the five flags of
    the object it is given, one after the other. *)
Definition updateFingerStates (landmarks : list XY) : M FingerStates unit :=
  thumbTip <- member (nth_error landmarks 4) ;;
  thumbBase <- member (nth_error landmarks 2) ;;
  modify (set_thumb (Js.gtb
    (Js.Math_hypot (x thumbTip - x thumbBase) (y thumbTip - y thumbBase)) 0.1)) ;;
  indexTip <- member (nth_error landmarks 8) ;;
  indexBase <- member (nth_error landmarks 5) ;;
  modify (set_index (Js.gtb
    (Js.Math_hypot (x indexTip - x indexBase) (y indexTip - y indexBase)) 0.15)) ;;
  middleTip <- member (nth_error landmarks 12) ;;
  middleBase <- member (nth_error landmarks 9) ;;
  modify (set_middle (Js.gtb
    (Js.Math_hypot (x middleTip - x middleBase) (y middleTip - y middleBase)) 0.15)) ;;
  ringTip <- member (nth_error landmarks 16) ;;
  ringBase <- member (nth_error landmarks 13) ;;
  modify (set_ring (Js.gtb
    (Js.Math_hypot (x ringTip - x ringBase) (y ringTip - y ringBase)) 0.15)) ;;
  pinkyTip <- member (nth_error landmarks 20) ;;
  pinkyBase <- member (nth_error landmarks 17) ;;
  modify (set_pinky (Js.gtb
    (Js.Math_hypot (x pinkyTip - x pinkyBase) (y pinkyTip - y pinkyBase)) 0.15)).

(** [Object.values(fingerStates).filter(state => state).length] *)
Definition extendedCount (f : FingerStates) : nat :=
  length (filter (fun state => state)
    [thumb f; index f; middle f; ring f; pinky f]).

Definition recognizeAdvancedGestures (landmarks : list XY)
    (fingerStates : FingerStates) : GestureData.t :=
  let extendedFingers := extendedCount fingerStates in
  if Nat.eqb extendedFingers 0 then
    GestureData.mk fist 0.9
  else if Nat.eqb extendedFingers 1 && index fingerStates then
    GestureData.mk pointing 0.95
  else if Nat.eqb extendedFingers 2 && index fingerStates
          && middle fingerStates then
    GestureData.mk peace 0.9
  else if Nat.eqb extendedFingers 5 then
    GestureData.mk open_hand 0.85
  else if Nat.eqb extendedFingers 3 && index fingerStates
          && middle fingerStates && ring fingerStates then
    GestureData.mk three 0.85
  else
    GestureData.mk open_hand 0.8.

(** [gestureHistory.slice(-3)] *)
Definition slice_last3 (h : list Entry.t) : list Entry.t :=
  skipn (length h - 3) h.

(** [detectEnhancedPinch(landmarks, gestureHistory)]; the global it reads,
    [window.customPinchThreshold], is the third argument. *)
Definition detectEnhancedPinch {S : Type} (landmarks : list XY)
    (gestureHistory : list Entry.t) (window_customPinchThreshold : option R)
    : M S PinchData.t :=
  match nth_error landmarks 4, nth_error landmarks 8 with
  | Some thumbTip, Some indexTip =>
    let distance := Js.Math_sqrt
      ((x thumbTip - x indexTip) ^ 2 + (y thumbTip - y indexTip) ^ 2) in
    l5 <- member (nth_error landmarks 5) ;;
    l17 <- member (nth_error landmarks 17) ;;
    let palmWidth := Js.Math_hypot (x l5 - x l17) (y l5 - y l17) in
    let baseThreshold := 0.045 in
    let handSizeFactor := Js.Math_max 0.8 (Js.Math_min 1.2 (palmWidth * 3)) in
    let adaptiveThreshold := baseThreshold * handSizeFactor in
    let finalThreshold :=
      Js.or_else window_customPinchThreshold adaptiveThreshold in
    let isTouching := Js.ltb distance finalThreshold in
    let confidence := Js.Math_max 0 (1 - distance / (finalThreshold * 2)) in
    let recentPinches := length (filter Entry.pinch gestureHistory) in
    let stabilityWeight := Js.Math_min 0.3 (INR recentPinches * 0.1) in
    let sustainedPinch :=
      Nat.leb 3 (length gestureHistory)
      && forallb Entry.pinch (slice_last3 gestureHistory) in
    let sustainedWeight := if sustainedPinch then 0.2 else 0 in
    ret (PinchData.mk isTouching distance finalThreshold
           (Js.Math_min 1 (confidence + stabilityWeight + sustainedWeight))
           (Some (Js.to_bool window_customPinchThreshold)))
  | _, _ => ret (PinchData.mk false 1 0.045 0 None)
  end.

Definition calculateHandOpenness {S : Type} (landmarks : list XY)
    (fingerStates : FingerStates) : M S R :=
  palm <- member (nth_error landmarks 0) ;;
  middleTip <- member (nth_error landmarks 12) ;;
  let baseOpenness := Js.Math_min 1
    (Js.Math_hypot (x palm - x middleTip) (y palm - y middleTip) * 2) in
  let extendedFingers := extendedCount fingerStates in
  let fingerFactor := INR extendedFingers / 5 in
  ret (Js.Math_min 1 ((baseOpenness + fingerFactor) / 2)).

(** ** The tracking callback *)

(** [results.multiHandedness[i]?.score || 0.5] *)
Definition handConfidenceAt (results : Results) (i : nat) : R :=
  Js.or_else (option_map score (nth_error (multiHandedness results) i)) 0.5.

(** One iteration of the selection loop on [(bestHandIndex,
    bestHandConfidence)]. *)
Definition bestHandStep (results : Results) (best : nat * R) (i : nat)
    : nat * R :=
  let handConfidence := handConfidenceAt results i in
  if Js.gtb handConfidence (snd best) then (i, handConfidence) else best.

Definition bestHand (results : Results) : nat * R :=
  fold_left (bestHandStep results)
    (seq 0 (length (multiHandLandmarks results))) (0%nat, 0).

(** [handedness?.label || 'Unknown'] *)
Definition labelOrUnknown (handedness : option Handedness) : string :=
  match handedness with
  | Some h => if String.eqb (label h) EmptyString then "Unknown"%string else label h
  | None => "Unknown"%string
  end.

(** [gestureHistory.push(e)] followed by the bounded [shift()]. *)
Definition pushHistory (e : Entry.t) (h : list Entry.t) : list Entry.t :=
  let h' := h ++ [e] in
  if Nat.ltb GESTURE_HISTORY_LENGTH (length h') then tl h' else h'.

(** The part of the callback that runs once the landmarks are validated. *)
Definition processHand (landmarks : list XY) (handedness : option Handedness)
    (currentTime : R) : M World unit :=
  w0 <- get ;;
  let prevPosition := position (state w0) in
  zoom (fun w => fingerStates (state w))
       (fun f w => set_state (set_fingerStates f (state w)) w)
       (updateFingerStates landmarks) ;;
  w1 <- get ;;
  let gestureData :=
    recognizeAdvancedGestures landmarks (fingerStates (state w1)) in
  assign (set_gestureType (GestureData.type gestureData)) ;;
  assign (fun s => set_gestureConfidence
    (lerp (gestureConfidence s) (GestureData.confidence gestureData) 0.1) s) ;;
  pinchData <- detectEnhancedPinch landmarks (gestureHistory w1)
                 (customPinchThreshold w1) ;;
  assign (set_pinch (PinchData.isPinching pinchData)) ;;
  assign (set_pinchDetails (Some (PinchDetails.mk
    (PinchData.distance pinchData) (PinchData.threshold pinchData)
    (PinchData.confidence pinchData) (Some (labelOrUnknown handedness))))) ;;
  modify (fun w =>
    if pinch (state w) && Js.gtb (currentTime - lastPinchTime w) 800
    then set_lastPinchTime currentTime w else w) ;;
  w2 <- get ;;
  o <- calculateHandOpenness landmarks (fingerStates (state w2)) ;;
  assign (set_openness o) ;;
  l0 <- member (nth_error landmarks 0) ;;
  let rawPosition := mkXY ((x l0 - 0.5) * 2) (- (y l0 - 0.5) * 2) in
  assign (fun s => set_position
    (set_x (lerp (x (position s)) (x rawPosition) gestureSmoothing)
       (position s)) s) ;;
  assign (fun s => set_position
    (set_y (lerp (y (position s)) (y rawPosition) gestureSmoothing)
       (position s)) s) ;;
  w3 <- get ;;
  let deltaTime := Js.Math_max 1 (currentTime - lastGestureTime w3) in
  assign (fun s => set_handVelocity
    (set_x ((x (position s) - x prevPosition) / deltaTime * 1000)
       (handVelocity s)) s) ;;
  assign (fun s => set_handVelocity
    (set_y ((y (position s) - y prevPosition) / deltaTime * 1000)
       (handVelocity s)) s) ;;
  modify (fun w => set_gestureHistory
    (pushHistory
       (Entry.mk (position (state w)) (openness (state w)) (pinch (state w))
          currentTime)
       (gestureHistory w)) w) ;;
  modify (set_lastGestureTime currentTime) ;;
  w4 <- get ;;
  if statusElement w4 then
    _ <- member handedness ;; ret tt
  else ret tt.

(** [hands.onResults(results => ...)], with [performance.now()] as the
    second argument. *)
Definition onResults (results : Results) (currentTime : R) : M World unit :=
  if Nat.eqb (length (multiHandLandmarks results)) 0 then
    assign (set_gestureType none) ;;
    assign (set_gestureConfidence 0)
  else
    let bestHandIndex := fst (bestHand results) in
    let handedness := nth_error (multiHandedness results) bestHandIndex in
    match nth_error (multiHandLandmarks results) bestHandIndex with
    | Some (Some landmarks) =>
      if Nat.ltb (length landmarks) 21 then ret tt
      else processHand landmarks handedness currentTime
    | _ => ret tt
    end.

(** ** The calibration key of [main.js] *)

(** The ['c'] / ['C'] case of the key handler. *)
Definition calibrate : M World unit :=
  w <- get ;;
  match pinchDetails (state w) with
  | Some d =>
    if Js.gtb (PinchDetails.distance d) 0 then
      let currentDistance := PinchDetails.distance d in
      modify (set_customPinchThreshold (Some (currentDistance * 1.2)))
    else ret tt
  | None => ret tt
  end.

(** ** Sessions *)

(** The [gestureState] literal of [main.js] after [initHandTracking] has
    written its fields (lines 13 to 27), with the fresh closure variables
    and no calibration. *)
Definition initialState : GestureState :=
  mkGestureState false 0 (mkXY 0 0) none 0 (mkXY 0 0)
    (mkFingerStates false false false false false)
    (Some (PinchDetails.mk 0 0 0 None)).

Definition initialWorld (hasStatusElement : bool) : World :=
  mkWorld initialState [] 0 0 None hasStatusElement.

Inductive Event : Type :=
| Frame (results : Results) (currentTime : R)
| KeyC.

Definition handler (e : Event) : M World unit :=
  match e with
  | Frame results currentTime => onResults results currentTime
  | KeyC => calibrate
  end.

(** The event loop: a throwing handler leaves its writes behind. *)
Definition step (w : World) (e : Event) : World := snd (handler e w).

Definition run (events : list Event) (w : World) : World :=
  fold_left step events w.

Definition reachable (w : World) : Prop :=
  exists hasStatusElement events, w = run events (initialWorld hasStatusElement).

(** ** What a frame computes, in closed form

    The functions below name the values the callback writes on a frame
    whose selected hand is valid; the lemmas after them show that the
    monadic code computes exactly these values and does not throw before
    its last statement. *)

(** The landmark at an index that is known to exist. *)
Definition lm (landmarks : list XY) (i : nat) : XY := nth i landmarks origin.

Definition span (landmarks : list XY) (tip base : nat) : R :=
  Js.Math_hypot (x (lm landmarks tip) - x (lm landmarks base))
                (y (lm landmarks tip) - y (lm landmarks base)).

Definition fingersOf (landmarks : list XY) : FingerStates :=
  mkFingerStates
    (Js.gtb (span landmarks 4 2) 0.1)
    (Js.gtb (span landmarks 8 5) 0.15)
    (Js.gtb (span landmarks 12 9) 0.15)
    (Js.gtb (span landmarks 16 13) 0.15)
    (Js.gtb (span landmarks 20 17) 0.15).

Definition pinchDistanceOf (landmarks : list XY) : R :=
  Js.Math_sqrt ((x (lm landmarks 4) - x (lm landmarks 8)) ^ 2
                + (y (lm landmarks 4) - y (lm landmarks 8)) ^ 2).

Definition finalThresholdOf (landmarks : list XY) (custom : option R) : R :=
  Js.or_else custom
    (0.045 * Js.Math_max 0.8 (Js.Math_min 1.2 (span landmarks 5 17 * 3))).

Definition pinchConfidenceOf (landmarks : list XY) (h : list Entry.t)
    (custom : option R) : R :=
  Js.Math_min 1
    (Js.Math_max 0
       (1 - pinchDistanceOf landmarks / (finalThresholdOf landmarks custom * 2))
     + Js.Math_min 0.3 (INR (length (filter Entry.pinch h)) * 0.1)
     + (if Nat.leb 3 (length h) && forallb Entry.pinch (slice_last3 h)
        then 0.2 else 0)).

Definition pinchOf (landmarks : list XY) (h : list Entry.t)
    (custom : option R) : PinchData.t :=
  PinchData.mk
    (Js.ltb (pinchDistanceOf landmarks) (finalThresholdOf landmarks custom))
    (pinchDistanceOf landmarks)
    (finalThresholdOf landmarks custom)
    (pinchConfidenceOf landmarks h custom)
    (Some (Js.to_bool custom)).

Definition opennessOf (landmarks : list XY) (f : FingerStates) : R :=
  Js.Math_min 1
    ((Js.Math_min 1 (span landmarks 0 12 * 2) + INR (extendedCount f) / 5) / 2).

Definition smoothedPosition (landmarks : list XY) (prev : XY) : XY :=
  mkXY (lerp (x prev) ((x (lm landmarks 0) - 0.5) * 2) gestureSmoothing)
       (lerp (y prev) (- (y (lm landmarks 0) - 0.5) * 2) gestureSmoothing).

Definition velocityOf (cur prev : XY) (deltaTime : R) : XY :=
  mkXY ((x cur - x prev) / deltaTime * 1000)
       ((y cur - y prev) / deltaTime * 1000).

Definition frameState (landmarks : list XY) (handedness : option Handedness)
    (currentTime : R) (w : World) : GestureState :=
  let s := state w in
  let f := fingersOf landmarks in
  let g := recognizeAdvancedGestures landmarks f in
  let p := pinchOf landmarks (gestureHistory w) (customPinchThreshold w) in
  let pos := smoothedPosition landmarks (position s) in
  mkGestureState
    (PinchData.isPinching p)
    (opennessOf landmarks f)
    pos
    (GestureData.type g)
    (lerp (gestureConfidence s) (GestureData.confidence g) 0.1)
    (velocityOf pos (position s)
       (Js.Math_max 1 (currentTime - lastGestureTime w)))
    f
    (Some (PinchDetails.mk (PinchData.distance p) (PinchData.threshold p)
             (PinchData.confidence p) (Some (labelOrUnknown handedness)))).

(** The history entry a frame pushes. *)
Definition summaryOf (s : GestureState) (currentTime : R) : Entry.t :=
  Entry.mk (position s) (openness s) (pinch s) currentTime.

Definition frameWorld (landmarks : list XY) (handedness : option Handedness)
    (currentTime : R) (w : World) : World :=
  let s := frameState landmarks handedness currentTime w in
  mkWorld s
    (pushHistory (summaryOf s currentTime) (gestureHistory w))
    (if pinch s && Js.gtb (currentTime - lastPinchTime w) 800
     then currentTime else lastPinchTime w)
    currentTime
    (customPinchThreshold w)
    (statusElement w).

(** The completion of a frame on a valid hand: only the status line at the
    end can throw. *)
Definition frameCompletion (handedness : option Handedness) (w : World)
    : Completion unit :=
  if statusElement w then
    match handedness with
    | Some _ => Normal tt
    | None => Throw
    end
  else Normal tt.

(** The landmark array the callback selects, if any. *)
Definition selectedLandmarks (results : Results) : option (list XY) :=
  match nth_error (multiHandLandmarks results) (fst (bestHand results)) with
  | Some (Some landmarks) => Some landmarks
  | _ => None
  end.

Definition selectedHandedness (results : Results) : option Handedness :=
  nth_error (multiHandedness results) (fst (bestHand results)).

(** A valid-hand frame: some hand is reported and the selected one has at
    least 21 landmarks. *)
Definition validHand (results : Results) : bool :=
  negb (Nat.eqb (length (multiHandLandmarks results)) 0)
  && match selectedLandmarks results with
     | Some landmarks => Nat.leb 21 (length landmarks)
     | None => false
     end.

(** A frame with a hand list whose selected entry is missing or too short. *)
Definition shortHand (results : Results) : bool :=
  negb (Nat.eqb (length (multiHandLandmarks results)) 0)
  && match selectedLandmarks results with
     | Some landmarks => Nat.ltb (length landmarks) 21
     | None => true
     end.

(** ** Kinds of frame *)

(** The selected landmark array, empty when the entry is missing. *)
Definition theLandmarks (results : Results) : list XY :=
  match selectedLandmarks results with
  | Some landmarks => landmarks
  | None => []
  end.

(** What the no-hand branch writes. *)
Definition noHandWorld (w : World) : World :=
  set_state (set_gestureConfidence 0 (set_gestureType none (state w))) w.

(** ** The formulas of the specification

    Written from the wording of the specification, to be compared with
    what the code computes. *)

(** Euclidean distance between two points. *)
Definition spec_distance (p q : XY) : R :=
  sqrt (Rsqr (x p - x q) + Rsqr (y p - y q)).

Definition spec_clamp (v lo hi : R) : R :=
  if Rlt_dec v lo then lo else if Rlt_dec hi v then hi else v.

(** Palm width: from the index metacarpal base (landmark 5) to the pinky
    metacarpal base (landmark 17). *)
Definition spec_palmWidth (landmarks : list XY) : R :=
  spec_distance (lm landmarks 5) (lm landmarks 17).

Definition spec_adaptiveThreshold (landmarks : list XY) : R :=
  spec_clamp (spec_palmWidth landmarks * 3) 0.8 1.2 * 0.045.

(** The override, when set, replaces the adaptive threshold. *)
Definition spec_effectiveThreshold (landmarks : list XY)
    (override : option R) : R :=
  match override with
  | Some t => t
  | None => spec_adaptiveThreshold landmarks
  end.

(** Thumb tip (landmark 4) to index tip (landmark 8). *)
Definition spec_pinchDistance (landmarks : list XY) : R :=
  spec_distance (lm landmarks 4) (lm landmarks 8).

(** Number of history entries whose pinch flag is set. *)
Definition spec_pinchCount (h : list Entry.t) : nat :=
  count_occ bool_dec (map Entry.pinch h) true.

(** At least three entries, and the three most recent all pinching. *)
Definition spec_sustained (h : list Entry.t) : bool :=
  match rev h with
  | c :: b :: a :: _ => Entry.pinch a && Entry.pinch b && Entry.pinch c
  | _ => false
  end.

Definition spec_pinchConfidence (distance threshold : R) (h : list Entry.t)
    : R :=
  Rmin 1
    (Rmax 0 (1 - distance / (2 * threshold))
     + Rmin 0.3 (0.1 * INR (spec_pinchCount h))
     + (if spec_sustained h then 0.2 else 0)).

(** Elapsed time with its floor of one millisecond. *)
Definition spec_elapsed (dt : R) : R := if Rlt_dec dt 1 then 1 else dt.

(** Time stamp of the last valid-hand frame among the events, 0 (the
    initial value of [lastGestureTime]) when there is none. *)
Definition lastProcessedTime (events : list Event) : R :=
  fold_left
    (fun last e =>
       match e with
       | Frame results currentTime =>
         if validHand results then currentTime else last
       | KeyC => last
       end)
    events 0.

(** ** Invariants *)

(** The calibration override, once set, is a positive number. *)
Definition overridePositive (w : World) : Prop :=
  match customPinchThreshold w with
  | Some t => 0 < t
  | None => True
  end.

(** What holds of the output state and the history in every reachable
    world. *)
Record Bounded (w : World) : Prop := mkBounded {
  bounded_openness : 0 <= openness (state w) <= 1;
  bounded_gestureConfidence : 0 <= gestureConfidence (state w) <= 1;
  bounded_pinchDetails :
    exists d : PinchDetails.t,
      pinchDetails (state w) = Some d
      /\ 0 <= PinchDetails.distance d
      /\ 0 <= PinchDetails.confidence d <= 1;
  bounded_history : (length (gestureHistory w) <= GESTURE_HISTORY_LENGTH)%nat
}.

(** ** Concrete hands used by the examples *)

(** A hand of 21 landmarks with every joint at the corner of the frame
    except the five fingertips. *)
Definition hand (thumbTip indexTip middleTip ringTip pinkyTip : XY)
    : list XY :=
  [ origin; origin; origin; origin; thumbTip;
    origin; origin; origin; indexTip;
    origin; origin; origin; middleTip;
    origin; origin; origin; ringTip;
    origin; origin; origin; pinkyTip ].

(** One detected hand with its handedness record. *)
Definition oneHand (landmarks : list XY) : Results :=
  mkResults [Some landmarks] [mkHandedness 0.9 "Right"].

Definition noHands : Results := mkResults [] [].

(** A hand list whose only hand has eight landmarks. *)
Definition eightPoints : Results :=
  mkResults [Some (repeat origin 8)] [mkHandedness 0.9 "Right"].

Definition closedHand : list XY := hand origin origin origin origin origin.

Definition thumbIndexMiddleUp : list XY :=
  hand (mkXY 0.2 0) (mkXY 0 0.2) (mkXY 0.2 0) origin origin.

Definition allFiveUp : list XY :=
  hand (mkXY 0.2 0) (mkXY 0 0.2) (mkXY 0.2 0) (mkXY 0.2 0) (mkXY 0.2 0).

Definition indexMiddleUp : list XY :=
  hand origin (mkXY 0 0.2) (mkXY 0.2 0) origin origin.

Definition pinchAt (d : R) : list XY :=
  hand (mkXY d 0) origin origin origin origin.

(** A hand whose wrist, landmark 0, is at [p]. *)
Definition wristAt (p : XY) : list XY := p :: repeat origin 20.

(** ** Sequences of frames and digit counts *)

(** A sequence of frames, each with its time stamp, as events. *)
Definition framesOf (fs : list (Results * R)) : list Event :=
  map (fun f => Frame (fst f) (snd f)) fs.

(** The base confidence the classifier gives the selected hand. *)
Definition baseConfidence (results : Results) : R :=
  GestureData.confidence
    (recognizeAdvancedGestures (theLandmarks results)
       (fingersOf (theLandmarks results))).

(** Number of digits marked extended, counted digit by digit. *)
Definition spec_extended (f : FingerStates) : nat :=
  (if thumb f then 1 else 0) + (if index f then 1 else 0)
  + (if middle f then 1 else 0) + (if ring f then 1 else 0)
  + (if pinky f then 1 else 0).

Definition isFrame (e : Event) : bool :=
  match e with
  | Frame _ _ => true
  | KeyC => false
  end.

(** The wrist of the selected hand lies in the camera frame. *)
Definition wristInFrame (results : Results) : Prop :=
  0 <= x (lm (theLandmarks results) 0) <= 1
  /\ 0 <= y (lm (theLandmarks results) 0) <= 1.

(** Every valid-hand frame among the events has its wrist in the camera
    frame. *)
Definition wristsInFrame (events : list Event) : Prop :=
  Forall (fun e =>
            match e with
            | Frame results _ => validHand results = true -> wristInFrame results
            | KeyC => True
            end) events.

(** The raw position of a wrist: the camera frame mapped to [-1, 1] on
    both axes, the vertical one upside down. *)
Definition spec_rawPosition (p : XY) : XY :=
  mkXY (2 * x p - 1) (1 - 2 * y p).

(** The value [detectEnhancedPinch] returns when a fingertip is missing. *)
Definition pinchFallback : PinchData.t := PinchData.mk false 1 0.045 0 None.

(** What the selection loop has established after the first [k] hands. *)
Definition selectedAmong (results : Results) (k : nat) (best : nat * R)
    : Prop :=
  0 <= snd best
  /\ (forall i, (i < k)%nat -> handConfidenceAt results i <= snd best)
  /\ (0 < snd best ->
      (fst best < k)%nat
      /\ handConfidenceAt results (fst best) = snd best
      /\ forall j, (j < fst best)%nat ->
                   handConfidenceAt results j < snd best)
  /\ (snd best = 0 -> fst best = 0%nat).

(** Number of valid-hand frames among the events. *)
Definition validFrameCount (events : list Event) : nat :=
  length (filter (fun e =>
                    match e with
                    | Frame results _ => validHand results
                    | KeyC => false
                    end) events).

(** Placeholder entry for [last] on a history. *)
Definition noEntry : Entry.t := Entry.mk origin 0 false 0.

(** ** The particle system of [particles.js], as far as gestures drive it

    The module variables that the pinch, the shape switch and the quality
    controls read and write. The vertex buffers of the particle system
    ([previousPositions], [targetPositions], the geometry attributes) and
    the page elements are left out: nothing modelled here reads them. *)

(** [a >= b] on numbers. *)
Definition Js_geb (a b : R) : bool := negb (Js.ltb a b).

Module Particles.

(** [performanceOptimizer], without its constant fields. *)
Record Optimizer : Type := mkOptimizer {
  lastUpdate : R;
  updateInterval : R;
  particleCount : R;
  quality : string
}.

Record State : Type := mkState {
  currentTemplate : nat;
  switchCooldown : bool;
  transitionProgress : R;
  isTransitioning : bool;
  currentShapeName : string;
  lastPinchTime : R;
  pinchChargeLevel : R;
  isPinchingLastFrame : bool;
  shapeSwitchBurst : R;
  performanceOptimizer : Optimizer;
  currentTheme : string;
  advancedEffects_pulse : bool;
  (** whether [initParticles] has created the particle system and its
      buffers *)
  buffersReady : bool
}.

Definition templates : list string :=
  [ "sphere"; "heart"; "ring"; "spiral"; "cube"; "wave"; "torus"; "star" ]%string.

Definition shapeNames : list string :=
  [ "Sphere"; "Heart"; "Ring"; "Spiral"; "Cube"; "Wave"; "Torus"; "Star" ]%string.

(** [Object.keys(colorThemes)], in insertion order. *)
Definition colorThemeKeys : list string :=
  [ "cosmic"; "neon"; "ocean"; "fire"; "forest" ]%string.

(** Property names every object inherits; [colorThemes[name]] is truthy for
    them as well. *)
Definition inheritedKeys : list string :=
  [ "constructor"; "toString"; "toLocaleString"; "valueOf"; "hasOwnProperty";
    "isPrototypeOf"; "propertyIsEnumerable"; "__proto__"; "__defineGetter__";
    "__defineSetter__"; "__lookupGetter__"; "__lookupSetter__" ]%string.

Definition mem (s : string) (l : list string) : bool :=
  existsb (String.eqb s) l.

Definition initialState (ready : bool) : State :=
  mkState 0 false 0 false "Sphere" 0 0 false 0
    (mkOptimizer 0 16 5000 "high") "cosmic" true ready.

(** *** Field writes *)

Definition set_currentTemplate (n : nat) (s : State) : State :=
  mkState n (switchCooldown s) (transitionProgress s) (isTransitioning s)
    (currentShapeName s) (lastPinchTime s) (pinchChargeLevel s)
    (isPinchingLastFrame s) (shapeSwitchBurst s) (performanceOptimizer s)
    (currentTheme s) (advancedEffects_pulse s) (buffersReady s).
Definition set_switchCooldown (b : bool) (s : State) : State :=
  mkState (currentTemplate s) b (transitionProgress s) (isTransitioning s)
    (currentShapeName s) (lastPinchTime s) (pinchChargeLevel s)
    (isPinchingLastFrame s) (shapeSwitchBurst s) (performanceOptimizer s)
    (currentTheme s) (advancedEffects_pulse s) (buffersReady s).
Definition set_transitionProgress (a : R) (s : State) : State :=
  mkState (currentTemplate s) (switchCooldown s) a (isTransitioning s)
    (currentShapeName s) (lastPinchTime s) (pinchChargeLevel s)
    (isPinchingLastFrame s) (shapeSwitchBurst s) (performanceOptimizer s)
    (currentTheme s) (advancedEffects_pulse s) (buffersReady s).
Definition set_isTransitioning (b : bool) (s : State) : State :=
  mkState (currentTemplate s) (switchCooldown s) (transitionProgress s) b
    (currentShapeName s) (lastPinchTime s) (pinchChargeLevel s)
    (isPinchingLastFrame s) (shapeSwitchBurst s) (performanceOptimizer s)
    (currentTheme s) (advancedEffects_pulse s) (buffersReady s).
Definition set_currentShapeName (n : string) (s : State) : State :=
  mkState (currentTemplate s) (switchCooldown s) (transitionProgress s)
    (isTransitioning s) n (lastPinchTime s) (pinchChargeLevel s)
    (isPinchingLastFrame s) (shapeSwitchBurst s) (performanceOptimizer s)
    (currentTheme s) (advancedEffects_pulse s) (buffersReady s).
Definition set_lastPinchTime (a : R) (s : State) : State :=
  mkState (currentTemplate s) (switchCooldown s) (transitionProgress s)
    (isTransitioning s) (currentShapeName s) a (pinchChargeLevel s)
    (isPinchingLastFrame s) (shapeSwitchBurst s) (performanceOptimizer s)
    (currentTheme s) (advancedEffects_pulse s) (buffersReady s).
Definition set_pinchChargeLevel (a : R) (s : State) : State :=
  mkState (currentTemplate s) (switchCooldown s) (transitionProgress s)
    (isTransitioning s) (currentShapeName s) (lastPinchTime s) a
    (isPinchingLastFrame s) (shapeSwitchBurst s) (performanceOptimizer s)
    (currentTheme s) (advancedEffects_pulse s) (buffersReady s).
Definition set_isPinchingLastFrame (b : bool) (s : State) : State :=
  mkState (currentTemplate s) (switchCooldown s) (transitionProgress s)
    (isTransitioning s) (currentShapeName s) (lastPinchTime s)
    (pinchChargeLevel s) b (shapeSwitchBurst s) (performanceOptimizer s)
    (currentTheme s) (advancedEffects_pulse s) (buffersReady s).
Definition set_shapeSwitchBurst (a : R) (s : State) : State :=
  mkState (currentTemplate s) (switchCooldown s) (transitionProgress s)
    (isTransitioning s) (currentShapeName s) (lastPinchTime s)
    (pinchChargeLevel s) (isPinchingLastFrame s) a (performanceOptimizer s)
    (currentTheme s) (advancedEffects_pulse s) (buffersReady s).
Definition set_performanceOptimizer (o : Optimizer) (s : State) : State :=
  mkState (currentTemplate s) (switchCooldown s) (transitionProgress s)
    (isTransitioning s) (currentShapeName s) (lastPinchTime s)
    (pinchChargeLevel s) (isPinchingLastFrame s) (shapeSwitchBurst s) o
    (currentTheme s) (advancedEffects_pulse s) (buffersReady s).
Definition set_currentTheme (n : string) (s : State) : State :=
  mkState (currentTemplate s) (switchCooldown s) (transitionProgress s)
    (isTransitioning s) (currentShapeName s) (lastPinchTime s)
    (pinchChargeLevel s) (isPinchingLastFrame s) (shapeSwitchBurst s)
    (performanceOptimizer s) n (advancedEffects_pulse s) (buffersReady s).
Definition set_advancedEffects_pulse (b : bool) (s : State) : State :=
  mkState (currentTemplate s) (switchCooldown s) (transitionProgress s)
    (isTransitioning s) (currentShapeName s) (lastPinchTime s)
    (pinchChargeLevel s) (isPinchingLastFrame s) (shapeSwitchBurst s)
    (performanceOptimizer s) (currentTheme s) b (buffersReady s).

Definition set_lastUpdate (a : R) (o : Optimizer) : Optimizer :=
  mkOptimizer a (updateInterval o) (particleCount o) (quality o).
Definition set_updateInterval (a : R) (o : Optimizer) : Optimizer :=
  mkOptimizer (lastUpdate o) a (particleCount o) (quality o).
Definition set_particleCount (a : R) (o : Optimizer) : Optimizer :=
  mkOptimizer (lastUpdate o) (updateInterval o) a (quality o).
Definition set_quality (q : string) (o : Optimizer) : Optimizer :=
  mkOptimizer (lastUpdate o) (updateInterval o) (particleCount o) q.

(** *** Functions *)

Definition easeInOutCubic (t : R) : R :=
  if Js.ltb t 0.5 then 4 * t * t * t else 1 - (-2 * t + 2) ^ 3 / 2.

(** [updateShapeDisplay()]: the name follows the template index. *)
Definition updateShapeDisplay (s : State) : State :=
  set_currentShapeName (nth (currentTemplate s) shapeNames EmptyString) s.

(** [switchTemplate()]; the timer it starts is the event
    [cooldownElapsed]. *)
Definition switchTemplate (s : State) : State :=
  if switchCooldown s then s
  else
    let s := set_switchCooldown true s in
    let s := set_currentTemplate
               ((currentTemplate s + 1) mod length templates) s in
    let s := updateShapeDisplay s in
    let s := set_transitionProgress 0 s in
    set_isTransitioning true s.

(** The callback of [setTimeout(() => (switchCooldown = false), 1200)]. *)
Definition cooldownElapsed (s : State) : State := set_switchCooldown false s.

(** The pinch block of [updateParticles]: charge while pinching outside the
    800 ms cooldown, switch the shape on a charged first pinching update,
    discharge otherwise. *)
Definition pinchStage (gestureState : GestureState) (currentTime : R)
    (s : State) : State :=
  if pinch gestureState && Js.gtb (currentTime - lastPinchTime s) 800
  then
    let s := set_pinchChargeLevel
               (Js.Math_min 1 (pinchChargeLevel s + 0.02)) s in
    let s :=
      if Js_geb (pinchChargeLevel s) 0.8 && negb (isPinchingLastFrame s)
      then
        let s := set_lastPinchTime currentTime s in
        let s := switchTemplate s in
        let s := set_shapeSwitchBurst 1 s in
        set_pinchChargeLevel 0 s
      else s in
    set_isPinchingLastFrame true s
  else
    let s := set_pinchChargeLevel
               (Js.Math_max 0 (pinchChargeLevel s - 0.01)) s in
    set_isPinchingLastFrame false s.

(** The decay of the burst effect. *)
Definition burstStage (s : State) : State :=
  if Js.gtb (shapeSwitchBurst s) 0 then
    let s := set_shapeSwitchBurst (shapeSwitchBurst s * 0.95) s in
    if Js.ltb (shapeSwitchBurst s) 0.01 then set_shapeSwitchBurst 0 s
    else s
  else s.

(** The progress of a running shape transition; skipped, like the rest of
    the function, while the particle system does not exist. *)
Definition transitionStage (s : State) : State :=
  if negb (buffersReady s) then s
  else if isTransitioning s then
    let s := set_transitionProgress (transitionProgress s + 0.015) s in
    if Js_geb (transitionProgress s) 1 then
      set_isTransitioning false (set_transitionProgress 1 s)
    else s
  else s.

(** [updateParticles(gestureState)] at time [performance.now()], up to the
    point where it starts to fill the vertex buffers: the rate limit, then
    the three blocks above in order. *)
Definition updateParticles (gestureState : GestureState) (currentTime : R)
    (s : State) : State :=
  if Js.ltb (currentTime - lastUpdate (performanceOptimizer s))
            (updateInterval (performanceOptimizer s))
  then s
  else
    let s := set_performanceOptimizer
               (set_lastUpdate currentTime (performanceOptimizer s)) s in
    transitionStage (burstStage (pinchStage gestureState currentTime s)).

Definition setParticleCount (count : R) (s : State) : State :=
  set_performanceOptimizer
    (set_particleCount (Js.Math_max 500 (Js.Math_min 5000 count))
       (performanceOptimizer s)) s.

Definition setQuality (q : string) (s : State) : State :=
  let o := set_quality q (performanceOptimizer s) in
  let o :=
    if String.eqb q "low" then set_particleCount 2000 (set_updateInterval 32 o)
    else if String.eqb q "medium" then
      set_particleCount 3500 (set_updateInterval 24 o)
    else if String.eqb q "high" then
      set_particleCount 5000 (set_updateInterval 16 o)
    else o in
  set_performanceOptimizer o s.

(** [setColorTheme(theme)]: the new state and the returned flag. *)
Definition setColorTheme (theme : string) (s : State) : State * bool :=
  if mem theme colorThemeKeys || mem theme inheritedKeys
  then (set_currentTheme theme s, true)
  else (s, false).

Definition getAvailableThemes : list string := colorThemeKeys.

(** [toggleAdvancedEffect(effect, enabled)]: [pulse] is the only own
    property of [advancedEffects]. *)
Definition toggleAdvancedEffect (effect : string) (enabled : bool) (s : State)
    : State * bool :=
  if String.eqb effect "pulse" then (set_advancedEffects_pulse enabled s, true)
  else (s, false).

(** What the page and the render loop can do to the particle system. *)
Inductive Event : Type :=
| Update (gestureState : GestureState) (currentTime : R)
| CooldownElapsed
| SwitchTemplate
| SetQuality (q : string)
| SetParticleCount (count : R)
| SetColorTheme (theme : string)
| ToggleAdvancedEffect (effect : string) (enabled : bool).

Definition step (s : State) (e : Event) : State :=
  match e with
  | Update gestureState currentTime => updateParticles gestureState currentTime s
  | CooldownElapsed => cooldownElapsed s
  | SwitchTemplate => switchTemplate s
  | SetQuality q => setQuality q s
  | SetParticleCount count => setParticleCount count s
  | SetColorTheme theme => fst (setColorTheme theme s)
  | ToggleAdvancedEffect effect enabled =>
    fst (toggleAdvancedEffect effect enabled s)
  end.

Definition run (events : list Event) (s : State) : State :=
  fold_left step events s.

(** Render-loop updates, one per pair of gesture state and time. *)
Definition updates (us : list (GestureState * R)) : list Event :=
  map (fun u => Update (fst u) (snd u)) us.

(** Each time is at least one update interval of 16 ms after the one
    before, so that no update is skipped. *)
Fixpoint spaced (last : R) (times : list R) : Prop :=
  match times with
  | [] => True
  | t :: rest => 16 <= t - last /\ spaced t rest
  end.

(** What the pinch block reads and writes. *)
Definition pinchView (s : State)
    : nat * string * R * bool * bool * R :=
  (currentTemplate s, currentShapeName s, lastPinchTime s, switchCooldown s,
   isPinchingLastFrame s, pinchChargeLevel s).

(** No switch has happened yet, and either the last update was a pinching
    one later than 800 ms, all further updates coming no earlier than [lo],
    or nothing is charged. *)
Definition unswitched (s : State) (lo : R) : Prop :=
  currentTemplate s = 0%nat
  /\ currentShapeName s = "Sphere"%string
  /\ lastPinchTime s = 0
  /\ switchCooldown s = false
  /\ ((isPinchingLastFrame s = true /\ 800 < lo)
      \/ (isPinchingLastFrame s = false /\ pinchChargeLevel s = 0)).

(** Everything but the progress of a running transition. *)
Definition stableView (s : State)
    : (nat * string * R * bool * bool * R) * R * Optimizer :=
  (pinchView s, shapeSwitchBurst s, performanceOptimizer s).

(** No switch has happened yet and the last [k] updates, all pinching,
    have charged the meter by 0.02 each. *)
Definition charging (s : State) (k : nat) : Prop :=
  currentTemplate s = 0%nat
  /\ currentShapeName s = "Sphere"%string
  /\ lastPinchTime s = 0
  /\ switchCooldown s = false
  /\ shapeSwitchBurst s = 0
  /\ updateInterval (performanceOptimizer s) = 16
  /\ pinchChargeLevel s = Rmin 1 (0.02 * INR k)
  /\ isPinchingLastFrame s = negb (Nat.eqb k 0).

(** What every reachable state of the particle system satisfies. *)
Record Sound (s : State) : Prop := mkSound {
  sound_charge : 0 <= pinchChargeLevel s <= 1;
  sound_burst : 0 <= shapeSwitchBurst s <= 1;
  sound_progress : 0 <= transitionProgress s <= 1;
  sound_template : (currentTemplate s < 8)%nat;
  sound_name :
    nth_error shapeNames (currentTemplate s) = Some (currentShapeName s);
  sound_count : 500 <= particleCount (performanceOptimizer s) <= 5000;
  sound_interval : 16 <= updateInterval (performanceOptimizer s) <= 32
}.

End Particles.

(** Gesture states for the examples: a pinch being reported, and none. *)
Definition pinchingGesture : GestureState := set_pinch true initialState.

Definition restingGesture : GestureState := initialState.

(** ** The first version of the tracking callback

    [initHandTracking] as it stands after [particles.js]: no validation, no
    smoothing, one hand. It writes [pinch], [openness] and [position] of the
    same shared object. *)

Definition legacyOnResults (results : Results) : M GestureState unit :=
  if Nat.eqb (length (multiHandLandmarks results)) 0 then ret tt
  else
    landmarks <- member
      (match nth_error (multiHandLandmarks results) 0 with
       | Some (Some landmarks) => Some landmarks
       | _ => None
       end) ;;
    thumbTip <- member (nth_error landmarks 4) ;;
    indexTip <- member (nth_error landmarks 8) ;;
    let pinchDistance :=
      Js.Math_hypot (x thumbTip - x indexTip) (y thumbTip - y indexTip) in
    modify (set_pinch (Js.ltb pinchDistance 0.04)) ;;
    palm <- member (nth_error landmarks 0) ;;
    middleTip <- member (nth_error landmarks 12) ;;
    modify (set_openness
      (Js.Math_min 1
         (Js.Math_hypot (x palm - x middleTip) (y palm - y middleTip) * 2))) ;;
    modify (fun s => set_position (set_x ((x palm - 0.5) * 2) (position s)) s) ;;
    modify (fun s =>
      set_position (set_y (- (y palm - 0.5) * 2) (position s)) s).

(** ** The animated background of [dynamicBackground.js], as far as quality
    and gestures drive it

    The configuration, the performance monitor and the two shader uniforms
    of the shape transformation. Vertex data, colours and rings are left
    out. *)

Module Background.

(** [this.config], without its constant fields. *)
Record Config : Type := mkConfig {
  particleCount : R;
  transformationSpeed : R;
  performanceMode : string;
  currentPalette : string
}.

(** [this.performance]; [updateInterval] does not exist until
    [adaptQuality] writes it. *)
Record Performance : Type := mkPerformance {
  lastFrameTime : R;
  frameCount : nat;
  currentFPS : Z;
  adaptiveQuality : bool;
  updateInterval : option nat
}.

(** [material.uniforms] of the particle system. *)
Record Uniforms : Type := mkUniforms {
  transformationProgress : R;
  targetShape : nat
}.

Record State : Type := mkState {
  config : Config;
  performance : Performance;
  uniforms : Uniforms;
  (** [this.adaptiveQuality], the property [setPerformanceMode] writes *)
  own_adaptiveQuality : option bool;
  (** [material.defines.LOW_QUALITY] *)
  materialLowQuality : bool;
  (** [ring.lowQualityUpdate] of the rings *)
  ringsLowQuality : bool
}.

Definition colorPaletteKeys : list string :=
  [ "cosmic"; "nebula"; "aurora"; "sunset" ]%string.

Definition initialState : State :=
  mkState (mkConfig 800 2 "auto" "cosmic")
    (mkPerformance 0 0 60 true None)
    (mkUniforms 0 0) None false false.

Definition set_config (c : Config) (s : State) : State :=
  mkState c (performance s) (uniforms s) (own_adaptiveQuality s)
    (materialLowQuality s) (ringsLowQuality s).
Definition set_performance (p : Performance) (s : State) : State :=
  mkState (config s) p (uniforms s) (own_adaptiveQuality s)
    (materialLowQuality s) (ringsLowQuality s).
Definition set_uniforms (u : Uniforms) (s : State) : State :=
  mkState (config s) (performance s) u (own_adaptiveQuality s)
    (materialLowQuality s) (ringsLowQuality s).
Definition set_own_adaptiveQuality (b : option bool) (s : State) : State :=
  mkState (config s) (performance s) (uniforms s) b
    (materialLowQuality s) (ringsLowQuality s).
Definition set_materialLowQuality (b : bool) (s : State) : State :=
  mkState (config s) (performance s) (uniforms s) (own_adaptiveQuality s)
    b (ringsLowQuality s).
Definition set_ringsLowQuality (b : bool) (s : State) : State :=
  mkState (config s) (performance s) (uniforms s) (own_adaptiveQuality s)
    (materialLowQuality s) b.

Definition set_particleCount (a : R) (c : Config) : Config :=
  mkConfig a (transformationSpeed c) (performanceMode c) (currentPalette c).
Definition set_transformationSpeed (a : R) (c : Config) : Config :=
  mkConfig (particleCount c) a (performanceMode c) (currentPalette c).
Definition set_performanceMode (m : string) (c : Config) : Config :=
  mkConfig (particleCount c) (transformationSpeed c) m (currentPalette c).
Definition set_currentPalette (p : string) (c : Config) : Config :=
  mkConfig (particleCount c) (transformationSpeed c) (performanceMode c) p.

Definition set_lastFrameTime (a : R) (p : Performance) : Performance :=
  mkPerformance a (frameCount p) (currentFPS p) (adaptiveQuality p)
    (updateInterval p).
Definition set_frameCount (n : nat) (p : Performance) : Performance :=
  mkPerformance (lastFrameTime p) n (currentFPS p) (adaptiveQuality p)
    (updateInterval p).
Definition set_currentFPS (f : Z) (p : Performance) : Performance :=
  mkPerformance (lastFrameTime p) (frameCount p) f (adaptiveQuality p)
    (updateInterval p).
Definition set_updateInterval (i : option nat) (p : Performance)
    : Performance :=
  mkPerformance (lastFrameTime p) (frameCount p) (currentFPS p)
    (adaptiveQuality p) i.

(** [recreateParticleSystem()]: a new material, so fresh uniforms and no
    [LOW_QUALITY] define. *)
Definition recreateParticleSystem (s : State) : State :=
  set_materialLowQuality false (set_uniforms (mkUniforms 0 0) s).

Definition reduceComplexity (s : State) : State :=
  set_ringsLowQuality true (set_materialLowQuality true s).

Definition restoreComplexity (s : State) : State :=
  set_ringsLowQuality false (set_materialLowQuality false s).

Definition reduceQuality (s : State) : State :=
  recreateParticleSystem
    (set_config (set_particleCount
                   (Js.Math_max 200 (particleCount (config s) - 100))
                   (config s)) s).

Definition increaseQuality (s : State) : State :=
  recreateParticleSystem
    (set_config (set_particleCount
                   (Js.Math_min 1200 (particleCount (config s) + 50))
                   (config s)) s).

Definition adaptQuality (s : State) : State :=
  let fps := currentFPS (performance s) in
  let s :=
    if Z.ltb fps 30 && Js.gtb (particleCount (config s)) 200
    then reduceQuality s
    else if Z.gtb fps 55 && Js.ltb (particleCount (config s)) 1200
    then increaseQuality s
    else s in
  if Z.ltb fps 25 then
    set_performance (set_updateInterval (Some 2%nat) (performance s)) s
  else if Z.ltb fps 40 then
    reduceComplexity
      (set_performance (set_updateInterval (Some 1%nat) (performance s)) s)
  else
    restoreComplexity
      (set_performance (set_updateInterval (Some 1%nat) (performance s)) s).

(** [Math.round] of a number: the integer below the number plus one
    half. *)
Definition Math_round (a : R) : Z := Int_part (a + 1 / 2).

(** [updatePerformance(deltaTime)] at time [performance.now()]. *)
Definition updatePerformance (currentTime : R) (s : State) : State :=
  let s := set_performance
             (set_frameCount (S (frameCount (performance s)))
                (performance s)) s in
  if Js_geb (currentTime - lastFrameTime (performance s)) 1000 then
    let s := set_performance
               (set_currentFPS
                  (Math_round
                     (INR (frameCount (performance s)) * 1000
                      / (currentTime - lastFrameTime (performance s))))
                  (performance s)) s in
    let s :=
      if String.eqb (performanceMode (config s)) "auto"
         && adaptiveQuality (performance s)
      then adaptQuality s else s in
    set_performance
      (set_lastFrameTime currentTime
         (set_frameCount 0 (performance s))) s
  else s.

Definition handleShapeTransformations (gestureState : GestureState)
    (s : State) : State :=
  match gestureType gestureState with
  | none => s
  | _ =>
    if pinch gestureState then
      let s := set_uniforms
        (mkUniforms
           (Js.Math_min 1
              (transformationProgress (uniforms s)
               + transformationSpeed (config s) * 0.016))
           (targetShape (uniforms s))) s in
      if Js_geb (transformationProgress (uniforms s)) 1 then
        set_uniforms (mkUniforms 0 ((targetShape (uniforms s) + 1) mod 3)) s
      else s
    else s
  end.

(** [update(deltaTime, gestureState)] at time [performance.now()]. *)
Definition update (gestureState : GestureState) (currentTime : R) (s : State)
    : State :=
  let s := updatePerformance currentTime s in
  match updateInterval (performance s) with
  | Some interval =>
    if Nat.ltb 1 interval
       && negb (Nat.eqb (frameCount (performance s) mod interval) 0)
    then s
    else handleShapeTransformations gestureState s
  | None => handleShapeTransformations gestureState s
  end.

Definition setColorPalette (paletteName : string) (s : State) : State :=
  if Particles.mem paletteName colorPaletteKeys
     || Particles.mem paletteName Particles.inheritedKeys
  then set_config (set_currentPalette paletteName (config s)) s
  else s.

Definition setParticleDensity (density : R) (s : State) : State :=
  recreateParticleSystem
    (set_config (set_particleCount
                   (Js.Math_max 100 (Js.Math_min 2000 density)) (config s)) s).

Definition setTransformationSpeed (speed : R) (s : State) : State :=
  set_config (set_transformationSpeed
                (Js.Math_max 0.1 (Js.Math_min 10 speed)) (config s)) s.

Definition setPerformanceMode (mode : string) (s : State) : State :=
  let s := set_config (set_performanceMode mode (config s)) s in
  let s :=
    if String.eqb mode "low" then
      set_own_adaptiveQuality (Some false)
        (set_config (set_particleCount 200 (config s)) s)
    else if String.eqb mode "medium" then
      set_own_adaptiveQuality (Some true)
        (set_config (set_particleCount 500 (config s)) s)
    else if String.eqb mode "high" then
      set_own_adaptiveQuality (Some false)
        (set_config (set_particleCount 1000 (config s)) s)
    else if String.eqb mode "auto" then
      set_own_adaptiveQuality (Some true) s
    else s in
  recreateParticleSystem s.

(** Position of a string in a list, as [indexOf] counts it. *)
Fixpoint indexOf (v : string) (l : list string) : option nat :=
  match l with
  | [] => None
  | a :: rest =>
    if String.eqb a v then Some 0%nat else option_map S (indexOf v rest)
  end.

(** [l[(l.indexOf(v) + 1) % l.length]]: [indexOf] is -1 for a missing
    value, which leads to the first element. *)
Definition nextOf (v : string) (l : list string) : string :=
  let i := match indexOf v l with
           | Some i => ((i + 1) mod length l)%nat
           | None => 0%nat
           end in
  nth i l EmptyString.

Definition performanceModes : list string :=
  [ "auto"; "low"; "medium"; "high" ]%string.

(** The ['b'] key of [main.js]. *)
Definition keyB (s : State) : State :=
  setPerformanceMode (nextOf (performanceMode (config s)) performanceModes) s.

(** The ['n'] key of [main.js]. *)
Definition keyN (s : State) : State :=
  setColorPalette (nextOf (currentPalette (config s)) colorPaletteKeys) s.

Inductive Event : Type :=
| Update (gestureState : GestureState) (currentTime : R)
| SetColorPalette (paletteName : string)
| SetParticleDensity (density : R)
| SetTransformationSpeed (speed : R)
| SetPerformanceMode (mode : string)
| KeyB
| KeyN.

Definition step (s : State) (e : Event) : State :=
  match e with
  | Update gestureState currentTime => update gestureState currentTime s
  | SetColorPalette paletteName => setColorPalette paletteName s
  | SetParticleDensity density => setParticleDensity density s
  | SetTransformationSpeed speed => setTransformationSpeed speed s
  | SetPerformanceMode mode => setPerformanceMode mode s
  | KeyB => keyB s
  | KeyN => keyN s
  end.

Definition run (events : list Event) (s : State) : State :=
  fold_left step events s.

(** What every reachable state of the background satisfies. *)
Record Sound (s : State) : Prop := mkSound {
  sound_count : 100 <= particleCount (config s) <= 2000;
  sound_speed : 0.1 <= transformationSpeed (config s) <= 10;
  sound_progress : 0 <= transformationProgress (uniforms s) < 1;
  sound_shape : (targetShape (uniforms s) < 3)%nat;
  sound_adaptive : adaptiveQuality (performance s) = true
}.

(** One coordinate of a background particle after one update: moved by its
    velocity, and sent to the opposite face of the box when it leaves
    it. The coordinates live in a [Float32Array], so every number written
    to one is rounded to single precision and the boundary test reads the
    rounded number back; [Math_fround] is that rounding. The velocity is
    read from a [Float32Array] as well and only read here. *)
Definition Math_sign (a : R) : R :=
  if Js.gtb a 0 then 1 else if Js.ltb a 0 then -1 else 0.

Definition moveCoordinate (Math_fround : R -> R) (position velocity : R) : R :=
  let position := Math_fround (position + velocity * 0.016) in
  let boundary := 20 in
  if Js.gtb (Rabs position) boundary
  then Math_fround (- Math_sign position * boundary)
  else position.

(** A rounding to try [moveCoordinate] on: like the single-precision one,
    whose values around 20 are 2^-19 apart, it sends every number closer
    than 0.0000009 to 20 to 20; it leaves the other numbers alone. *)
Definition roundNearTwenty (a : R) : R :=
  if Js.ltb (Rabs (a - 20)) 0.0000009 then 20 else a.

End Background.

(** ** The key handler of [main.js], as far as it drives the particle
    system *)

Module Main.

(** What [getPerformanceStats()] returns. *)
Record PerformanceStats : Type := mkPerformanceStats {
  particleCount : R;
  quality : string;
  currentShape : string;
  theme : string
}.

Definition getPerformanceStats (p : Particles.State) : PerformanceStats :=
  mkPerformanceStats
    (Particles.particleCount (Particles.performanceOptimizer p))
    (Particles.quality (Particles.performanceOptimizer p))
    (Particles.currentShapeName p)
    (Particles.currentTheme p).

(** The module variables of [main.js] that the handler reads:
    [performanceStats], declared without a value, and its own
    [advancedEffects]. *)
Record Vars : Type := mkVars {
  performanceStats : option PerformanceStats;
  advancedEffects_pulse : bool
}.

Definition initialVars : Vars := mkVars None true.

Definition State : Type := (Vars * Particles.State)%type.

Definition initialState (ready : bool) : State :=
  (initialVars, Particles.initialState ready).

(** [performanceStats?.theme || 'cosmic'] *)
Definition statsTheme (v : Vars) : string :=
  match performanceStats v with
  | Some stats =>
    if String.eqb (theme stats) EmptyString then "cosmic"%string
    else theme stats
  | None => "cosmic"%string
  end.

Definition isKey (key : string) (lower upper : string) : bool :=
  String.eqb key lower || String.eqb key upper.

(** The [keydown] listener; the keys that act on the tracker, the page or
    the background leave these variables alone, and ['r'] reloads the
    page. *)
Definition keydown (key : string) (s : State) : State :=
  let (v, p) := s in
  if String.eqb key "1" then (v, Particles.setQuality "low" p)
  else if String.eqb key "2" then (v, Particles.setQuality "medium" p)
  else if String.eqb key "3" then (v, Particles.setQuality "high" p)
  else if String.eqb key " " then (v, Particles.switchTemplate p)
  else if isKey key "r" "R" then initialState (Particles.buffersReady p)
  else if isKey key "t" "T" then
    let themes := Particles.getAvailableThemes in
    let nextTheme := Background.nextOf (statsTheme v) themes in
    (v, fst (Particles.setColorTheme nextTheme p))
  else if isKey key "p" "P" then
    (v, fst (Particles.toggleAdvancedEffect "pulse"
               (negb (advancedEffects_pulse v)) p))
  else (v, p).

(** What happens to these variables in a session: key presses, the
    updates of the render loop and the cooldown timer. *)
Inductive Event : Type :=
| Key (key : string)
| Render (gestureState : GestureState) (currentTime : R)
| CooldownElapsed.

Definition step (s : State) (e : Event) : State :=
  match e with
  | Key key => keydown key s
  | Render gestureState currentTime =>
    (fst s, Particles.updateParticles gestureState currentTime (snd s))
  | CooldownElapsed => (fst s, Particles.cooldownElapsed (snd s))
  end.

Definition run (events : list Event) (s : State) : State :=
  fold_left step events s.

End Main.

(** * Properties *)

Section Numbers.

Lemma ltb_true (a b : R) : Js.ltb a b = true <-> a < b.
Proof.
  unfold Js.ltb. destruct (Rlt_dec a b); split; intros; auto; discriminate.
Qed.

Lemma ltb_false (a b : R) : Js.ltb a b = false <-> b <= a.
Proof.
  unfold Js.ltb. destruct (Rlt_dec a b); split; intros; auto;
    try discriminate; lra.
Qed.

Lemma gtb_true (a b : R) : Js.gtb a b = true <-> b < a.
Proof. apply ltb_true. Qed.

Lemma gtb_false (a b : R) : Js.gtb a b = false <-> a <= b.
Proof. apply ltb_false. Qed.

Lemma truthy_true (a : R) : Js.truthy a = true <-> a <> 0.
Proof.
  unfold Js.truthy. destruct (Req_dec_T a 0); split; intros; auto;
    try discriminate; contradiction.
Qed.

Lemma or_else_nonzero (a d : R) : a <> 0 -> Js.or_else (Some a) d = a.
Proof.
  intros H. unfold Js.or_else. apply truthy_true in H. now rewrite H.
Qed.

Lemma hypot_nonneg (a b : R) : 0 <= Js.Math_hypot a b.
Proof. apply sqrt_pos. Qed.

End Numbers.

Section ValidLandmarks.

Variable landmarks : list XY.
Hypothesis enough : (21 <= length landmarks)%nat.

Lemma nth_error_lm (i : nat) :
  (i < 21)%nat -> nth_error landmarks i = Some (lm landmarks i).
Proof.
  intros H. unfold lm. apply nth_error_nth'. lia.
Qed.

Lemma updateFingerStates_valid (f : FingerStates) :
  updateFingerStates landmarks f = (Normal tt, fingersOf landmarks).
Proof.
  unfold updateFingerStates.
  rewrite !nth_error_lm by lia. reflexivity.
Qed.

Lemma detectEnhancedPinch_valid {S : Type} (h : list Entry.t)
    (custom : option R) (s : S) :
  detectEnhancedPinch landmarks h custom s
  = (Normal (pinchOf landmarks h custom), s).
Proof.
  unfold detectEnhancedPinch.
  rewrite !nth_error_lm by lia. reflexivity.
Qed.

Lemma calculateHandOpenness_valid {S : Type} (f : FingerStates) (s : S) :
  calculateHandOpenness landmarks f s = (Normal (opennessOf landmarks f), s).
Proof.
  unfold calculateHandOpenness.
  rewrite !nth_error_lm by lia. reflexivity.
Qed.

Lemma processHand_valid (handedness : option Handedness) (currentTime : R)
    (w : World) :
  processHand landmarks handedness currentTime w
  = (frameCompletion handedness w,
     frameWorld landmarks handedness currentTime w).
Proof.
  unfold processHand, bind at 1. cbn [get].
  unfold bind at 1, zoom. rewrite updateFingerStates_valid.
  unfold bind at 1. cbn [get].
  unfold bind at 1. cbn [assign modify].
  unfold bind at 1. cbn [assign modify].
  unfold bind at 1. rewrite detectEnhancedPinch_valid.
  unfold bind at 1. cbn [assign modify].
  unfold bind at 1. cbn [assign modify].
  unfold bind at 1. cbn [modify].
  unfold bind at 1. cbn [get].
  unfold bind at 1. rewrite calculateHandOpenness_valid.
  unfold bind at 1. cbn [assign modify].
  unfold bind at 1. rewrite nth_error_lm by lia. cbn [member ret].
  unfold bind, assign, modify, get, frameCompletion, frameWorld.
  cbn -[frameState].
  destruct w as [s h lp lg c st]; cbn.
  destruct (_ && _); destruct st; destruct handedness; reflexivity.
Qed.

End ValidLandmarks.

(** ** The three kinds of frame *)

Lemma onResults_empty (results : Results) (currentTime : R) (w : World) :
  multiHandLandmarks results = [] ->
  onResults results currentTime w = (Normal tt, noHandWorld w).
Proof.
  intros H. unfold onResults. rewrite H. reflexivity.
Qed.

Lemma onResults_short (results : Results) (currentTime : R) (w : World) :
  shortHand results = true ->
  onResults results currentTime w = (Normal tt, w).
Proof.
  unfold shortHand, selectedLandmarks, onResults.
  intros H. apply andb_prop in H. destruct H as [Hne Hsel].
  apply negb_true_iff in Hne. rewrite Hne.
  destruct (nth_error (multiHandLandmarks results) (fst (bestHand results)))
    as [[landmarks|]|]; try reflexivity.
  now rewrite Hsel.
Qed.

Lemma validHand_length (results : Results) :
  validHand results = true -> (21 <= length (theLandmarks results))%nat.
Proof.
  unfold validHand, theLandmarks. intros H.
  apply andb_prop in H. destruct H as [_ H].
  destruct (selectedLandmarks results); [|discriminate].
  now apply Nat.leb_le.
Qed.

Lemma onResults_valid (results : Results) (currentTime : R) (w : World) :
  validHand results = true ->
  onResults results currentTime w
  = (frameCompletion (selectedHandedness results) w,
     frameWorld (theLandmarks results) (selectedHandedness results)
       currentTime w).
Proof.
  intros H. pose proof (validHand_length results H) as Hlen.
  revert H Hlen. unfold validHand, theLandmarks, selectedLandmarks, onResults.
  intros H Hlen. apply andb_prop in H. destruct H as [Hne Hsel].
  apply negb_true_iff in Hne. rewrite Hne.
  destruct (nth_error (multiHandLandmarks results) (fst (bestHand results)))
    as [[landmarks|]|]; try discriminate.
  replace (Nat.ltb (length landmarks) 21) with false
    by (symmetry; apply Nat.ltb_ge; exact Hlen).
  now apply processHand_valid.
Qed.

Lemma step_valid (results : Results) (currentTime : R) (w : World) :
  validHand results = true ->
  step w (Frame results currentTime)
  = frameWorld (theLandmarks results) (selectedHandedness results)
      currentTime w.
Proof.
  intros H. unfold step, handler. now rewrite onResults_valid.
Qed.

Lemma step_empty (results : Results) (currentTime : R) (w : World) :
  multiHandLandmarks results = [] ->
  step w (Frame results currentTime) = noHandWorld w.
Proof.
  intros H. unfold step, handler. now rewrite onResults_empty.
Qed.

Lemma step_short (results : Results) (currentTime : R) (w : World) :
  shortHand results = true ->
  step w (Frame results currentTime) = w.
Proof.
  intros H. unfold step, handler. now rewrite onResults_short.
Qed.

(** Every frame is of exactly one of the three kinds. *)
Lemma frame_kinds (results : Results) :
  multiHandLandmarks results = []
  \/ shortHand results = true
  \/ validHand results = true.
Proof.
  unfold shortHand, validHand.
  destruct (multiHandLandmarks results) as [|l ls] eqn:E; [now left|right].
  cbn [length Nat.eqb negb andb].
  destruct (selectedLandmarks results) as [landmarks|]; [|now left].
  destruct (Nat.ltb_spec (length landmarks) 21) as [Hlt|Hge].
  - now left.
  - right. now apply Nat.leb_le.
Qed.

(** ** Evaluation of concrete frames *)

Arguments Js.ltb : simpl never.
Arguments Js.gtb : simpl never.
Arguments Js.truthy : simpl never.
Arguments Js.Math_max : simpl never.
Arguments Js.Math_min : simpl never.
Arguments Js.Math_sqrt : simpl never.
Arguments Js.Math_hypot : simpl never.

Section Evaluation.

Lemma sqrt_is (e v : R) : 0 <= v -> e = v * v -> sqrt e = v.
Proof. intros Hv ->. now apply sqrt_square. Qed.

Lemma bestHand_single (l : option (list XY)) (h : list Handedness) :
  fst (bestHand (mkResults [l] h)) = 0%nat.
Proof.
  unfold bestHand. cbn. unfold bestHandStep.
  destruct (Js.gtb _ _); reflexivity.
Qed.

Lemma selected_single (landmarks : list XY) (h : list Handedness) :
  selectedLandmarks (mkResults [Some landmarks] h) = Some landmarks.
Proof. unfold selectedLandmarks. now rewrite bestHand_single. Qed.

Lemma validHand_single (landmarks : list XY) (h : list Handedness) :
  (21 <= length landmarks)%nat ->
  validHand (mkResults [Some landmarks] h) = true.
Proof.
  intros H. unfold validHand. rewrite selected_single.
  cbn [multiHandLandmarks length Nat.eqb negb andb].
  now apply Nat.leb_le.
Qed.

Lemma theLandmarks_single (landmarks : list XY) (h : list Handedness) :
  theLandmarks (mkResults [Some landmarks] h) = landmarks.
Proof. unfold theLandmarks. now rewrite selected_single. Qed.

Lemma selectedHandedness_single (l : option (list XY))
    (h : list Handedness) :
  selectedHandedness (mkResults [l] h) = nth_error h 0.
Proof. unfold selectedHandedness. now rewrite bestHand_single. Qed.

Lemma step_single (landmarks : list XY) (h : list Handedness)
    (currentTime : R) (w : World) :
  (21 <= length landmarks)%nat ->
  step w (Frame (mkResults [Some landmarks] h) currentTime)
  = frameWorld landmarks (nth_error h 0) currentTime w.
Proof.
  intros H. rewrite step_valid by now apply validHand_single.
  now rewrite theLandmarks_single, selectedHandedness_single.
Qed.

Lemma validHand_oneHand (a b c d e : XY) :
  validHand (oneHand (hand a b c d e)) = true.
Proof. apply validHand_single. cbn. lia. Qed.

Lemma shortHand_eightPoints : shortHand eightPoints = true.
Proof.
  unfold shortHand, eightPoints. now rewrite selected_single.
Qed.

End Evaluation.

(** Decides the comparisons of a goal whose operands are numerals. *)
Ltac js_compare :=
  repeat match goal with
  | |- context [Js.gtb ?a ?b] =>
    first [ rewrite (proj2 (gtb_true a b)) by lra
          | rewrite (proj2 (gtb_false a b)) by lra ]
  | |- context [Js.ltb ?a ?b] =>
    first [ rewrite (proj2 (ltb_true a b)) by lra
          | rewrite (proj2 (ltb_false a b)) by lra ]
  end.

(** Evaluates the square roots of a goal whose operands are numerals:
    [v] is the value claimed for the root of [e]. *)
Ltac js_root e v :=
  replace (sqrt e) with v by (symmetry; apply sqrt_is; lra).

Section FingerExamples.

Lemma fingersOf_closedHand :
  fingersOf closedHand = mkFingerStates false false false false false.
Proof.
  unfold fingersOf, span, Js.Math_hypot, closedHand, hand, lm, origin.
  cbn [nth x y].
  js_root ((0 - 0) * (0 - 0) + (0 - 0) * (0 - 0)) 0.
  now js_compare.
Qed.

Lemma fingersOf_thumbIndexMiddleUp :
  fingersOf thumbIndexMiddleUp = mkFingerStates true true true false false.
Proof.
  unfold fingersOf, span, Js.Math_hypot, thumbIndexMiddleUp, hand, lm, origin.
  cbn [nth x y].
  js_root ((0 - 0) * (0 - 0) + (0 - 0) * (0 - 0)) 0.
  js_root ((0.2 - 0) * (0.2 - 0) + (0 - 0) * (0 - 0)) 0.2.
  js_root ((0 - 0) * (0 - 0) + (0.2 - 0) * (0.2 - 0)) 0.2.
  now js_compare.
Qed.

Lemma fingersOf_allFiveUp :
  fingersOf allFiveUp = mkFingerStates true true true true true.
Proof.
  unfold fingersOf, span, Js.Math_hypot, allFiveUp, hand, lm, origin.
  cbn [nth x y].
  js_root ((0.2 - 0) * (0.2 - 0) + (0 - 0) * (0 - 0)) 0.2.
  js_root ((0 - 0) * (0 - 0) + (0.2 - 0) * (0.2 - 0)) 0.2.
  now js_compare.
Qed.

Lemma fingersOf_indexMiddleUp :
  fingersOf indexMiddleUp = mkFingerStates false true true false false.
Proof.
  unfold fingersOf, span, Js.Math_hypot, indexMiddleUp, hand, lm, origin.
  cbn [nth x y].
  js_root ((0 - 0) * (0 - 0) + (0 - 0) * (0 - 0)) 0.
  js_root ((0.2 - 0) * (0.2 - 0) + (0 - 0) * (0 - 0)) 0.2.
  js_root ((0 - 0) * (0 - 0) + (0.2 - 0) * (0.2 - 0)) 0.2.
  now js_compare.
Qed.

End FingerExamples.

(** ** Discrete classification *)

Section Classification.

Lemma frame_fingers (results : Results) (currentTime : R) (w : World) :
  validHand results = true ->
  fingerStates (state (step w (Frame results currentTime)))
  = fingersOf (theLandmarks results).
Proof. intros H. now rewrite step_valid. Qed.

Lemma frame_gestureType (results : Results) (currentTime : R) (w : World) :
  validHand results = true ->
  gestureType (state (step w (Frame results currentTime)))
  = GestureData.type
      (recognizeAdvancedGestures (theLandmarks results)
         (fingerStates (state (step w (Frame results currentTime))))).
Proof. intros H. now rewrite step_valid. Qed.

Lemma frame_gestureConfidence (results : Results) (currentTime : R)
    (w : World) :
  validHand results = true ->
  gestureConfidence (state (step w (Frame results currentTime)))
  = lerp (gestureConfidence (state w))
      (GestureData.confidence
         (recognizeAdvancedGestures (theLandmarks results)
            (fingerStates (state (step w (Frame results currentTime))))))
      0.1.
Proof. intros H. now rewrite step_valid. Qed.

(** The landmarks play no part in the classification. *)
Lemma recognize_peace_only (landmarks : list XY) (f : FingerStates) :
  GestureData.type (recognizeAdvancedGestures landmarks f) = peace ->
  f = mkFingerStates false true true false false.
Proof.
  destruct f as [[] [] [] [] []]; cbn; intros H;
    solve [reflexivity | discriminate H].
Qed.

Lemma recognize_confidence_range (landmarks : list XY) (f : FingerStates) :
  0.8 <= GestureData.confidence (recognizeAdvancedGestures landmarks f)
      <= 0.95.
Proof.
  destruct f as [[] [] [] [] []]; cbn; lra.
Qed.

End Classification.

(** C3 (as amended): on a valid hand whose extension test marks the index
    and middle digits as extended and the thumb, ring and pinky as not
    extended, the classification is [peace] with base confidence 0.9; no
    other pattern of extended digits is classified [peace]. *)
Theorem C3_peace_is_exactly_index_and_middle :
  forall (results : Results) (currentTime : R) (w : World),
    validHand results = true ->
    let w' := step w (Frame results currentTime) in
    let f := fingerStates (state w') in
    (f = mkFingerStates false true true false false ->
       recognizeAdvancedGestures (theLandmarks results) f
       = GestureData.mk peace 0.9
       /\ gestureType (state w') = peace
       /\ gestureConfidence (state w')
          = lerp (gestureConfidence (state w)) 0.9 0.1)
    /\ (gestureType (state w') = peace ->
        f = mkFingerStates false true true false false).
Proof.
  intros results currentTime w Hvalid w' f. split.
  - intros Hf. subst w' f.
    rewrite frame_gestureType, frame_gestureConfidence by assumption.
    rewrite Hf. cbn. auto.
  - subst w' f. rewrite frame_gestureType by assumption.
    apply recognize_peace_only.
Qed.

Lemma C3_peace_witness :
  validHand (oneHand indexMiddleUp) = true
  /\ gestureType
       (state (step (initialWorld true) (Frame (oneHand indexMiddleUp) 16)))
     = peace.
Proof.
  assert (Hv : validHand (oneHand indexMiddleUp) = true)
    by (apply validHand_single; cbn; lia).
  split; [exact Hv|].
  destruct (C3_peace_is_exactly_index_and_middle
              (oneHand indexMiddleUp) 16 (initialWorld true) Hv) as [H _].
  apply H. rewrite frame_fingers by exact Hv.
  unfold oneHand. rewrite theLandmarks_single.
  apply fingersOf_indexMiddleUp.
Defined.

(** C3 fails as stated: with the thumb extended besides the index and the
    middle digit, the classification is the default [open_hand] at 0.8. *)
Lemma C3_counterexample :
  let results := oneHand thumbIndexMiddleUp in
  let w' := step (initialWorld true) (Frame results 16) in
  validHand results = true
  /\ index (fingerStates (state w')) = true
  /\ middle (fingerStates (state w')) = true
  /\ recognizeAdvancedGestures (theLandmarks results) (fingerStates (state w'))
     = GestureData.mk open_hand 0.8
  /\ gestureType (state w') = open_hand
  /\ gestureType (state w') <> peace.
Proof.
  intros results w'.
  assert (Hv : validHand results = true)
    by (apply validHand_single; cbn; lia).
  assert (Hf : fingerStates (state w')
               = mkFingerStates true true true false false).
  { unfold w'. rewrite frame_fingers by exact Hv.
    unfold results, oneHand. rewrite theLandmarks_single.
    apply fingersOf_thumbIndexMiddleUp. }
  assert (Hg : gestureType (state w') = open_hand).
  { unfold w'. rewrite frame_gestureType by exact Hv.
    fold w'. now rewrite Hf. }
  rewrite Hf, Hg. cbn. repeat split; auto. discriminate.
Qed.

(** C4: on a valid hand whose extension test marks all five digits as
    extended, the classification is [open_hand] with base confidence 0.85,
    and so neither [three] nor [peace]. *)
Theorem C4_all_five_is_open_hand :
  forall (results : Results) (currentTime : R) (w : World),
    validHand results = true ->
    let w' := step w (Frame results currentTime) in
    let f := fingerStates (state w') in
    f = mkFingerStates true true true true true ->
    recognizeAdvancedGestures (theLandmarks results) f
    = GestureData.mk open_hand 0.85
    /\ gestureType (state w') = open_hand
    /\ gestureType (state w') <> three
    /\ gestureType (state w') <> peace
    /\ gestureConfidence (state w')
       = lerp (gestureConfidence (state w)) 0.85 0.1.
Proof.
  intros results currentTime w Hvalid w' f Hf. subst w' f.
  rewrite frame_gestureType, frame_gestureConfidence by assumption.
  rewrite Hf. cbn. repeat split; auto; discriminate.
Qed.

Lemma C4_open_hand_witness :
  validHand (oneHand allFiveUp) = true
  /\ gestureType
       (state (step (initialWorld true) (Frame (oneHand allFiveUp) 16)))
     = open_hand.
Proof.
  assert (Hv : validHand (oneHand allFiveUp) = true)
    by (apply validHand_single; cbn; lia).
  split; [exact Hv|].
  apply (C4_all_five_is_open_hand (oneHand allFiveUp) 16 (initialWorld true) Hv).
  rewrite frame_fingers by exact Hv.
  unfold oneHand. rewrite theLandmarks_single.
  apply fingersOf_allFiveUp.
Defined.

(** ** Frames without a usable hand *)

Section NoHand.

Lemma selected_nonempty (results : Results) (landmarks : list XY) :
  selectedLandmarks results = Some landmarks ->
  Nat.eqb (length (multiHandLandmarks results)) 0 = false.
Proof.
  unfold selectedLandmarks.
  destruct (multiHandLandmarks results) as [|l ls]; [|reflexivity].
  destruct (fst (bestHand results)); discriminate.
Qed.

Lemma selected_short (results : Results) (landmarks : list XY) :
  selectedLandmarks results = Some landmarks ->
  (length landmarks < 21)%nat ->
  shortHand results = true.
Proof.
  intros Hsel Hlen. unfold shortHand.
  rewrite (selected_nonempty _ _ Hsel), Hsel. cbn [negb andb].
  now apply Nat.ltb_lt.
Qed.

Lemma adaptive_threshold_floor (palmWidth : R) :
  0.036 <= 0.045 * Js.Math_max 0.8 (Js.Math_min 1.2 (palmWidth * 3)) <= 0.054.
Proof.
  unfold Js.Math_max, Js.Math_min.
  pose proof (Rmax_l 0.8 (Rmin 1.2 (palmWidth * 3))).
  pose proof (Rmin_l 1.2 (palmWidth * 3)).
  assert (Rmax 0.8 (Rmin 1.2 (palmWidth * 3)) <= 1.2)
    by (apply Rmax_lub; lra).
  lra.
Qed.

Lemma pinchDistance_closedHand : pinchDistanceOf closedHand = 0.
Proof.
  unfold pinchDistanceOf, Js.Math_sqrt, closedHand, hand, lm, origin.
  cbn [nth x y]. apply sqrt_is; lra.
Qed.

Lemma pinch_closedHand (h : list Entry.t) :
  PinchData.isPinching (pinchOf closedHand h None) = true.
Proof.
  cbn [pinchOf PinchData.isPinching]. apply ltb_true.
  rewrite pinchDistance_closedHand. unfold finalThresholdOf, Js.or_else.
  pose proof (adaptive_threshold_floor (span closedHand 5 17)). lra.
Qed.

End NoHand.

(** C1 (as amended): a callback with an empty hand list returns normally
    having set [gestureType] to [none] and [gestureConfidence] to 0, with
    [pinch] left at its previous value; a callback whose selected hand has
    fewer than 21 landmarks returns normally and leaves the heap as it
    was. *)
Theorem C1_frames_without_hand_return_normally :
  forall (results : Results) (currentTime : R) (w : World),
    (multiHandLandmarks results = [] ->
       fst (onResults results currentTime w) = Normal tt
       /\ gestureType (state (snd (onResults results currentTime w))) = none
       /\ gestureConfidence (state (snd (onResults results currentTime w))) = 0
       /\ pinch (state (snd (onResults results currentTime w)))
          = pinch (state w))
    /\ (forall landmarks : list XY,
          selectedLandmarks results = Some landmarks ->
          (length landmarks < 21)%nat ->
          onResults results currentTime w = (Normal tt, w)).
Proof.
  intros results currentTime w. split.
  - intros H. rewrite onResults_empty by exact H. cbn. auto.
  - intros landmarks Hsel Hlen. apply onResults_short.
    eapply selected_short; eassumption.
Qed.

Lemma C1_return_normally_witness :
  fst (onResults noHands 32 (initialWorld true)) = Normal tt
  /\ onResults eightPoints 32 (initialWorld true)
     = (Normal tt, initialWorld true).
Proof.
  destruct (C1_frames_without_hand_return_normally noHands 32
              (initialWorld true)) as [H _].
  destruct (C1_frames_without_hand_return_normally eightPoints 32
              (initialWorld true)) as [_ H'].
  split.
  - apply H. reflexivity.
  - apply (H' (repeat origin 8)).
    + unfold eightPoints. apply selected_single.
    + cbn. lia.
Defined.

(** C1 fails as stated: after a frame that reports a pinching fist, an
    empty hand list leaves [pinch] at [true], and a hand of eight landmarks
    leaves [gestureType] at [fist] and [pinch] at [true]. *)
Lemma C1_counterexample :
  let w := run [Frame (oneHand closedHand) 16] (initialWorld true) in
  multiHandLandmarks noHands = []
  /\ selectedLandmarks eightPoints = Some (repeat origin 8)
  /\ pinch (state (step w (Frame noHands 32))) = true
  /\ gestureType (state (step w (Frame eightPoints 32))) = fist
  /\ pinch (state (step w (Frame eightPoints 32))) = true.
Proof.
  intros w.
  assert (Hw : w = frameWorld closedHand
                     (Some (mkHandedness 0.9 "Right")) 16 (initialWorld true)).
  { unfold w, run, oneHand. cbn [fold_left].
    rewrite step_single by (cbn; lia). reflexivity. }
  assert (Hp : pinch (state w) = true).
  { rewrite Hw. cbn [frameWorld state frameState pinch initialWorld
                     gestureHistory customPinchThreshold].
    apply pinch_closedHand. }
  assert (Hg : gestureType (state w) = fist).
  { rewrite Hw. cbn [frameWorld state frameState gestureType].
    now rewrite fingersOf_closedHand. }
  split; [reflexivity|].
  split; [apply selected_single|].
  rewrite step_empty by reflexivity.
  rewrite step_short by apply shortHand_eightPoints.
  cbn [noHandWorld set_state state set_gestureConfidence set_gestureType pinch].
  auto.
Qed.

(** C10: on an empty hand list only [gestureType] and [gestureConfidence]
    are written (to [none] and 0) and every other field of the output
    state keeps its value; on a selected hand of fewer than 21 landmarks
    nothing is written at all. *)
Theorem C10_frame_effect_without_hand :
  forall (results : Results) (currentTime : R) (w : World),
    let w' := step w (Frame results currentTime) in
    (multiHandLandmarks results = [] ->
       gestureType (state w') = none
       /\ gestureConfidence (state w') = 0
       /\ pinch (state w') = pinch (state w)
       /\ position (state w') = position (state w)
       /\ openness (state w') = openness (state w)
       /\ handVelocity (state w') = handVelocity (state w)
       /\ fingerStates (state w') = fingerStates (state w)
       /\ pinchDetails (state w') = pinchDetails (state w))
    /\ (forall landmarks : list XY,
          selectedLandmarks results = Some landmarks ->
          (length landmarks < 21)%nat ->
          state w' = state w).
Proof.
  intros results currentTime w w'. split.
  - intros H. unfold w'. rewrite step_empty by exact H. cbn.
    repeat split.
  - intros landmarks Hsel Hlen. unfold w'.
    rewrite step_short; [reflexivity|].
    eapply selected_short; eassumption.
Qed.

Lemma C10_frame_effect_witness :
  gestureType (state (step (initialWorld true) (Frame noHands 32))) = none
  /\ state (step (initialWorld true) (Frame eightPoints 32))
     = state (initialWorld true).
Proof.
  destruct (C10_frame_effect_without_hand noHands 32 (initialWorld true))
    as [H _].
  destruct (C10_frame_effect_without_hand eightPoints 32 (initialWorld true))
    as [_ H'].
  split.
  - apply H. reflexivity.
  - apply (H' (repeat origin 8)).
    + unfold eightPoints. apply selected_single.
    + cbn. lia.
Defined.

(** ** Reachable worlds *)

Section Reachability.

Lemma run_snoc (events : list Event) (e : Event) (w : World) :
  run (events ++ [e]) w = step (run events w) e.
Proof. unfold run. now rewrite fold_left_app. Qed.

Lemma reachable_initial (b : bool) : reachable (initialWorld b).
Proof. now exists b, []. Qed.

Lemma reachable_step (w : World) (e : Event) :
  reachable w -> reachable (step w e).
Proof.
  intros [b [events ->]]. exists b, (events ++ [e]). now rewrite run_snoc.
Qed.

Lemma reachable_run (events : list Event) (w : World) :
  reachable w -> reachable (run events w).
Proof.
  revert w. induction events as [|e events IH]; intros w H; [exact H|].
  cbn. apply IH. now apply reachable_step.
Qed.

(** Induction over the events that lead to a reachable world. *)
Lemma reachable_ind (P : World -> Prop) :
  (forall b, P (initialWorld b)) ->
  (forall w e, reachable w -> P w -> P (step w e)) ->
  forall w, reachable w -> P w.
Proof.
  intros Hinit Hstep w [b [events ->]].
  induction events as [|e events IH] using rev_ind.
  - apply Hinit.
  - rewrite run_snoc. apply Hstep; [|exact IH]. now exists b, events.
Qed.

(** The three frame kinds and the calibration key, as a case analysis on
    one step. *)
Lemma step_cases (P : World -> Prop) (w : World) (e : Event) :
  (forall results currentTime,
      e = Frame results currentTime ->
      multiHandLandmarks results = [] -> P (noHandWorld w)) ->
  (forall results currentTime,
      e = Frame results currentTime ->
      validHand results = true ->
      P (frameWorld (theLandmarks results) (selectedHandedness results)
           currentTime w)) ->
  (e = KeyC -> P (snd (calibrate w))) ->
  P w ->
  P (step w e).
Proof.
  intros Hempty Hvalid Hkey Hsame. destruct e as [results currentTime|].
  - destruct (frame_kinds results) as [H|[H|H]].
    + rewrite step_empty by exact H. now apply (Hempty results currentTime).
    + now rewrite step_short.
    + rewrite step_valid by exact H. now apply (Hvalid results currentTime).
  - now apply Hkey.
Qed.

Lemma calibrate_threshold (w : World) :
  customPinchThreshold (snd (calibrate w)) = customPinchThreshold w
  \/ exists d, 0 < d
       /\ pinchDetails (state w) <> None
       /\ customPinchThreshold (snd (calibrate w)) = Some (d * 1.2).
Proof.
  unfold calibrate, bind, get.
  destruct (pinchDetails (state w)) as [d|] eqn:E; [|now left].
  destruct (Js.gtb (PinchDetails.distance d) 0) eqn:G; [|now left].
  right. exists (PinchDetails.distance d). apply gtb_true in G.
  repeat split; [exact G|discriminate].
Qed.

Lemma reachable_overridePositive (w : World) :
  reachable w -> overridePositive w.
Proof.
  apply reachable_ind.
  - intros b. exact I.
  - intros w0 e _ IH. apply step_cases; try (intros; exact IH).
    intros _. unfold overridePositive in *.
    destruct (calibrate_threshold w0) as [-> | [d [Hd [_ ->]]]];
      [exact IH | lra].
Qed.

End Reachability.

(** ** Pinch detection against the formulas of the specification *)

Section PinchRefinement.

Lemma spec_distance_hypot (p q : XY) :
  Js.Math_hypot (x p - x q) (y p - y q) = spec_distance p q.
Proof. reflexivity. Qed.

Lemma spec_distance_sqrt (p q : XY) :
  Js.Math_sqrt ((x p - x q) ^ 2 + (y p - y q) ^ 2) = spec_distance p q.
Proof.
  unfold Js.Math_sqrt, spec_distance, Rsqr. f_equal. ring.
Qed.

Lemma spec_clamp_max_min (v : R) :
  Js.Math_max 0.8 (Js.Math_min 1.2 v) = spec_clamp v 0.8 1.2.
Proof.
  unfold Js.Math_max, Js.Math_min, spec_clamp, Rmax, Rmin.
  destruct (Rlt_dec v 0.8), (Rlt_dec 1.2 v), (Rle_dec 1.2 v);
    try lra; destruct (Rle_dec 0.8 _); lra.
Qed.

Lemma pinchDistanceOf_spec (landmarks : list XY) :
  pinchDistanceOf landmarks = spec_pinchDistance landmarks.
Proof. apply spec_distance_sqrt. Qed.

Lemma finalThresholdOf_spec (landmarks : list XY) (override : option R) :
  match override with Some t => t <> 0 | None => True end ->
  finalThresholdOf landmarks override
  = spec_effectiveThreshold landmarks override.
Proof.
  intros H. unfold finalThresholdOf, spec_effectiveThreshold.
  destruct override as [t|].
  - now apply or_else_nonzero.
  - cbn [Js.or_else]. unfold spec_adaptiveThreshold, span.
    rewrite spec_clamp_max_min, spec_distance_hypot.
    unfold spec_palmWidth. ring.
Qed.

Lemma filter_pinch_count (h : list Entry.t) :
  length (filter Entry.pinch h) = spec_pinchCount h.
Proof.
  unfold spec_pinchCount.
  induction h as [|e h IH]; [reflexivity|].
  cbn [filter map count_occ].
  destruct (Entry.pinch e); cbn [length].
  - destruct (bool_dec true true); [now rewrite IH|contradiction].
  - destruct (bool_dec false true); [discriminate|exact IH].
Qed.

Lemma slice_last3_app (older : list Entry.t) (a b c : Entry.t) :
  slice_last3 (older ++ [a; b; c]) = [a; b; c].
Proof.
  unfold slice_last3. rewrite length_app. cbn [length].
  replace (length older + 3 - 3)%nat with (length older + 0)%nat by lia.
  rewrite skipn_app, Nat.add_0_r, skipn_all, Nat.sub_diag. reflexivity.
Qed.

Lemma sustained_spec (h : list Entry.t) :
  Nat.leb 3 (length h) && forallb Entry.pinch (slice_last3 h)
  = spec_sustained h.
Proof.
  unfold spec_sustained.
  rewrite <- (rev_involutive h) at 1 2.
  destruct (rev h) as [|c [|b [|a r]]]; try reflexivity.
  assert (E : rev (c :: b :: a :: r) = rev r ++ [a; b; c]).
  { cbn [rev]. now rewrite <- !app_assoc. }
  rewrite E, slice_last3_app, length_app. cbn [length forallb].
  replace (Nat.leb 3 (length (rev r) + 3)) with true
    by (symmetry; apply Nat.leb_le; lia).
  cbn [andb]. now rewrite andb_true_r, andb_assoc.
Qed.

Lemma pinchConfidenceOf_spec (landmarks : list XY) (h : list Entry.t)
    (override : option R) :
  match override with Some t => t <> 0 | None => True end ->
  pinchConfidenceOf landmarks h override
  = spec_pinchConfidence (spec_pinchDistance landmarks)
      (spec_effectiveThreshold landmarks override) h.
Proof.
  intros H. unfold pinchConfidenceOf, spec_pinchConfidence.
  rewrite pinchDistanceOf_spec, finalThresholdOf_spec by exact H.
  rewrite filter_pinch_count, sustained_spec.
  unfold Js.Math_min, Js.Math_max.
  now rewrite (Rmult_comm _ 2), (Rmult_comm (INR _) 0.1).
Qed.

Lemma overridePositive_nonzero (w : World) :
  overridePositive w ->
  match customPinchThreshold w with Some t => t <> 0 | None => True end.
Proof.
  unfold overridePositive. destruct (customPinchThreshold w); [lra|auto].
Qed.

End PinchRefinement.

Section PinchFrames.

Variable results : Results.
Variable currentTime : R.
Variable w : World.
Hypothesis valid : validHand results = true.

Lemma frame_pinch :
  pinch (state (step w (Frame results currentTime)))
  = Js.ltb (pinchDistanceOf (theLandmarks results))
      (finalThresholdOf (theLandmarks results) (customPinchThreshold w)).
Proof. now rewrite step_valid. Qed.

Lemma frame_pinchDetails :
  pinchDetails (state (step w (Frame results currentTime)))
  = Some (PinchDetails.mk
            (pinchDistanceOf (theLandmarks results))
            (finalThresholdOf (theLandmarks results) (customPinchThreshold w))
            (pinchConfidenceOf (theLandmarks results) (gestureHistory w)
               (customPinchThreshold w))
            (Some (labelOrUnknown (selectedHandedness results)))).
Proof. now rewrite step_valid. Qed.

Lemma frame_customPinchThreshold :
  customPinchThreshold (step w (Frame results currentTime))
  = customPinchThreshold w.
Proof. now rewrite step_valid. Qed.

End PinchFrames.

(** C2: on a valid hand, [detectEnhancedPinch] returns normally; the
    threshold it uses is the calibration override when one is set and
    otherwise clamp(palmWidth * 3, 0.8, 1.2) * 0.045; and the pinch flag it
    returns, which the frame stores in [state.pinch], is set exactly when
    the thumb-tip to index-tip distance is strictly below that threshold. *)
Theorem C2_pinch_threshold :
  forall (w : World) (results : Results) (currentTime : R),
    reachable w ->
    validHand results = true ->
    let landmarks := theLandmarks results in
    let override := customPinchThreshold w in
    exists pinchData : PinchData.t,
      detectEnhancedPinch landmarks (gestureHistory w) override w
      = (Normal pinchData, w)
      /\ PinchData.threshold pinchData
         = match override with
           | Some t => t
           | None =>
             spec_clamp (spec_palmWidth landmarks * 3) 0.8 1.2 * 0.045
           end
      /\ (PinchData.isPinching pinchData = true
          <-> spec_pinchDistance landmarks < PinchData.threshold pinchData)
      /\ pinch (state (step w (Frame results currentTime)))
         = PinchData.isPinching pinchData.
Proof.
  intros w results currentTime Hreach Hvalid landmarks override.
  pose proof (validHand_length results Hvalid) as Hlen.
  pose proof (overridePositive_nonzero w (reachable_overridePositive w Hreach))
    as Hnz.
  exists (pinchOf landmarks (gestureHistory w) override).
  split; [now apply detectEnhancedPinch_valid|].
  cbn [pinchOf PinchData.threshold PinchData.isPinching].
  unfold override, landmarks.
  rewrite finalThresholdOf_spec by exact Hnz.
  split; [reflexivity|]. split.
  - rewrite ltb_true, pinchDistanceOf_spec. reflexivity.
  - rewrite frame_pinch by exact Hvalid.
    now rewrite finalThresholdOf_spec by exact Hnz.
Qed.

Lemma C2_pinch_threshold_witness :
  exists pinchData : PinchData.t,
    detectEnhancedPinch closedHand [] None (initialWorld true)
    = (Normal pinchData, initialWorld true)
    /\ PinchData.threshold pinchData
       = spec_clamp (spec_palmWidth closedHand * 3) 0.8 1.2 * 0.045.
Proof.
  destruct (C2_pinch_threshold (initialWorld true) (oneHand closedHand) 16
              (reachable_initial true)
              (validHand_oneHand origin origin origin origin origin))
    as [pinchData [Hrun [Hthr _]]].
  unfold oneHand in Hrun, Hthr. rewrite theLandmarks_single in Hrun, Hthr.
  exists pinchData. split; [exact Hrun|exact Hthr].
Defined.

(** C6: on a valid hand the confidence stored in [state.pinchDetails] is
    min(1, max(0, 1 - distance / (2 * threshold))
           + min(0.3, 0.1 * number of pinching history entries)
           + (0.2 if the last three history entries all pinch, else 0)),
    with the effective threshold and the history as they are when the
    frame arrives. *)
Theorem C6_pinch_confidence :
  forall (w : World) (results : Results) (currentTime : R),
    reachable w ->
    validHand results = true ->
    let landmarks := theLandmarks results in
    exists d : PinchDetails.t,
      pinchDetails (state (step w (Frame results currentTime))) = Some d
      /\ PinchDetails.confidence d
         = spec_pinchConfidence
             (spec_pinchDistance landmarks)
             (spec_effectiveThreshold landmarks (customPinchThreshold w))
             (gestureHistory w).
Proof.
  intros w results currentTime Hreach Hvalid landmarks.
  rewrite frame_pinchDetails by exact Hvalid.
  eexists. split; [reflexivity|].
  cbn [PinchDetails.confidence]. apply pinchConfidenceOf_spec.
  apply overridePositive_nonzero. now apply reachable_overridePositive.
Qed.

Lemma C6_pinch_confidence_witness :
  exists d : PinchDetails.t,
    pinchDetails
      (state (step (initialWorld true) (Frame (oneHand closedHand) 16)))
    = Some d
    /\ PinchDetails.confidence d
       = spec_pinchConfidence (spec_pinchDistance closedHand)
           (spec_effectiveThreshold closedHand None) [].
Proof.
  destruct (C6_pinch_confidence (initialWorld true) (oneHand closedHand) 16
              (reachable_initial true)
              (validHand_oneHand origin origin origin origin origin))
    as [d [Hd Hc]].
  unfold oneHand in Hc. rewrite theLandmarks_single in Hc.
  exists d. split; [exact Hd|exact Hc].
Defined.

(** ** Invariants of the session *)

Section Invariants.

Lemma opennessOf_range (landmarks : list XY) (f : FingerStates) :
  0 <= opennessOf landmarks f <= 1.
Proof.
  unfold opennessOf, Js.Math_min. split; [|apply Rmin_l].
  apply Rmin_glb; [lra|].
  assert (0 <= Rmin 1 (span landmarks 0 12 * 2)).
  { apply Rmin_glb; [lra|].
    pose proof (hypot_nonneg (x (lm landmarks 0) - x (lm landmarks 12))
                  (y (lm landmarks 0) - y (lm landmarks 12))).
    unfold span. lra. }
  pose proof (pos_INR (extendedCount f)). lra.
Qed.

Lemma pinchConfidenceOf_range (landmarks : list XY) (h : list Entry.t)
    (custom : option R) :
  0 <= pinchConfidenceOf landmarks h custom <= 1.
Proof.
  unfold pinchConfidenceOf, Js.Math_min, Js.Math_max.
  split; [|apply Rmin_l].
  apply Rmin_glb; [lra|].
  pose proof (Rmax_l 0
    (1 - pinchDistanceOf landmarks / (finalThresholdOf landmarks custom * 2))).
  assert (0 <= Rmin 0.3 (INR (length (filter Entry.pinch h)) * 0.1)).
  { apply Rmin_glb; [lra|].
    pose proof (pos_INR (length (filter Entry.pinch h))). lra. }
  destruct (_ && _); lra.
Qed.

Lemma pinchDistanceOf_nonneg (landmarks : list XY) :
  0 <= pinchDistanceOf landmarks.
Proof. apply sqrt_pos. Qed.

Lemma lerp_confidence_range (c g : R) :
  0 <= c <= 1 -> 0.8 <= g <= 0.95 -> 0 <= lerp c g 0.1 <= 1.
Proof. unfold lerp. lra. Qed.

Lemma pushHistory_length (e : Entry.t) (h : list Entry.t) :
  (length h <= GESTURE_HISTORY_LENGTH)%nat ->
  (length (pushHistory e h) <= GESTURE_HISTORY_LENGTH)%nat.
Proof.
  unfold pushHistory, GESTURE_HISTORY_LENGTH. intros H.
  destruct (Nat.ltb_spec 5 (length (h ++ [e]))) as [Hlt|Hge]; [|exact Hge].
  rewrite length_app in Hlt. cbn [length] in Hlt.
  destruct h as [|a h]; cbn [app tl length] in *; [lia|].
  rewrite length_app. cbn [length]. lia.
Qed.

Lemma calibrate_state (w : World) :
  fst (calibrate w) = Normal tt
  /\ state (snd (calibrate w)) = state w
  /\ gestureHistory (snd (calibrate w)) = gestureHistory w
  /\ lastGestureTime (snd (calibrate w)) = lastGestureTime w.
Proof.
  unfold calibrate, bind, get.
  destruct (pinchDetails (state w)) as [d|]; [|now cbn].
  destruct (Js.gtb (PinchDetails.distance d) 0); now cbn.
Qed.

Lemma frameWorld_bounded (landmarks : list XY) (hd : option Handedness)
    (currentTime : R) (w : World) :
  Bounded w -> Bounded (frameWorld landmarks hd currentTime w).
Proof.
  intros [Ho Hg Hp Hh]. split; cbn.
  - apply opennessOf_range.
  - apply lerp_confidence_range; [exact Hg|].
    apply recognize_confidence_range.
  - eexists. split; [reflexivity|]. cbn. split.
    + apply pinchDistanceOf_nonneg.
    + apply pinchConfidenceOf_range.
  - now apply pushHistory_length.
Qed.

Lemma noHandWorld_bounded (w : World) : Bounded w -> Bounded (noHandWorld w).
Proof.
  intros [Ho Hg Hp Hh]. split; cbn; try assumption. lra.
Qed.

Lemma initialWorld_bounded (b : bool) : Bounded (initialWorld b).
Proof.
  split; cbn; try lra.
  - eexists. split; [reflexivity|]. cbn. lra.
  - unfold GESTURE_HISTORY_LENGTH. lia.
Qed.

Lemma step_bounded (w : World) (e : Event) : Bounded w -> Bounded (step w e).
Proof.
  intros H. apply step_cases; intros.
  - now apply noHandWorld_bounded.
  - now apply frameWorld_bounded.
  - destruct (calibrate_state w) as [_ [Hs [Hh _]]].
    destruct H as [Ho Hg Hp Hl]. split; rewrite ?Hs, ?Hh; assumption.
  - exact H.
Qed.

Lemma reachable_bounded (w : World) : reachable w -> Bounded w.
Proof.
  apply reachable_ind.
  - apply initialWorld_bounded.
  - intros w0 e _. apply step_bounded.
Qed.

End Invariants.

(** C7: in every world a session reaches (in particular after each frame
    of every sequence of valid-hand frames) openness, [gestureConfidence]
    and the pinch confidence lie in [0, 1]; [gestureConfidence] starts at 0
    and each valid-hand frame moves it a tenth of the way to a classifier
    value between 0.8 and 0.95. *)
Theorem C7_outputs_clamped :
  forall (hasStatusElement : bool) (events : list Event),
    let w := run events (initialWorld hasStatusElement) in
    0 <= openness (state w) <= 1
    /\ 0 <= gestureConfidence (state w) <= 1
    /\ (exists d : PinchDetails.t,
          pinchDetails (state w) = Some d
          /\ 0 <= PinchDetails.confidence d <= 1)
    /\ gestureConfidence (state (initialWorld hasStatusElement)) = 0
    /\ (forall (results : Results) (currentTime : R),
          validHand results = true ->
          exists c : R,
            0.8 <= c <= 0.95
            /\ gestureConfidence (state (step w (Frame results currentTime)))
               = gestureConfidence (state w)
                 + (c - gestureConfidence (state w)) * 0.1).
Proof.
  intros b events w.
  assert (Hb : Bounded w).
  { apply reachable_bounded. now exists b, events. }
  destruct Hb as [Ho Hg [d [Hd [_ Hc]]] _].
  repeat split; try tauto.
  - exists d. tauto.
  - intros results currentTime Hvalid.
    rewrite frame_gestureConfidence by exact Hvalid.
    eexists. split; [apply recognize_confidence_range|reflexivity].
Qed.

Lemma C7_outputs_clamped_witness :
  let w := run [Frame (oneHand closedHand) 16] (initialWorld true) in
  0 <= openness (state w) <= 1
  /\ 0 <= gestureConfidence (state w) <= 1
  /\ exists c : R,
       0.8 <= c <= 0.95
       /\ gestureConfidence (state (step w (Frame (oneHand allFiveUp) 32)))
          = gestureConfidence (state w)
            + (c - gestureConfidence (state w)) * 0.1.
Proof.
  intros w.
  destruct (C7_outputs_clamped true [Frame (oneHand closedHand) 16])
    as [Ho [Hg [_ [_ Hstep]]]].
  split; [exact Ho|]. split; [exact Hg|].
  apply Hstep. apply validHand_oneHand.
Defined.

(** ** Calibration *)

Section Calibration.

Lemma pinchDistance_pinchAt (d : R) :
  0 <= d -> pinchDistanceOf (pinchAt d) = d.
Proof.
  intros H. unfold pinchDistanceOf, Js.Math_sqrt, pinchAt, hand, lm, origin.
  cbn [nth x y]. apply sqrt_is; [exact H|ring].
Qed.

Lemma calibrate_known (w : World) (d : PinchDetails.t) :
  pinchDetails (state w) = Some d ->
  0 < PinchDetails.distance d ->
  calibrate w
  = (Normal tt,
     set_customPinchThreshold (Some (PinchDetails.distance d * 1.2)) w).
Proof.
  intros Hd Hpos. unfold calibrate, bind, get. rewrite Hd.
  now rewrite (proj2 (gtb_true _ _) Hpos).
Qed.

Lemma calibrate_unknown (w : World) :
  pinchDetails (state w) = None
  \/ (exists d, pinchDetails (state w) = Some d
                /\ PinchDetails.distance d = 0) ->
  calibrate w = (Normal tt, w).
Proof.
  unfold calibrate, bind, get. intros [-> | [d [-> Hz]]]; [reflexivity|].
  rewrite Hz. now rewrite (proj2 (gtb_false 0 0)) by lra.
Qed.

Lemma pinch_under_override (w : World) (results : Results) (currentTime t : R) :
  validHand results = true ->
  customPinchThreshold w = Some t ->
  t <> 0 ->
  pinch (state (step w (Frame results currentTime)))
  = Js.ltb (spec_pinchDistance (theLandmarks results)) t.
Proof.
  intros Hvalid Hc Ht. rewrite frame_pinch by exact Hvalid.
  rewrite Hc, pinchDistanceOf_spec. unfold finalThresholdOf.
  now rewrite or_else_nonzero.
Qed.

End Calibration.

(** C5 fails as stated: the calibrate key reads the pinch distance that
    the output state still holds, not one of the current frame.  After a
    frame at distance 0.03 and then a frame without any hand (or with a
    hand of eight landmarks), the current frame has no pinch distance,
    yet the key sets the override, which was absent, to 0.036. *)
Lemma C5_counterexample :
  let w := run [Frame (oneHand (pinchAt 0.03)) 16] (initialWorld true) in
  let gone := step w (Frame noHands 32) in
  let short := step w (Frame eightPoints 32) in
  multiHandLandmarks noHands = []
  /\ shortHand eightPoints = true
  /\ gestureType (state gone) = none
  /\ customPinchThreshold gone = None
  /\ customPinchThreshold (step gone KeyC) = Some 0.036
  /\ calibrate gone <> (Normal tt, gone)
  /\ customPinchThreshold short = None
  /\ customPinchThreshold (step short KeyC) = Some 0.036
  /\ calibrate short <> (Normal tt, short).
Proof.
  intros w gone short.
  assert (Hw : w = frameWorld (pinchAt 0.03)
                     (Some (mkHandedness 0.9 "Right")) 16 (initialWorld true)).
  { unfold w, run, oneHand, pinchAt. cbn [fold_left].
    rewrite step_single by (cbn; lia). reflexivity. }
  assert (Hgone : gone = noHandWorld w).
  { unfold gone. now rewrite step_empty. }
  assert (Hshort : short = w).
  { unfold short. now rewrite step_short by apply shortHand_eightPoints. }
  assert (Hd : pinchDetails (state w)
               = Some (PinchDetails.mk (pinchDistanceOf (pinchAt 0.03))
                         (finalThresholdOf (pinchAt 0.03) None)
                         (pinchConfidenceOf (pinchAt 0.03) [] None)
                         (Some "Right"%string))).
  { rewrite Hw. reflexivity. }
  assert (H30 : pinchDistanceOf (pinchAt 0.03) = 0.03).
  { apply pinchDistance_pinchAt. lra. }
  assert (Hnone : customPinchThreshold w = None).
  { rewrite Hw. reflexivity. }
  assert (Hkey : forall v : World,
             pinchDetails (state v) = pinchDetails (state w) ->
             customPinchThreshold v = None ->
             customPinchThreshold (step v KeyC) = Some 0.036
             /\ calibrate v <> (Normal tt, v)).
  { intros v Hv Hc.
    assert (Hcal : calibrate v
                   = (Normal tt, set_customPinchThreshold (Some 0.036) v)).
    { rewrite (calibrate_known v _ (eq_trans Hv Hd))
        by (cbn [PinchDetails.distance]; lra).
      cbn [PinchDetails.distance]. rewrite H30.
      do 3 f_equal. lra. }
    split.
    - unfold step, handler. rewrite Hcal. reflexivity.
    - rewrite Hcal. intros Heq.
      apply (f_equal (fun p => customPinchThreshold (snd p))) in Heq.
      cbn in Heq. rewrite Hc in Heq. discriminate. }
  split; [reflexivity|].
  split; [apply shortHand_eightPoints|].
  split; [rewrite Hgone; reflexivity|].
  split; [rewrite Hgone; exact Hnone|].
  destruct (Hkey gone) as [Hg1 Hg2];
    [rewrite Hgone; reflexivity | rewrite Hgone; exact Hnone |].
  destruct (Hkey short) as [Hs1 Hs2];
    [rewrite Hshort; reflexivity | rewrite Hshort; exact Hnone |].
  rewrite Hshort in *.
  repeat split; assumption.
Qed.

(** C5 (as amended): the calibrate key works on the pinch distance stored
    in the output state.  A valid-hand frame stores its thumb to index
    distance; a frame with an empty hand list or a short hand leaves the
    stored distance in place, so the key does after such a frame what it
    would have done before it.  With a stored, nonzero distance the key
    sets the override to that distance times 1.2 (0.036 for a distance of
    0.03, and a later frame whose thumb to index distance is 0.034 then
    reports a pinch); with no distance stored, or a stored distance of 0,
    it changes nothing. *)
Theorem C5_calibrate_from_stored_distance :
  forall w : World,
    reachable w ->
    (forall d : PinchDetails.t,
        pinchDetails (state w) = Some d ->
        PinchDetails.distance d <> 0 ->
        calibrate w
        = (Normal tt,
           set_customPinchThreshold (Some (PinchDetails.distance d * 1.2)) w))
    /\ (forall d : PinchDetails.t,
          pinchDetails (state w) = Some d ->
          PinchDetails.distance d = 0.03 ->
          customPinchThreshold (step w KeyC) = Some 0.036
          /\ forall (results : Results) (currentTime : R),
               validHand results = true ->
               spec_pinchDistance (theLandmarks results) = 0.034 ->
               pinch (state (step (step w KeyC) (Frame results currentTime)))
               = true)
    /\ (pinchDetails (state w) = None
        \/ (exists d : PinchDetails.t,
              pinchDetails (state w) = Some d
              /\ PinchDetails.distance d = 0) ->
        calibrate w = (Normal tt, w))
    /\ (forall (results : Results) (currentTime : R),
          validHand results = true ->
          exists d : PinchDetails.t,
            pinchDetails (state (step w (Frame results currentTime))) = Some d
            /\ PinchDetails.distance d
               = spec_pinchDistance (theLandmarks results))
    /\ (forall (results : Results) (currentTime : R),
          validHand results = false ->
          let w' := step w (Frame results currentTime) in
          pinchDetails (state w') = pinchDetails (state w)
          /\ customPinchThreshold w' = customPinchThreshold w
          /\ customPinchThreshold (step w' KeyC)
             = customPinchThreshold (step w KeyC)).
Proof.
  intros w Hreach.
  destruct (reachable_bounded w Hreach) as [_ _ [d0 [Hd0 [Hpos _]]] _].
  split; [|split; [|split; [|split]]].
  - intros d Hd Hnz. apply calibrate_known; [exact Hd|].
    rewrite Hd0 in Hd. injection Hd as <-. lra.
  - intros d Hd H30.
    assert (Hc : customPinchThreshold (step w KeyC) = Some 0.036).
    { unfold step, handler. rewrite (calibrate_known w d Hd) by lra.
      cbn. rewrite H30. f_equal. lra. }
    split; [exact Hc|].
    intros results currentTime Hvalid H34.
    rewrite (pinch_under_override _ _ _ 0.036 Hvalid Hc) by lra.
    rewrite H34. apply ltb_true. lra.
  - apply calibrate_unknown.
  - intros results currentTime Hvalid. eexists. split.
    + apply frame_pinchDetails. exact Hvalid.
    + cbn [PinchDetails.distance]. apply pinchDistanceOf_spec.
  - intros results currentTime Hinvalid w'.
    assert (Hw' : w' = noHandWorld w \/ w' = w).
    { unfold w'.
      destruct (frame_kinds results) as [Hempty | [Hshort | Hvalid]].
      - left. now apply step_empty.
      - right. now apply step_short.
      - rewrite Hvalid in Hinvalid. discriminate. }
    assert (Hp : pinchDetails (state w') = pinchDetails (state w)).
    { destruct Hw' as [-> | ->]; reflexivity. }
    assert (Hc : customPinchThreshold w' = customPinchThreshold w).
    { destruct Hw' as [-> | ->]; reflexivity. }
    split; [exact Hp|]. split; [exact Hc|].
    unfold step, handler, calibrate, bind, get, modify. rewrite Hp.
    destruct (pinchDetails (state w)) as [d|]; [|exact Hc].
    destruct (Js.gtb (PinchDetails.distance d) 0); [reflexivity|exact Hc].
Qed.

Lemma C5_calibrate_stored_witness :
  let w := run [Frame (oneHand (pinchAt 0.03)) 16] (initialWorld true) in
  let gone := step w (Frame noHands 32) in
  customPinchThreshold (step w KeyC) = Some 0.036
  /\ pinch (state (step (step w KeyC) (Frame (oneHand (pinchAt 0.034)) 32)))
     = true
  /\ calibrate (initialWorld true) = (Normal tt, initialWorld true)
  /\ (exists d : PinchDetails.t,
        pinchDetails (state w) = Some d /\ PinchDetails.distance d = 0.03)
  /\ pinchDetails (state gone) = pinchDetails (state w)
  /\ customPinchThreshold (step gone KeyC) = Some 0.036.
Proof.
  intros w gone.
  assert (Hreach : reachable w) by (apply reachable_run, reachable_initial).
  assert (Hw : w = step (initialWorld true)
                     (Frame (oneHand (pinchAt 0.03)) 16)) by reflexivity.
  assert (Hvalid : validHand (oneHand (pinchAt 0.03)) = true)
    by apply validHand_oneHand.
  assert (Hspec : forall a : R, 0 <= a ->
             spec_pinchDistance (theLandmarks (oneHand (pinchAt a))) = a).
  { intros a Ha. unfold oneHand. rewrite theLandmarks_single.
    rewrite <- pinchDistanceOf_spec. now apply pinchDistance_pinchAt. }
  destruct (C5_calibrate_from_stored_distance (initialWorld true)
              (reachable_initial true))
    as [_ [_ [Hnone [Hstore _]]]].
  destruct (Hstore (oneHand (pinchAt 0.03)) 16 Hvalid) as [d [Hd Hdist]].
  rewrite <- Hw in Hd. rewrite Hspec in Hdist by lra.
  destruct (C5_calibrate_from_stored_distance w Hreach)
    as [_ [H30 [_ [_ Hkeep]]]].
  destruct (H30 d Hd Hdist) as [Hc Hp].
  destruct (Hkeep noHands 32 eq_refl) as [Hsame [_ Hkey]].
  split; [exact Hc|]. split.
  { apply Hp; [apply validHand_oneHand|]. apply Hspec. lra. }
  split.
  { apply Hnone. right. eexists. split; reflexivity. }
  split; [exists d; split; assumption|].
  split; [exact Hsame|].
  fold gone in Hkey. rewrite Hkey. exact Hc.
Defined.

(** ** Gesture history *)

Section History.

Lemma frame_history (results : Results) (currentTime : R) (w : World) :
  validHand results = true ->
  gestureHistory (step w (Frame results currentTime))
  = pushHistory
      (summaryOf (state (step w (Frame results currentTime))) currentTime)
      (gestureHistory w).
Proof. intros H. now rewrite step_valid. Qed.

(** Six pushes into a history of at most five entries leave the last
    five. *)
Lemma pushHistory_six (e1 e2 e3 e4 e5 e6 : Entry.t) (h : list Entry.t) :
  (length h <= GESTURE_HISTORY_LENGTH)%nat ->
  pushHistory e6 (pushHistory e5 (pushHistory e4
    (pushHistory e3 (pushHistory e2 (pushHistory e1 h)))))
  = [e2; e3; e4; e5; e6].
Proof.
  unfold GESTURE_HISTORY_LENGTH.
  destruct h as [|a [|b [|c [|d [|e [|f h]]]]]]; cbn [length]; intros H;
    try reflexivity.
  lia.
Qed.

Lemma empty_not_valid (results : Results) :
  multiHandLandmarks results = [] -> validHand results = false.
Proof. intros H. unfold validHand. now rewrite H. Qed.

Lemma short_not_valid (results : Results) :
  shortHand results = true -> validHand results = false.
Proof.
  unfold shortHand, validHand. intros H.
  apply andb_prop in H. destruct H as [-> H]. cbn [andb].
  destruct (selectedLandmarks results) as [landmarks|]; [|reflexivity].
  apply Nat.ltb_lt in H. apply Nat.leb_gt. exact H.
Qed.

End History.

(** C8: the history never holds more than five entries; six consecutive
    valid-hand frames leave exactly the summaries of the last five of
    them, oldest first; and a frame with no hand, or with a selected hand
    of fewer than 21 landmarks, appends nothing. *)
Theorem C8_history_is_a_bounded_fifo :
  forall w : World,
    reachable w ->
    (length (gestureHistory w) <= 5)%nat
    /\ (forall (r1 r2 r3 r4 r5 r6 : Results) (t1 t2 t3 t4 t5 t6 : R),
          validHand r1 = true -> validHand r2 = true ->
          validHand r3 = true -> validHand r4 = true ->
          validHand r5 = true -> validHand r6 = true ->
          let w1 := step w (Frame r1 t1) in
          let w2 := step w1 (Frame r2 t2) in
          let w3 := step w2 (Frame r3 t3) in
          let w4 := step w3 (Frame r4 t4) in
          let w5 := step w4 (Frame r5 t5) in
          let w6 := step w5 (Frame r6 t6) in
          gestureHistory w6
          = [ summaryOf (state w2) t2; summaryOf (state w3) t3;
              summaryOf (state w4) t4; summaryOf (state w5) t5;
              summaryOf (state w6) t6 ]
          /\ length (gestureHistory w6) = 5%nat)
    /\ (forall (results : Results) (currentTime : R),
          multiHandLandmarks results = []
          \/ (exists landmarks : list XY,
                selectedLandmarks results = Some landmarks
                /\ (length landmarks < 21)%nat) ->
          gestureHistory (step w (Frame results currentTime))
          = gestureHistory w).
Proof.
  intros w Hreach.
  pose proof (bounded_history w (reachable_bounded w Hreach)) as Hlen.
  split; [exact Hlen|]. split.
  - intros r1 r2 r3 r4 r5 r6 t1 t2 t3 t4 t5 t6 H1 H2 H3 H4 H5 H6
      w1 w2 w3 w4 w5 w6.
    assert (E : gestureHistory w6
                = [ summaryOf (state w2) t2; summaryOf (state w3) t3;
                    summaryOf (state w4) t4; summaryOf (state w5) t5;
                    summaryOf (state w6) t6 ]).
    { unfold w6. rewrite frame_history by exact H6. fold w6.
      unfold w5. rewrite frame_history by exact H5. fold w5.
      unfold w4. rewrite frame_history by exact H4. fold w4.
      unfold w3. rewrite frame_history by exact H3. fold w3.
      unfold w2. rewrite frame_history by exact H2. fold w2.
      unfold w1. rewrite frame_history by exact H1. fold w1.
      now apply pushHistory_six. }
    split; [exact E|]. now rewrite E.
  - intros results currentTime [Hempty | [landmarks [Hsel Hshort]]].
    + now rewrite step_empty.
    + rewrite step_short; [reflexivity|].
      eapply selected_short; eassumption.
Qed.

Lemma C8_history_witness :
  let w := initialWorld true in
  let w1 := step w (Frame (oneHand closedHand) 16) in
  let w2 := step w1 (Frame (oneHand allFiveUp) 32) in
  let w3 := step w2 (Frame (oneHand closedHand) 48) in
  let w4 := step w3 (Frame (oneHand allFiveUp) 64) in
  let w5 := step w4 (Frame (oneHand closedHand) 80) in
  let w6 := step w5 (Frame (oneHand allFiveUp) 96) in
  gestureHistory w6
  = [ summaryOf (state w2) 32; summaryOf (state w3) 48;
      summaryOf (state w4) 64; summaryOf (state w5) 80;
      summaryOf (state w6) 96 ]
  /\ gestureHistory (step w6 (Frame noHands 112)) = gestureHistory w6
  /\ gestureHistory (step w6 (Frame eightPoints 112)) = gestureHistory w6.
Proof.
  intros w w1 w2 w3 w4 w5 w6.
  destruct (C8_history_is_a_bounded_fifo w (reachable_initial true))
    as [_ [Hsix _]].
  destruct (Hsix (oneHand closedHand) (oneHand allFiveUp)
              (oneHand closedHand) (oneHand allFiveUp)
              (oneHand closedHand) (oneHand allFiveUp)
              16 32 48 64 80 96
              (validHand_oneHand _ _ _ _ _) (validHand_oneHand _ _ _ _ _)
              (validHand_oneHand _ _ _ _ _) (validHand_oneHand _ _ _ _ _)
              (validHand_oneHand _ _ _ _ _) (validHand_oneHand _ _ _ _ _))
    as [E _].
  split; [exact E|].
  assert (Hreach : reachable w6).
  { repeat apply reachable_step. apply reachable_initial. }
  destruct (C8_history_is_a_bounded_fifo w6 Hreach) as [_ [_ Hnone]].
  split; apply Hnone.
  - left. reflexivity.
  - right. exists (repeat origin 8). split.
    + unfold eightPoints. apply selected_single.
    + cbn. lia.
Defined.

(** ** Velocity *)

Section Velocity.

Lemma lastGestureTime_run (b : bool) (events : list Event) :
  lastGestureTime (run events (initialWorld b)) = lastProcessedTime events.
Proof.
  induction events as [|e events IH] using rev_ind; [reflexivity|].
  rewrite run_snoc. unfold lastProcessedTime. rewrite fold_left_app.
  fold (lastProcessedTime events). cbn [fold_left].
  destruct e as [results currentTime|].
  - destruct (frame_kinds results) as [H|[H|H]].
    + rewrite step_empty, empty_not_valid by exact H. exact IH.
    + rewrite step_short, short_not_valid by exact H. exact IH.
    + rewrite step_valid, H by exact H. reflexivity.
  - unfold step, handler.
    destruct (calibrate_state (run events (initialWorld b)))
      as [_ [_ [_ ->]]].
    exact IH.
Qed.

Lemma max_elapsed (dt : R) : Js.Math_max 1 dt = spec_elapsed dt.
Proof.
  unfold Js.Math_max, spec_elapsed, Rmax.
  destruct (Rle_dec 1 dt), (Rlt_dec dt 1); lra.
Qed.

Lemma spec_elapsed_floor (dt : R) : 1 <= spec_elapsed dt.
Proof. unfold spec_elapsed. destruct (Rlt_dec dt 1); lra. Qed.

Lemma frame_handVelocity (results : Results) (currentTime : R) (w : World) :
  validHand results = true ->
  handVelocity (state (step w (Frame results currentTime)))
  = velocityOf (position (state (step w (Frame results currentTime))))
      (position (state w))
      (spec_elapsed (currentTime - lastGestureTime w)).
Proof.
  intros H. rewrite step_valid by exact H.
  cbn [frameWorld state frameState handVelocity position].
  now rewrite max_elapsed.
Qed.

Lemma frame_position (results : Results) (currentTime : R) (w : World) :
  validHand results = true ->
  position (state (step w (Frame results currentTime)))
  = smoothedPosition (theLandmarks results) (position (state w)).
Proof. intros H. now rewrite step_valid. Qed.

End Velocity.

(** C9: on a valid-hand frame the velocity is the change of the smoothed
    position divided by the time since the last valid-hand frame (since
    time 0 before the first one), with a floor of 1 ms on the divisor, times
    1000; 16 ms apart with the smoothed position going from (0, 0) to
    (0.08, 0) the x component is 5; an elapsed time of 0 divides by 1. *)
Theorem C9_velocity :
  forall (hasStatusElement : bool) (events : list Event)
         (results : Results) (currentTime : R),
    validHand results = true ->
    let w := run events (initialWorld hasStatusElement) in
    let w' := step w (Frame results currentTime) in
    let dt := currentTime - lastProcessedTime events in
    1 <= spec_elapsed dt
    /\ x (handVelocity (state w'))
       = (x (position (state w')) - x (position (state w)))
         / spec_elapsed dt * 1000
    /\ y (handVelocity (state w'))
       = (y (position (state w')) - y (position (state w)))
         / spec_elapsed dt * 1000
    /\ (dt = 16 ->
        position (state w) = mkXY 0 0 ->
        position (state w') = mkXY 0.08 0 ->
        x (handVelocity (state w')) = 5)
    /\ (dt = 0 ->
        x (handVelocity (state w'))
        = (x (position (state w')) - x (position (state w))) / 1 * 1000
        /\ y (handVelocity (state w'))
           = (y (position (state w')) - y (position (state w))) / 1 * 1000).
Proof.
  intros b events results currentTime Hvalid w w' dt.
  assert (Hv : handVelocity (state w')
               = velocityOf (position (state w')) (position (state w))
                   (spec_elapsed dt)).
  { unfold w', dt. rewrite frame_handVelocity by exact Hvalid.
    unfold w. now rewrite lastGestureTime_run. }
  rewrite Hv. cbn [velocityOf x y].
  split; [apply spec_elapsed_floor|].
  split; [reflexivity|]. split; [reflexivity|]. split.
  - intros Hdt Hp Hp'. rewrite Hp, Hp', Hdt. cbn [x].
    unfold spec_elapsed. destruct (Rlt_dec 16 1); lra.
  - intros Hdt. rewrite Hdt. unfold spec_elapsed.
    destruct (Rlt_dec 0 1); [split; reflexivity|lra].
Qed.

Lemma C9_velocity_witness :
  let results := mkResults [Some (wristAt (mkXY 0.55 0.5))]
                   [mkHandedness 0.9 "Right"] in
  x (handVelocity (state (step (initialWorld true) (Frame results 16)))) = 5.
Proof.
  intros results.
  assert (Hvalid : validHand results = true)
    by (apply validHand_single; cbn; lia).
  destruct (C9_velocity true [] results 16 Hvalid) as [_ [_ [_ [H _]]]].
  apply H.
  - cbn. lra.
  - reflexivity.
  - cbn [run fold_left]. rewrite frame_position by exact Hvalid.
    unfold results. rewrite theLandmarks_single.
    unfold smoothedPosition, lerp, gestureSmoothing, wristAt, lm.
    cbn [nth repeat x y initialWorld state position initialState].
    f_equal; lra.
Defined.

(** * Further properties of the gesture code *)

(** ** Hand selection *)

Section HandSelection.

Variable results : Results.

Lemma bestHandStep_selected (k : nat) (best : nat * R) :
  selectedAmong results k best ->
  selectedAmong results (S k) (bestHandStep results best k).
Proof.
  intros [Hpos [Hle [Hmax Hzero]]]. unfold bestHandStep.
  destruct (Js.gtb (handConfidenceAt results k) (snd best)) eqn:G.
  - apply gtb_true in G. unfold selectedAmong. cbn [fst snd].
    split; [lra|]. split; [|split].
    + intros i Hi. destruct (Nat.eq_dec i k) as [->|Hne]; [lra|].
      assert (Hik : (i < k)%nat) by lia. specialize (Hle i Hik). lra.
    + intros _. split; [lia|]. split; [reflexivity|].
      intros j Hj. specialize (Hle j Hj). lra.
    + intros H. lra.
  - apply gtb_false in G. unfold selectedAmong.
    split; [exact Hpos|]. split; [|split].
    + intros i Hi. destruct (Nat.eq_dec i k) as [->|Hne]; [exact G|].
      apply Hle. lia.
    + intros H. destruct (Hmax H) as [Hlt [He Hfirst]].
      split; [lia|]. split; assumption.
    + exact Hzero.
Qed.

Lemma bestHandLoop_selected (k : nat) :
  selectedAmong results k
    (fold_left (bestHandStep results) (seq 0 k) (0%nat, 0)).
Proof.
  induction k as [|k IH].
  - unfold selectedAmong. cbn. split; [lra|]. split; [|split].
    + intros i Hi. lia.
    + intros H. lra.
    + reflexivity.
  - rewrite seq_S, fold_left_app. cbn [fold_left Nat.add].
    now apply bestHandStep_selected.
Qed.

End HandSelection.

(** X1: the selection loop returns an index inside the hand list; no hand
    has a higher confidence than the one it reports; and when that
    confidence is positive the selected hand has it and every earlier hand
    has strictly less (ties go to the first hand). *)
Theorem X1_best_hand_is_first_maximum :
  forall results : Results,
    let n := length (multiHandLandmarks results) in
    let bestHandIndex := fst (bestHand results) in
    let bestHandConfidence := snd (bestHand results) in
    ((0 < n)%nat -> (bestHandIndex < n)%nat)
    /\ (forall i, (i < n)%nat ->
                  handConfidenceAt results i <= bestHandConfidence)
    /\ (0 < bestHandConfidence ->
        handConfidenceAt results bestHandIndex = bestHandConfidence
        /\ forall j, (j < bestHandIndex)%nat ->
                     handConfidenceAt results j
                     < handConfidenceAt results bestHandIndex).
Proof.
  intros results n bestHandIndex bestHandConfidence.
  subst n bestHandIndex bestHandConfidence. unfold bestHand.
  destruct (bestHandLoop_selected results
              (length (multiHandLandmarks results)))
    as [Hpos [Hle [Hmax Hzero]]].
  split; [|split].
  - intros Hn. destruct Hpos as [Hp|Hp].
    + now destruct (Hmax Hp) as [H _].
    + rewrite Hzero by (symmetry; exact Hp). exact Hn.
  - exact Hle.
  - intros H. destruct (Hmax H) as [_ [He Hfirst]].
    split; [exact He|].
    intros j Hj. rewrite He. now apply Hfirst.
Qed.

Lemma X1_best_hand_witness :
  (fst (bestHand (oneHand closedHand)) < 1)%nat
  /\ handConfidenceAt (oneHand closedHand) 0
     <= snd (bestHand (oneHand closedHand)).
Proof.
  destruct (X1_best_hand_is_first_maximum (oneHand closedHand))
    as [Hin [Hmax _]].
  split.
  - apply Hin. cbn. lia.
  - apply Hmax. cbn. lia.
Defined.

(** ** The classification table *)

(** X2: the classifier answers [fist] exactly when no digit is extended,
    [pointing] exactly when only the index is, [three] exactly when the
    index, middle and ring digits and no other are; each of these has its
    own base confidence; [open_hand] has 0.85 with all five digits
    extended and 0.8 otherwise; and a valid-hand frame never leaves
    [gestureType] at [none]. *)
Theorem X2_classification_table :
  forall (landmarks : list XY) (f : FingerStates),
    let g := recognizeAdvancedGestures landmarks f in
    (GestureData.type g = fist
     <-> f = mkFingerStates false false false false false)
    /\ (GestureData.type g = pointing
        <-> f = mkFingerStates false true false false false)
    /\ (GestureData.type g = three
        <-> f = mkFingerStates false true true true false)
    /\ (GestureData.type g = fist -> GestureData.confidence g = 0.9)
    /\ (GestureData.type g = pointing -> GestureData.confidence g = 0.95)
    /\ (GestureData.type g = three -> GestureData.confidence g = 0.85)
    /\ (GestureData.type g = open_hand ->
        GestureData.confidence g
        = if Nat.eqb (spec_extended f) 5 then 0.85 else 0.8)
    /\ GestureData.type g <> none
    /\ (forall (results : Results) (currentTime : R) (w : World),
          validHand results = true ->
          gestureType (state (step w (Frame results currentTime))) <> none).
Proof.
  intros landmarks f g.
  assert (Hnone : forall l f0,
             GestureData.type (recognizeAdvancedGestures l f0) <> none).
  { intros l [[] [] [] [] []]; cbn; discriminate. }
  repeat match goal with |- _ /\ _ => split end;
    try (subst g; destruct f as [[] [] [] [] []]; cbn;
         solve [ split; intros H; solve [reflexivity | discriminate H]
               | intros H; solve [reflexivity | discriminate H]
               | discriminate ]).
  intros results currentTime w Hvalid.
  rewrite frame_gestureType by exact Hvalid. apply Hnone.
Qed.

Lemma X2_classification_witness :
  gestureType
    (state (step (initialWorld true) (Frame (oneHand closedHand) 16)))
  <> none.
Proof.
  destruct (X2_classification_table closedHand
              (mkFingerStates false false false false false))
    as [_ [_ [_ [_ [_ [_ [_ [_ H]]]]]]]].
  apply H. apply validHand_oneHand.
Defined.

(** ** Confidence smoothing over several frames *)

Section Smoothing.

Lemma frame_gestureConfidence_base (results : Results) (currentTime : R)
    (w : World) :
  validHand results = true ->
  gestureConfidence (state (step w (Frame results currentTime)))
  = lerp (gestureConfidence (state w)) (baseConfidence results) 0.1.
Proof. intros H. now rewrite step_valid. Qed.

Lemma run_cons (e : Event) (events : list Event) (w : World) :
  run (e :: events) w = run events (step w e).
Proof. reflexivity. Qed.

End Smoothing.

(** X3: over consecutive valid-hand frames that the classifier gives the
    same base confidence c, the smoothed confidence closes nine tenths of
    its remaining gap to c at each frame: after n frames it is
    c + (start - c) * 0.9 ^ n. *)
Theorem X3_confidence_after_n_frames :
  forall (c : R) (fs : list (Results * R)) (w : World),
    Forall (fun f => validHand (fst f) = true /\ baseConfidence (fst f) = c)
      fs ->
    gestureConfidence (state (run (framesOf fs) w))
    = c + (gestureConfidence (state w) - c) * 0.9 ^ length fs.
Proof.
  intros c fs. induction fs as [|[results currentTime] fs IH]; intros w Hall.
  - cbn. lra.
  - apply Forall_cons_iff in Hall. destruct Hall as [[Hvalid Hc] Hrest].
    cbn [fst] in Hvalid, Hc.
    cbn [framesOf map fst snd]. rewrite run_cons.
    fold (framesOf fs). rewrite IH by exact Hrest.
    rewrite frame_gestureConfidence_base by exact Hvalid.
    rewrite Hc. unfold lerp. cbn [length pow].
    generalize (0.9 ^ length fs) (gestureConfidence (state w)).
    intros p g0. nra.
Qed.

Lemma X3_three_fist_frames :
  gestureConfidence
    (state (run (framesOf [ (oneHand closedHand, 16);
                            (oneHand closedHand, 32);
                            (oneHand closedHand, 48) ])
              (initialWorld true)))
  = 0.2439.
Proof.
  assert (Hc : baseConfidence (oneHand closedHand) = 0.9).
  { unfold baseConfidence, oneHand. rewrite theLandmarks_single.
    now rewrite fingersOf_closedHand. }
  rewrite (X3_confidence_after_n_frames 0.9).
  - cbn. lra.
  - repeat constructor; try apply validHand_oneHand; exact Hc.
Defined.

(** ** Where the helpers throw *)

Section HelperLimits.

Lemma nth_error_short (landmarks : list XY) (i : nat) :
  (length landmarks <= i)%nat -> nth_error landmarks i = None.
Proof. apply nth_error_None. Qed.

Lemma nth_error_long (landmarks : list XY) (i : nat) :
  (i < length landmarks)%nat ->
  nth_error landmarks i = Some (lm landmarks i).
Proof. intros H. unfold lm. now apply nth_error_nth'. Qed.

Lemma updateFingerStates_short (landmarks : list XY) (f : FingerStates) :
  (length landmarks < 21)%nat ->
  fst (updateFingerStates landmarks f) = Throw.
Proof.
  intros H.
  do 21 (destruct landmarks as [|? landmarks]; [reflexivity|]).
  cbn [length] in H. lia.
Qed.

Lemma calculateHandOpenness_short {S : Type} (landmarks : list XY)
    (f : FingerStates) (s : S) :
  (length landmarks < 13)%nat ->
  calculateHandOpenness landmarks f s = (Throw, s).
Proof.
  intros H.
  do 13 (destruct landmarks as [|? landmarks]; [reflexivity|]).
  cbn [length] in H. lia.
Qed.

Lemma calculateHandOpenness_long {S : Type} (landmarks : list XY)
    (f : FingerStates) (s : S) :
  (13 <= length landmarks)%nat ->
  calculateHandOpenness landmarks f s = (Normal (opennessOf landmarks f), s).
Proof.
  intros H. unfold calculateHandOpenness.
  rewrite !nth_error_long by lia. reflexivity.
Qed.

Lemma detectEnhancedPinch_fallback {S : Type} (landmarks : list XY)
    (h : list Entry.t) (custom : option R) (s : S) :
  (length landmarks < 9)%nat ->
  detectEnhancedPinch landmarks h custom s = (Normal pinchFallback, s).
Proof.
  intros H.
  do 9 (destruct landmarks as [|? landmarks]; [reflexivity|]).
  cbn [length] in H. lia.
Qed.

Lemma detectEnhancedPinch_throws {S : Type} (landmarks : list XY)
    (h : list Entry.t) (custom : option R) (s : S) :
  (9 <= length landmarks < 18)%nat ->
  detectEnhancedPinch landmarks h custom s = (Throw, s).
Proof.
  intros [Hlo Hhi]. unfold detectEnhancedPinch.
  rewrite (nth_error_long landmarks 4), (nth_error_long landmarks 8),
    (nth_error_long landmarks 5) by lia.
  rewrite (nth_error_short landmarks 17) by lia. reflexivity.
Qed.

Lemma detectEnhancedPinch_long {S : Type} (landmarks : list XY)
    (h : list Entry.t) (custom : option R) (s : S) :
  (18 <= length landmarks)%nat ->
  detectEnhancedPinch landmarks h custom s
  = (Normal (pinchOf landmarks h custom), s).
Proof.
  intros H. unfold detectEnhancedPinch.
  rewrite !nth_error_long by lia. reflexivity.
Qed.

End HelperLimits.

(** X4: [updateFingerStates] returns normally exactly on 21 landmarks or
    more and [calculateHandOpenness] exactly on 13 or more;
    [detectEnhancedPinch] answers its not-pinching fallback below 9
    landmarks, throws from 9 to 17, and computes from 18 on. So the three
    helpers all return normally exactly when the guard of the callback,
    21 landmarks, is met. *)
Theorem X4_helpers_need_21_landmarks :
  forall (landmarks : list XY) (f : FingerStates) (h : list Entry.t)
         (custom : option R),
    (fst (updateFingerStates landmarks f) = Normal tt
     <-> (21 <= length landmarks)%nat)
    /\ (fst (calculateHandOpenness landmarks f tt) <> Throw
        <-> (13 <= length landmarks)%nat)
    /\ ((length landmarks < 9)%nat ->
        detectEnhancedPinch landmarks h custom tt
        = (Normal pinchFallback, tt))
    /\ (fst (detectEnhancedPinch landmarks h custom tt) = Throw
        <-> (9 <= length landmarks < 18)%nat)
    /\ ((fst (updateFingerStates landmarks f) <> Throw
         /\ fst (calculateHandOpenness landmarks f tt) <> Throw
         /\ fst (detectEnhancedPinch landmarks h custom tt) <> Throw)
        <-> (21 <= length landmarks)%nat).
Proof.
  intros landmarks f h custom.
  assert (Hu : fst (updateFingerStates landmarks f) = Normal tt
               <-> (21 <= length landmarks)%nat).
  { split.
    - intros H. destruct (Nat.lt_ge_cases (length landmarks) 21) as [Hs|Hl];
        [|exact Hl].
      rewrite updateFingerStates_short in H by exact Hs. discriminate.
    - intros H. now rewrite updateFingerStates_valid. }
  assert (Ho : fst (calculateHandOpenness landmarks f tt) <> Throw
               <-> (13 <= length landmarks)%nat).
  { split.
    - intros H. destruct (Nat.lt_ge_cases (length landmarks) 13) as [Hs|Hl];
        [|exact Hl].
      rewrite calculateHandOpenness_short in H by exact Hs. now elim H.
    - intros H. rewrite calculateHandOpenness_long by exact H. discriminate. }
  assert (Hp : fst (detectEnhancedPinch landmarks h custom tt) = Throw
               <-> (9 <= length landmarks < 18)%nat).
  { split.
    - intros H. destruct (Nat.lt_ge_cases (length landmarks) 9) as [Hs|Hl].
      + rewrite detectEnhancedPinch_fallback in H by exact Hs. discriminate.
      + destruct (Nat.lt_ge_cases (length landmarks) 18) as [Hs|Hl'];
          [lia|].
        rewrite detectEnhancedPinch_long in H by exact Hl'. discriminate.
    - intros H. now rewrite detectEnhancedPinch_throws. }
  split; [exact Hu|]. split; [exact Ho|].
  split; [apply detectEnhancedPinch_fallback|]. split; [exact Hp|].
  split.
  - intros [H _]. apply Hu.
    destruct (updateFingerStates landmarks f) as [[[]|] ?]; cbn in *;
      [reflexivity|now elim H].
  - intros H. split; [|split].
    + rewrite updateFingerStates_valid by exact H. discriminate.
    + apply Ho. lia.
    + intros Hthrow. apply Hp in Hthrow. lia.
Qed.

Lemma X4_helpers_witness :
  detectEnhancedPinch (repeat origin 8) [] None tt
  = (Normal pinchFallback, tt)
  /\ fst (updateFingerStates closedHand
            (mkFingerStates false false false false false))
     = Normal tt.
Proof.
  destruct (X4_helpers_need_21_landmarks (repeat origin 8)
              (mkFingerStates false false false false false) [] None)
    as [_ [_ [Hfallback _]]].
  destruct (X4_helpers_need_21_landmarks closedHand
              (mkFingerStates false false false false false) [] None)
    as [Hupdate _].
  split.
  - apply Hfallback. cbn. lia.
  - apply Hupdate. cbn. lia.
Defined.

(** ** Completion of the callback *)

Section CallbackCompletion.

Lemma recognize_never_none (landmarks : list XY) (f : FingerStates) :
  GestureData.type (recognizeAdvancedGestures landmarks f) <> none.
Proof. destruct f as [[] [] [] [] []]; cbn; discriminate. Qed.

Lemma bestHand_in_range (results : Results) :
  (0 < length (multiHandLandmarks results))%nat ->
  (fst (bestHand results) < length (multiHandLandmarks results))%nat.
Proof.
  intros Hn. unfold bestHand.
  destruct (bestHandLoop_selected results
              (length (multiHandLandmarks results)))
    as [[Hp|Hp] [_ [Hmax Hzero]]].
  - now destruct (Hmax Hp) as [H _].
  - rewrite Hzero by (symmetry; exact Hp). exact Hn.
Qed.

Lemma frameCompletion_throw (hd : option Handedness) (w : World) :
  frameCompletion hd w = Throw <-> statusElement w = true /\ hd = None.
Proof.
  unfold frameCompletion.
  destruct (statusElement w), hd; split; intros H;
    try discriminate H; try (destruct H; discriminate); auto.
Qed.

Lemma onResults_throw (results : Results) (currentTime : R) (w : World) :
  fst (onResults results currentTime w) = Throw
  <-> validHand results = true
      /\ statusElement w = true
      /\ selectedHandedness results = None.
Proof.
  destruct (frame_kinds results) as [H|[H|H]].
  - rewrite onResults_empty by exact H. rewrite empty_not_valid by exact H.
    split; [discriminate|]. intros [Hv _]. discriminate.
  - rewrite onResults_short by exact H. rewrite short_not_valid by exact H.
    split; [discriminate|]. intros [Hv _]. discriminate.
  - rewrite onResults_valid by exact H. cbn [fst].
    rewrite frameCompletion_throw. tauto.
Qed.

End CallbackCompletion.

(** X5: the callback throws exactly on a valid-hand frame that has no
    handedness record for the selected hand while the status element
    exists; it never throws when every hand comes with its handedness
    record; and when it throws it has already done all of the frame's work:
    the summary is in the history, [lastGestureTime] is the frame's time
    and the gesture is classified. *)
Theorem X5_callback_throws_only_without_handedness :
  forall (results : Results) (currentTime : R) (w : World),
    (fst (onResults results currentTime w) = Throw
     <-> validHand results = true
         /\ statusElement w = true
         /\ selectedHandedness results = None)
    /\ (length (multiHandedness results)
        = length (multiHandLandmarks results) ->
        fst (onResults results currentTime w) = Normal tt)
    /\ (fst (onResults results currentTime w) = Throw ->
        let w' := snd (onResults results currentTime w) in
        gestureHistory w'
        = pushHistory (summaryOf (state w') currentTime) (gestureHistory w)
        /\ lastGestureTime w' = currentTime
        /\ gestureType (state w') <> none).
Proof.
  intros results currentTime w.
  split; [apply onResults_throw|]. split.
  - intros Hlen.
    destruct (fst (onResults results currentTime w)) as [[]|] eqn:E;
      [reflexivity|].
    apply onResults_throw in E. destruct E as [Hv [_ Hnone]].
    unfold selectedHandedness in Hnone. apply nth_error_None in Hnone.
    assert (Hn : (0 < length (multiHandLandmarks results))%nat).
    { destruct (multiHandLandmarks results) eqn:El; [|cbn; lia].
      rewrite empty_not_valid in Hv by exact El. discriminate. }
    pose proof (bestHand_in_range results Hn). lia.
  - intros Hthrow. apply onResults_throw in Hthrow.
    destruct Hthrow as [Hv _].
    pose proof (frame_gestureType results currentTime w Hv) as Hg.
    unfold step, handler in Hg.
    rewrite onResults_valid in * by exact Hv. cbn [snd] in *.
    split; [reflexivity|]. split; [reflexivity|].
    rewrite Hg. apply recognize_never_none.
Qed.

Lemma X5_callback_witness :
  fst (onResults (oneHand closedHand) 16 (initialWorld true)) = Normal tt
  /\ fst (onResults (mkResults [Some closedHand] []) 16 (initialWorld true))
     = Throw.
Proof.
  destruct (X5_callback_throws_only_without_handedness
              (oneHand closedHand) 16 (initialWorld true)) as [_ [H _]].
  destruct (X5_callback_throws_only_without_handedness
              (mkResults [Some closedHand] []) 16 (initialWorld true))
    as [H' _].
  split.
  - apply H. reflexivity.
  - apply H'. split; [|split].
    + apply validHand_single. cbn. lia.
    + reflexivity.
    + now rewrite selectedHandedness_single.
Defined.

(** ** Thresholds and calibration *)

Section Thresholds.

Lemma finalThreshold_uncalibrated (landmarks : list XY) :
  0.036 <= finalThresholdOf landmarks None <= 0.054.
Proof.
  unfold finalThresholdOf, Js.or_else. apply adaptive_threshold_floor.
Qed.

Lemma finalThreshold_positive (landmarks : list XY) (custom : option R) :
  match custom with Some t => 0 < t | None => True end ->
  0 < finalThresholdOf landmarks custom.
Proof.
  destruct custom as [t|]; intros H.
  - unfold finalThresholdOf. rewrite or_else_nonzero by lra. exact H.
  - pose proof (finalThreshold_uncalibrated landmarks). lra.
Qed.

Lemma frame_threshold (results : Results) (currentTime : R) (w : World) :
  validHand results = true ->
  exists d : PinchDetails.t,
    pinchDetails (state (step w (Frame results currentTime))) = Some d
    /\ PinchDetails.distance d = spec_pinchDistance (theLandmarks results)
    /\ PinchDetails.threshold d
       = finalThresholdOf (theLandmarks results) (customPinchThreshold w)
    /\ PinchDetails.confidence d
       = pinchConfidenceOf (theLandmarks results) (gestureHistory w)
           (customPinchThreshold w)
    /\ pinch (state (step w (Frame results currentTime)))
       = Js.ltb (PinchDetails.distance d) (PinchDetails.threshold d).
Proof.
  intros H. rewrite frame_pinchDetails, frame_pinch by exact H.
  eexists. split; [reflexivity|]. cbn.
  now rewrite pinchDistanceOf_spec.
Qed.

Lemma step_frame_customPinchThreshold (results : Results) (currentTime : R)
    (w : World) :
  customPinchThreshold (step w (Frame results currentTime))
  = customPinchThreshold w.
Proof.
  destruct (frame_kinds results) as [H|[H|H]].
  - now rewrite step_empty.
  - now rewrite step_short.
  - now rewrite step_valid.
Qed.

End Thresholds.

(** X6: while no calibration has been made, the threshold a valid-hand
    frame stores lies between 0.036 and 0.054, so a thumb to index distance
    below 0.036 is always a pinch and one of 0.054 or more never is. *)
Theorem X6_uncalibrated_threshold_range :
  forall (w : World) (results : Results) (currentTime : R),
    validHand results = true ->
    customPinchThreshold w = None ->
    let w' := step w (Frame results currentTime) in
    exists d : PinchDetails.t,
      pinchDetails (state w') = Some d
      /\ 0.036 <= PinchDetails.threshold d <= 0.054
      /\ (spec_pinchDistance (theLandmarks results) < 0.036 ->
          pinch (state w') = true)
      /\ (0.054 <= spec_pinchDistance (theLandmarks results) ->
          pinch (state w') = false).
Proof.
  intros w results currentTime Hvalid Hnone w'.
  destruct (frame_threshold results currentTime w Hvalid)
    as [d [Hd [Hdist [Hthr [_ Hp]]]]].
  fold w' in Hd, Hp. rewrite Hnone in Hthr.
  pose proof (finalThreshold_uncalibrated (theLandmarks results)) as Hr.
  rewrite <- Hthr in Hr.
  exists d. split; [exact Hd|]. split; [exact Hr|].
  rewrite Hp, Hdist. split; intros H.
  - apply ltb_true. lra.
  - apply ltb_false. lra.
Qed.

Lemma X6_threshold_witness :
  exists d : PinchDetails.t,
    pinchDetails
      (state (step (initialWorld true) (Frame (oneHand closedHand) 16)))
    = Some d
    /\ 0.036 <= PinchDetails.threshold d <= 0.054.
Proof.
  destruct (X6_uncalibrated_threshold_range (initialWorld true)
              (oneHand closedHand) 16
              (validHand_oneHand origin origin origin origin origin)
              eq_refl)
    as [d [Hd [Hr _]]].
  exists d. split; [exact Hd|exact Hr].
Defined.

(** X7: frames never change the calibration override, and no event ever
    clears it: once set it stays set for the rest of the session. *)
Theorem X7_override_is_never_cleared :
  forall (events : list Event) (w : World),
    (forallb isFrame events = true ->
     customPinchThreshold (run events w) = customPinchThreshold w)
    /\ (customPinchThreshold w <> None ->
        customPinchThreshold (run events w) <> None).
Proof.
  intros events. induction events as [|e events IH]; intros w.
  - split; intros; [reflexivity|assumption].
  - rewrite run_cons. destruct (IH (step w e)) as [IHf IHs]. split.
    + cbn [forallb]. intros H. apply andb_prop in H. destruct H as [He Hr].
      rewrite IHf by exact Hr. destruct e; [|discriminate].
      apply step_frame_customPinchThreshold.
    + intros H. apply IHs. destruct e as [results currentTime|].
      * now rewrite step_frame_customPinchThreshold.
      * unfold step, handler.
        destruct (calibrate_threshold w) as [-> | [d [_ [_ ->]]]];
          [exact H|discriminate].
Qed.

Lemma X7_override_witness :
  let w := mkWorld initialState [] 0 0 (Some 0.05) true in
  customPinchThreshold
    (run [Frame noHands 32; Frame (oneHand closedHand) 48; KeyC] w)
  <> None
  /\ customPinchThreshold
       (run [Frame noHands 32; Frame (oneHand closedHand) 48] w)
     = Some 0.05.
Proof.
  intros w.
  destruct (X7_override_is_never_cleared
              [Frame noHands 32; Frame (oneHand closedHand) 48; KeyC] w)
    as [_ H].
  destruct (X7_override_is_never_cleared
              [Frame noHands 32; Frame (oneHand closedHand) 48] w)
    as [H' _].
  split.
  - apply H. discriminate.
  - apply H'. reflexivity.
Defined.

(** X8: after any valid-hand frame, pressing the calibrate key and then
    showing the same landmarks again always reports a pinch. *)
Theorem X8_calibrated_pose_pinches :
  forall (w : World) (results : Results) (t1 t2 : R),
    reachable w ->
    validHand results = true ->
    pinch (state (step (step (step w (Frame results t1)) KeyC)
                    (Frame results t2)))
    = true.
Proof.
  intros w results t1 t2 Hreach Hvalid.
  set (w1 := step w (Frame results t1)).
  assert (Hreach1 : reachable w1) by now apply reachable_step.
  destruct (frame_threshold results t1 w Hvalid) as [d [Hd [Hdist _]]].
  fold w1 in Hd.
  assert (Hnonneg : 0 <= PinchDetails.distance d).
  { rewrite Hdist, <- pinchDistanceOf_spec. apply pinchDistanceOf_nonneg. }
  rewrite frame_pinch by exact Hvalid. apply ltb_true.
  rewrite pinchDistanceOf_spec, <- Hdist.
  destruct Hnonneg as [Hpos|Hzero].
  - unfold step at 1, handler.
    rewrite (calibrate_known w1 d Hd Hpos). cbn [snd customPinchThreshold
      set_customPinchThreshold].
    unfold finalThresholdOf. rewrite or_else_nonzero by lra. lra.
  - rewrite <- Hzero. apply finalThreshold_positive.
    apply (reachable_overridePositive (step w1 KeyC)).
    now apply reachable_step.
Qed.

Lemma X8_calibrated_pose_witness :
  pinch (state (step (step (step (initialWorld true)
                                (Frame (oneHand (pinchAt 0.2)) 16)) KeyC)
                  (Frame (oneHand (pinchAt 0.2)) 32)))
  = true.
Proof.
  apply X8_calibrated_pose_pinches.
  - apply reachable_initial.
  - apply validHand_oneHand.
Defined.

(** ** Pinch flag against pinch confidence *)

Section PinchConfidence.

Lemma half_ratio (d thr : R) :
  0 < thr -> (d < thr <-> 1 / 2 < 1 - d / (thr * 2)).
Proof.
  intros Hthr. set (q := d / (thr * 2)).
  assert (Hq : q * (thr * 2) = d) by (unfold q; field; lra).
  split; intros H; nra.
Qed.

Lemma no_pinch_history (h : list Entry.t) :
  forallb (fun e => negb (Entry.pinch e)) h = true ->
  length (filter Entry.pinch h) = 0%nat
  /\ Nat.leb 3 (length h) && forallb Entry.pinch (slice_last3 h) = false.
Proof.
  intros H. split.
  - induction h as [|e h IH]; [reflexivity|].
    cbn [forallb] in H. apply andb_prop in H. destruct H as [He Hh].
    cbn [filter]. apply negb_true_iff in He. rewrite He. now apply IH.
  - rewrite sustained_spec. unfold spec_sustained.
    assert (Hrev : forallb (fun e => negb (Entry.pinch e)) (rev h) = true).
    { rewrite forallb_forall in *. intros e He. apply H.
      now apply in_rev. }
    destruct (rev h) as [|c [|b [|a r]]]; try reflexivity.
    cbn [forallb] in Hrev. apply andb_prop in Hrev. destruct Hrev as [Hc _].
    apply negb_true_iff in Hc. rewrite Hc. now rewrite andb_false_r.
Qed.

End PinchConfidence.

(** X9: in a session, a valid-hand frame that reports a pinch stores a
    pinch confidence above one half; and one that reports no pinch, with
    no pinching entry in the history, stores a confidence of at most one
    half. *)
Theorem X9_pinch_means_confident :
  forall (w : World) (results : Results) (currentTime : R),
    reachable w ->
    validHand results = true ->
    let w' := step w (Frame results currentTime) in
    exists d : PinchDetails.t,
      pinchDetails (state w') = Some d
      /\ (pinch (state w') = true -> 1 / 2 < PinchDetails.confidence d)
      /\ (pinch (state w') = false ->
          forallb (fun e => negb (Entry.pinch e)) (gestureHistory w) = true ->
          PinchDetails.confidence d <= 1 / 2).
Proof.
  intros w results currentTime Hreach Hvalid w'.
  destruct (frame_threshold results currentTime w Hvalid)
    as [d [Hd [Hdist [Hthr [Hconf Hp]]]]].
  fold w' in Hd, Hp.
  assert (Hpos : 0 < PinchDetails.threshold d).
  { rewrite Hthr. apply finalThreshold_positive.
    now apply reachable_overridePositive. }
  exists d. split; [exact Hd|].
  rewrite Hp, Hconf. unfold pinchConfidenceOf, Js.Math_min, Js.Math_max.
  rewrite pinchDistanceOf_spec, <- Hdist, <- Hthr. split.
  - intros H. apply ltb_true in H.
    apply (half_ratio _ _ Hpos) in H.
    apply Rmin_glb_lt; [lra|].
    pose proof (Rmax_r 0
      (1 - PinchDetails.distance d / (PinchDetails.threshold d * 2))).
    assert (0 <= Rmin 0.3 (INR (length (filter Entry.pinch (gestureHistory w)))
                           * 0.1)).
    { apply Rmin_glb; [lra|].
      pose proof (pos_INR (length (filter Entry.pinch (gestureHistory w)))).
      lra. }
    destruct (_ && _); lra.
  - intros H Hnone. apply ltb_false in H.
    destruct (no_pinch_history _ Hnone) as [-> ->].
    cbn [INR]. rewrite Rmult_0_l.
    assert (Hle : 1 - PinchDetails.distance d / (PinchDetails.threshold d * 2)
                  <= 1 / 2).
    { destruct (Rle_lt_dec
                  (1 - PinchDetails.distance d
                       / (PinchDetails.threshold d * 2)) (1 / 2))
        as [Hok|Hbad]; [exact Hok|].
      apply (half_ratio _ _ Hpos) in Hbad. lra. }
    eapply Rle_trans; [apply Rmin_r|].
    rewrite (Rmin_right 0.3 0) by lra.
    assert (Rmax 0 (1 - PinchDetails.distance d
                        / (PinchDetails.threshold d * 2)) <= 1 / 2)
      by (apply Rmax_lub; lra).
    lra.
Qed.

Lemma X9_pinch_witness :
  exists d : PinchDetails.t,
    pinchDetails
      (state (step (initialWorld true) (Frame (oneHand closedHand) 16)))
    = Some d
    /\ 1 / 2 < PinchDetails.confidence d.
Proof.
  destruct (X9_pinch_means_confident (initialWorld true)
              (oneHand closedHand) 16 (reachable_initial true)
              (validHand_oneHand origin origin origin origin origin))
    as [d [Hd [Hp _]]].
  exists d. split; [exact Hd|]. apply Hp.
  unfold oneHand. rewrite step_single by (cbn; lia).
  apply pinch_closedHand.
Defined.

(** ** Openness *)

Section Openness.

Lemma extendedCount_spec (f : FingerStates) :
  extendedCount f = spec_extended f.
Proof. destruct f as [[] [] [] [] []]; reflexivity. Qed.

Lemma spec_extended_max (f : FingerStates) : (spec_extended f <= 5)%nat.
Proof. destruct f as [[] [] [] [] []]; cbn; lia. Qed.

Lemma frame_openness (results : Results) (currentTime : R) (w : World) :
  validHand results = true ->
  openness (state (step w (Frame results currentTime)))
  = opennessOf (theLandmarks results)
      (fingerStates (state (step w (Frame results currentTime)))).
Proof. intros H. now rewrite step_valid. Qed.

End Openness.

(** X10: on a valid-hand frame the openness is the plain average of
    min(1, 2 * distance(wrist, middle fingertip)) and the fraction of
    extended digits (the outer clamp never cuts), so with n digits
    extended it lies between n / 10 and n / 10 + 1 / 2. *)
Theorem X10_openness_average :
  forall (w : World) (results : Results) (currentTime : R),
    validHand results = true ->
    let w' := step w (Frame results currentTime) in
    let n := spec_extended (fingerStates (state w')) in
    let reach := spec_distance (lm (theLandmarks results) 0)
                   (lm (theLandmarks results) 12) in
    openness (state w') = (Rmin 1 (2 * reach) + INR n / 5) / 2
    /\ INR n / 10 <= openness (state w') <= INR n / 10 + 1 / 2.
Proof.
  intros w results currentTime Hvalid w' n reach.
  assert (Ho : openness (state w') = (Rmin 1 (2 * reach) + INR n / 5) / 2).
  { unfold w'. rewrite frame_openness by exact Hvalid. fold w'.
    unfold opennessOf, Js.Math_min, span.
    rewrite spec_distance_hypot, extendedCount_spec. fold n reach.
    rewrite (Rmult_comm reach 2).
    apply Rmin_right.
    pose proof (Rmin_l 1 (2 * reach)).
    assert (INR n <= 5).
    { replace 5 with (INR 5) by (cbn; lra). apply le_INR.
      apply spec_extended_max. }
    lra. }
  split; [exact Ho|]. rewrite Ho.
  pose proof (Rmin_l 1 (2 * reach)).
  assert (0 <= Rmin 1 (2 * reach)).
  { apply Rmin_glb; [lra|]. unfold reach, spec_distance.
    pose proof (sqrt_pos
      (Rsqr (x (lm (theLandmarks results) 0) - x (lm (theLandmarks results) 12))
       + Rsqr (y (lm (theLandmarks results) 0)
               - y (lm (theLandmarks results) 12)))).
    lra. }
  lra.
Qed.

Lemma X10_openness_witness :
  openness (state (step (initialWorld true) (Frame (oneHand closedHand) 16)))
  <= 1 / 2.
Proof.
  destruct (X10_openness_average (initialWorld true) (oneHand closedHand) 16
              (validHand_oneHand origin origin origin origin origin))
    as [_ [_ H]].
  rewrite frame_fingers in H
    by apply (validHand_oneHand origin origin origin origin origin).
  unfold oneHand in H. rewrite theLandmarks_single in H.
  fold closedHand in H. rewrite fingersOf_closedHand in H.
  cbn [spec_extended thumb index middle ring pinky Nat.add INR] in H.
  unfold oneHand. lra.
Defined.

(** ** Position *)

Section Position.

Lemma smoothedPosition_spec (landmarks : list XY) (prev : XY) :
  smoothedPosition landmarks prev
  = mkXY (x prev + (x (spec_rawPosition (lm landmarks 0)) - x prev) * 0.8)
         (y prev + (y (spec_rawPosition (lm landmarks 0)) - y prev) * 0.8).
Proof.
  unfold smoothedPosition, lerp, gestureSmoothing, spec_rawPosition.
  cbn [x y]. f_equal; lra.
Qed.

Lemma step_position_cases (P : XY -> Prop) (w : World) (e : Event) :
  (forall results currentTime,
      e = Frame results currentTime ->
      validHand results = true ->
      P (smoothedPosition (theLandmarks results) (position (state w)))) ->
  P (position (state w)) ->
  P (position (state (step w e))).
Proof.
  intros Hvalid Hsame.
  apply (step_cases (fun w' => P (position (state w')))); intros.
  - exact Hsame.
  - now apply (Hvalid results currentTime).
  - destruct (calibrate_state w) as [_ [-> _]]. exact Hsame.
  - exact Hsame.
Qed.

End Position.

(** X11: as long as the wrist of every valid-hand frame lies in the camera
    frame, the smoothed position stays in the square [-1, 1] x [-1, 1]. *)
Theorem X11_position_stays_in_square :
  forall (hasStatusElement : bool) (events : list Event),
    wristsInFrame events ->
    let p := position (state (run events (initialWorld hasStatusElement))) in
    -1 <= x p <= 1 /\ -1 <= y p <= 1.
Proof.
  intros b events. induction events as [|e events IH] using rev_ind;
    intros Hall.
  - cbn. lra.
  - unfold wristsInFrame in Hall. apply Forall_app in Hall.
    destruct Hall as [Hall He]. apply Forall_inv in He.
    specialize (IH Hall). cbn zeta in IH. rewrite run_snoc.
    apply (step_position_cases
             (fun p => -1 <= x p <= 1 /\ -1 <= y p <= 1)); [|exact IH].
    intros results currentTime -> Hvalid.
    destruct (He Hvalid) as [Hx Hy].
    rewrite smoothedPosition_spec. unfold spec_rawPosition. cbn [x y]. lra.
Qed.

Lemma X11_position_witness :
  let results := mkResults [Some (wristAt (mkXY 0.55 0.5))]
                   [mkHandedness 0.9 "Right"] in
  let p := position (state (run [Frame results 16; Frame results 32]
                              (initialWorld true))) in
  -1 <= x p <= 1 /\ -1 <= y p <= 1.
Proof.
  intros results.
  apply (X11_position_stays_in_square true
           [Frame results 16; Frame results 32]).
  assert (Hw : wristInFrame results).
  { unfold wristInFrame, results. rewrite theLandmarks_single.
    unfold wristAt, lm. cbn [nth x y]. lra. }
  unfold wristsInFrame.
  apply Forall_cons; [intros _; exact Hw|].
  apply Forall_cons; [intros _; exact Hw|].
  apply Forall_nil.
Defined.

(** X12: over consecutive valid-hand frames whose wrist stays at one
    point, the smoothed position keeps one fifth of its offset from the
    raw position of that point at each frame: after n frames the offset is
    the starting offset times 0.2 ^ n, on both axes. *)
Theorem X12_position_converges :
  forall (p : XY) (fs : list (Results * R)) (w : World),
    Forall (fun f => validHand (fst f) = true
                     /\ lm (theLandmarks (fst f)) 0 = p) fs ->
    let raw := spec_rawPosition p in
    let pos := position (state (run (framesOf fs) w)) in
    x pos - x raw = (x (position (state w)) - x raw) * 0.2 ^ length fs
    /\ y pos - y raw = (y (position (state w)) - y raw) * 0.2 ^ length fs.
Proof.
  intros p fs. induction fs as [|[results currentTime] fs IH]; intros w Hall.
  - cbn. lra.
  - apply Forall_cons_iff in Hall. destruct Hall as [[Hvalid Hp] Hrest].
    cbn [fst] in Hvalid, Hp.
    cbn [framesOf map fst snd]. rewrite run_cons. fold (framesOf fs).
    specialize (IH (step w (Frame results currentTime)) Hrest).
    cbn zeta in IH |- *. destruct IH as [IHx IHy].
    rewrite IHx, IHy. rewrite frame_position by exact Hvalid.
    rewrite smoothedPosition_spec, Hp. cbn [x y length pow].
    generalize (0.2 ^ length fs). intros q. split; nra.
Qed.

Lemma X12_position_witness :
  let results := mkResults [Some (wristAt (mkXY 0.55 0.5))]
                   [mkHandedness 0.9 "Right"] in
  x (position (state (run (framesOf [(results, 16); (results, 32)])
                        (initialWorld true))))
  = 0.096.
Proof.
  intros results.
  assert (Hv : validHand results = true)
    by (apply validHand_single; cbn; lia).
  assert (Hp : lm (theLandmarks results) 0 = mkXY 0.55 0.5).
  { unfold results. now rewrite theLandmarks_single. }
  destruct (X12_position_converges (mkXY 0.55 0.5)
              [(results, 16); (results, 32)] (initialWorld true))
    as [Hx _].
  - apply Forall_cons; [split; assumption|].
    apply Forall_cons; [split; assumption|].
    apply Forall_nil.
  - cbn [spec_rawPosition x y length pow initialWorld state position
         initialState] in Hx.
    lra.
Defined.

(** ** History *)

Section HistoryShape.

Lemma pushHistory_snoc (e : Entry.t) (h : list Entry.t) :
  exists older : list Entry.t, pushHistory e h = older ++ [e].
Proof.
  destruct h as [|a h].
  - now exists [].
  - unfold pushHistory. destruct (Nat.ltb _ _).
    + now exists h.
    + now exists (a :: h).
Qed.

Lemma pushHistory_last (e : Entry.t) (h : list Entry.t) :
  last (pushHistory e h) noEntry = e.
Proof.
  destruct (pushHistory_snoc e h) as [older ->]. apply last_last.
Qed.

Lemma pushHistory_length_min (e : Entry.t) (h : list Entry.t) :
  (length h <= 5)%nat ->
  length (pushHistory e h) = Nat.min 5 (S (length h)).
Proof.
  intros H. unfold pushHistory, GESTURE_HISTORY_LENGTH.
  rewrite length_app. cbn [length].
  destruct (Nat.ltb_spec 5 (length h + 1)) as [Hlt|Hge].
  - destruct h as [|a h]; cbn [length] in *; [lia|].
    cbn [app tl]. rewrite length_app. cbn [length]. lia.
  - rewrite length_app. cbn [length]. lia.
Qed.

Lemma validFrameCount_snoc (events : list Event) (e : Event) :
  validFrameCount (events ++ [e])
  = (validFrameCount events
     + match e with
       | Frame results _ => if validHand results then 1 else 0
       | KeyC => 0
       end)%nat.
Proof.
  unfold validFrameCount. rewrite filter_app, length_app. f_equal.
  destruct e as [results currentTime|]; [|reflexivity].
  cbn [filter]. now destruct (validHand results).
Qed.

End HistoryShape.

(** X13: the history holds min(5, number of valid-hand frames so far)
    entries, and when it is not empty its newest entry is the summary of
    the current output state, stamped with [lastGestureTime]: nothing but
    a valid-hand frame changes position, openness or pinch. *)
Theorem X13_history_tracks_valid_frames :
  forall (hasStatusElement : bool) (events : list Event),
    let w := run events (initialWorld hasStatusElement) in
    length (gestureHistory w) = Nat.min 5 (validFrameCount events)
    /\ (gestureHistory w <> [] ->
        last (gestureHistory w) noEntry
        = summaryOf (state w) (lastGestureTime w)).
Proof.
  intros b events. induction events as [|e events IH] using rev_ind.
  - cbn. split; [reflexivity|]. intros H. now elim H.
  - cbn zeta in IH |- *. destruct IH as [IHlen IHlast].
    rewrite run_snoc, validFrameCount_snoc.
    set (w := run events (initialWorld b)) in *.
    destruct e as [results currentTime|].
    + destruct (frame_kinds results) as [H|[H|H]].
      * rewrite step_empty, empty_not_valid by exact H.
        rewrite Nat.add_0_r. split; [exact IHlen|exact IHlast].
      * rewrite step_short, short_not_valid by exact H.
        rewrite Nat.add_0_r. split; [exact IHlen|exact IHlast].
      * rewrite step_valid, H by exact H.
        cbn [frameWorld gestureHistory state lastGestureTime]. split.
        -- rewrite pushHistory_length_min by (rewrite IHlen; lia).
           rewrite IHlen. lia.
        -- intros _. apply pushHistory_last.
    + unfold step, handler.
      destruct (calibrate_state w) as [_ [Hs [Hh Ht]]].
      rewrite Hs, Hh, Ht, Nat.add_0_r. split; [exact IHlen|exact IHlast].
Qed.

Lemma X13_history_witness :
  let w := run [Frame (oneHand closedHand) 16; Frame noHands 32]
             (initialWorld true) in
  length (gestureHistory w) = 1%nat
  /\ last (gestureHistory w) noEntry
     = summaryOf (state w) (lastGestureTime w).
Proof.
  intros w.
  destruct (X13_history_tracks_valid_frames true
              [Frame (oneHand closedHand) 16; Frame noHands 32])
    as [Hlen Hlast].
  fold w in Hlen, Hlast.
  assert (Hcount : validFrameCount
                     [Frame (oneHand closedHand) 16; Frame noHands 32]
                   = 1%nat).
  { pose proof (validHand_oneHand origin origin origin origin origin) as Hv.
    fold closedHand in Hv.
    unfold validFrameCount. cbn [filter].
    now rewrite Hv, (empty_not_valid noHands eq_refl). }
  rewrite Hcount in Hlen. cbn [Nat.min] in Hlen.
  split; [exact Hlen|]. apply Hlast.
  intros Hnil. rewrite Hnil in Hlen. discriminate Hlen.
Defined.

(** * Properties of the particle system *)

Module ParticlesFacts.

Import Particles.

(** Reads fields through writes. *)
Ltac fields :=
  cbn [currentTemplate switchCooldown transitionProgress isTransitioning
       currentShapeName lastPinchTime pinchChargeLevel isPinchingLastFrame
       shapeSwitchBurst performanceOptimizer currentTheme
       advancedEffects_pulse buffersReady
       lastUpdate updateInterval particleCount quality
       set_currentTemplate set_switchCooldown set_transitionProgress
       set_isTransitioning set_currentShapeName set_lastPinchTime
       set_pinchChargeLevel set_isPinchingLastFrame set_shapeSwitchBurst
       set_performanceOptimizer set_currentTheme set_advancedEffects_pulse
       set_lastUpdate set_updateInterval set_particleCount set_quality
       updateShapeDisplay cooldownElapsed] in *.

Ltac sound_fields H :=
  destruct H; constructor; fields; try assumption; try lra.

Section Setters.

Variable s : State.
Hypothesis sound : Sound s.

Lemma sound_set_pinchChargeLevel (a : R) :
  0 <= a <= 1 -> Sound (set_pinchChargeLevel a s).
Proof. intros H. sound_fields sound. Qed.

Lemma sound_set_shapeSwitchBurst (a : R) :
  0 <= a <= 1 -> Sound (set_shapeSwitchBurst a s).
Proof. intros H. sound_fields sound. Qed.

Lemma sound_set_transitionProgress (a : R) :
  0 <= a <= 1 -> Sound (set_transitionProgress a s).
Proof. intros H. sound_fields sound. Qed.

Lemma sound_set_isPinchingLastFrame (b : bool) :
  Sound (set_isPinchingLastFrame b s).
Proof. sound_fields sound. Qed.

Lemma sound_set_lastPinchTime (a : R) : Sound (set_lastPinchTime a s).
Proof. sound_fields sound. Qed.

Lemma sound_set_lastUpdate (a : R) :
  Sound (set_performanceOptimizer
           (set_lastUpdate a (performanceOptimizer s)) s).
Proof. sound_fields sound. Qed.

Lemma sound_cooldownElapsed : Sound (cooldownElapsed s).
Proof. sound_fields sound. Qed.

Lemma sound_switchTemplate : Sound (switchTemplate s).
Proof.
  unfold switchTemplate. destruct (switchCooldown s); [exact sound|].
  sound_fields sound.
  - apply Nat.mod_upper_bound. discriminate.
  - apply nth_error_nth'. apply Nat.mod_upper_bound. discriminate.
Qed.

Lemma sound_setParticleCount (count : R) : Sound (setParticleCount count s).
Proof.
  unfold setParticleCount. sound_fields sound.
  unfold Js.Math_max, Js.Math_min. split; [apply Rmax_l|].
  apply Rmax_lub; [lra|apply Rmin_l].
Qed.

Lemma sound_setQuality (q : string) : Sound (setQuality q s).
Proof.
  unfold setQuality.
  destruct (String.eqb q "low"); [sound_fields sound|].
  destruct (String.eqb q "medium"); [sound_fields sound|].
  destruct (String.eqb q "high"); sound_fields sound.
Qed.

Lemma sound_setColorTheme (theme : string) :
  Sound (fst (setColorTheme theme s)).
Proof.
  unfold setColorTheme. destruct (_ || _); cbn [fst]; [|exact sound].
  sound_fields sound.
Qed.

Lemma sound_toggleAdvancedEffect (effect : string) (enabled : bool) :
  Sound (fst (toggleAdvancedEffect effect enabled s)).
Proof.
  unfold toggleAdvancedEffect. destruct (String.eqb _ _); cbn [fst];
    [|exact sound].
  sound_fields sound.
Qed.

End Setters.

Section Stages.

Lemma sound_pinchStage (gestureState : GestureState) (currentTime : R)
    (s : State) :
  Sound s -> Sound (pinchStage gestureState currentTime s).
Proof.
  intros Hs. pose proof (sound_charge s Hs) as Hc.
  unfold pinchStage. destruct (_ && _).
  - apply sound_set_isPinchingLastFrame.
    assert (H1 : Sound (set_pinchChargeLevel
                          (Js.Math_min 1 (pinchChargeLevel s + 0.02)) s)).
    { apply sound_set_pinchChargeLevel; [exact Hs|].
      unfold Js.Math_min. split; [apply Rmin_glb; lra|apply Rmin_l]. }
    destruct (_ && _); [|exact H1].
    apply sound_set_pinchChargeLevel; [|lra].
    apply sound_set_shapeSwitchBurst; [|lra].
    apply sound_switchTemplate. now apply sound_set_lastPinchTime.
  - apply sound_set_isPinchingLastFrame.
    apply sound_set_pinchChargeLevel; [exact Hs|].
    unfold Js.Math_max. split; [apply Rmax_l|apply Rmax_lub; lra].
Qed.

Lemma sound_burstStage (s : State) : Sound s -> Sound (burstStage s).
Proof.
  intros Hs. pose proof (sound_burst s Hs) as Hb.
  unfold burstStage. destruct (Js.gtb _ _); [|exact Hs].
  destruct (Js.ltb _ _); sound_fields Hs.
Qed.

Lemma sound_transitionStage (s : State) : Sound s -> Sound (transitionStage s).
Proof.
  intros Hs. pose proof (sound_progress s Hs) as Hp.
  unfold transitionStage. destruct (negb _); [exact Hs|].
  destruct (isTransitioning s); [|exact Hs].
  unfold Js_geb. destruct (Js.ltb _ _) eqn:E; cbn [negb].
  - fields. apply ltb_true in E. sound_fields Hs.
  - sound_fields Hs.
Qed.

Lemma sound_updateParticles (gestureState : GestureState) (currentTime : R)
    (s : State) :
  Sound s -> Sound (updateParticles gestureState currentTime s).
Proof.
  intros Hs. unfold updateParticles. destruct (Js.ltb _ _); [exact Hs|].
  apply sound_transitionStage, sound_burstStage, sound_pinchStage.
  now apply sound_set_lastUpdate.
Qed.

Lemma sound_step (s : State) (e : Event) : Sound s -> Sound (step s e).
Proof.
  intros Hs. destruct e; cbn [step].
  - now apply sound_updateParticles.
  - now apply sound_cooldownElapsed.
  - now apply sound_switchTemplate.
  - now apply sound_setQuality.
  - now apply sound_setParticleCount.
  - now apply sound_setColorTheme.
  - now apply sound_toggleAdvancedEffect.
Qed.

Lemma sound_initialState (ready : bool) : Sound (initialState ready).
Proof. constructor; cbn; try lra; try lia. reflexivity. Qed.

End Stages.

(** X14: whatever the render loop, the timer and the controls do, the
    pinch charge, the burst level and the transition progress stay in
    [0, 1], the template index stays below 8 with the shape name the one
    listed for it, the particle count stays in [500, 5000] and the update
    interval in [16, 32]. *)
Theorem X14_particle_state_stays_in_range :
  forall (ready : bool) (events : list Event),
    let s := run events (initialState ready) in
    0 <= pinchChargeLevel s <= 1
    /\ 0 <= shapeSwitchBurst s <= 1
    /\ 0 <= transitionProgress s <= 1
    /\ (currentTemplate s < 8)%nat
    /\ nth_error shapeNames (currentTemplate s) = Some (currentShapeName s)
    /\ 500 <= particleCount (performanceOptimizer s) <= 5000
    /\ 16 <= updateInterval (performanceOptimizer s) <= 32.
Proof.
  intros ready events s.
  assert (Hs : Sound s).
  { unfold s, run. induction events as [|e events IH] using rev_ind.
    - apply sound_initialState.
    - rewrite fold_left_app. cbn [fold_left]. now apply sound_step. }
  destruct Hs. repeat split; assumption || tauto.
Qed.

Section Hold.

Lemma burstStage_view (s : State) : pinchView (burstStage s) = pinchView s.
Proof.
  unfold burstStage. destruct (Js.gtb _ _); [|reflexivity].
  destruct (Js.ltb _ _); reflexivity.
Qed.

Lemma transitionStage_view (s : State) :
  pinchView (transitionStage s) = pinchView s.
Proof.
  unfold transitionStage. destruct (negb _); [reflexivity|].
  destruct (isTransitioning s); [|reflexivity].
  destruct (Js_geb _ _); reflexivity.
Qed.

Lemma unswitched_view (s1 s2 : State) (lo : R) :
  pinchView s1 = pinchView s2 -> unswitched s2 lo -> unswitched s1 lo.
Proof.
  unfold pinchView, unswitched. intros H. injection H as -> -> -> -> -> ->.
  auto.
Qed.

Lemma unswitched_later (s : State) (lo t : R) :
  lo <= t -> unswitched s lo -> unswitched s t.
Proof.
  unfold unswitched. intros Hle [H1 [H2 [H3 [H4 [[H5 H6]|H5]]]]].
  - repeat split; try assumption. left. split; [assumption|lra].
  - repeat split; try assumption. now right.
Qed.

Lemma unswitched_pinchStage (gestureState : GestureState) (t lo : R)
    (s : State) :
  pinch gestureState = true ->
  lo <= t ->
  unswitched s lo ->
  unswitched (pinchStage gestureState t s) t.
Proof.
  intros Hp Hle [H1 [H2 [H3 [H4 H5]]]]. unfold pinchStage.
  rewrite Hp, H3. cbn [andb].
  destruct (Js.gtb (t - 0) 800) eqn:G; cbv zeta; fields.
  - apply gtb_true in G. destruct H5 as [[H5 H6]|[H5 H6]].
    + rewrite H5. cbn [negb]. rewrite andb_false_r.
      unfold unswitched. fields. repeat split; try assumption.
      left. split; [reflexivity|lra].
    + rewrite H5, H6.
      replace (Js_geb (Js.Math_min 1 (0 + 0.02)) 0.8) with false.
      * cbn [andb]. unfold unswitched. fields. repeat split; try assumption.
        left. split; [reflexivity|lra].
      * symmetry. unfold Js_geb. apply negb_false_iff, ltb_true.
        unfold Js.Math_min. rewrite Rmin_right by lra. lra.
  - apply gtb_false in G. destruct H5 as [[H5 H6]|[H5 H6]]; [lra|].
    unfold unswitched. fields. repeat split; try assumption.
    right. split; [reflexivity|].
    rewrite H6. unfold Js.Math_max. apply Rmax_left. lra.
Qed.

Lemma unswitched_updateParticles (gestureState : GestureState) (t lo : R)
    (s : State) :
  pinch gestureState = true ->
  lo <= t ->
  unswitched s lo ->
  unswitched (updateParticles gestureState t s) t.
Proof.
  intros Hp Hle Hs. unfold updateParticles.
  destruct (Js.ltb _ _); [now apply (unswitched_later s lo)|].
  eapply unswitched_view; [apply transitionStage_view|].
  eapply unswitched_view; [apply burstStage_view|].
  apply (unswitched_pinchStage gestureState t lo); assumption.
Qed.

Lemma unswitched_run (us : list (GestureState * R)) (s : State) (lo : R) :
  Forall (fun u => pinch (fst u) = true) us ->
  StronglySorted Rle (map snd us) ->
  Forall (fun u => lo <= snd u) us ->
  exists lo', unswitched s lo -> unswitched (run (updates us) s) lo'.
Proof.
  revert s lo. induction us as [|[gs t] us IH]; intros s lo Hp Hs Hlo.
  - exists lo. auto.
  - apply Forall_cons_iff in Hp. destruct Hp as [Hp Hps].
    apply Forall_cons_iff in Hlo. destruct Hlo as [Hlo _].
    cbn [map snd fst] in *. apply StronglySorted_inv in Hs.
    destruct Hs as [Hs Ht].
    destruct (IH (updateParticles gs t s) t Hps Hs) as [lo' Hrun].
    + rewrite Forall_map in Ht. exact Ht.
    + exists lo'. intros Hu. apply Hrun.
      now apply (unswitched_updateParticles gs t lo).
Qed.

End Hold.

(** X15: with a clock that never goes back, render updates that all see
    [pinch = true] never switch the shape, however long the pinch is held:
    from the start the template stays the sphere and [lastPinchTime]
    stays 0. *)
Theorem X15_holding_a_pinch_never_switches :
  forall (ready : bool) (us : list (GestureState * R)),
    Forall (fun u => pinch (fst u) = true) us ->
    StronglySorted Rle (map snd us) ->
    let s := run (updates us) (initialState ready) in
    currentTemplate s = 0%nat
    /\ currentShapeName s = "Sphere"%string
    /\ lastPinchTime s = 0.
Proof.
  intros ready us Hp Hs s.
  destruct us as [|[gs t] us].
  - cbn. auto.
  - destruct (unswitched_run ((gs, t) :: us) (initialState ready) t Hp Hs)
      as [lo' H].
    + constructor; [cbn; lra|].
      cbn [map snd] in Hs. apply StronglySorted_inv in Hs.
      destruct Hs as [_ Ht]. rewrite Forall_map in Ht. exact Ht.
    + destruct H as [H1 [H2 [H3 _]]]; [|auto].
      unfold unswitched. cbn. repeat split. now right.
Qed.

Lemma X15_holding_witness :
  currentTemplate
    (run (updates [ (pinchingGesture, 900); (pinchingGesture, 916);
                    (pinchingGesture, 932) ])
       (initialState true))
  = 0%nat.
Proof.
  apply (X15_holding_a_pinch_never_switches true
           [ (pinchingGesture, 900); (pinchingGesture, 916);
             (pinchingGesture, 932) ]).
  - repeat (apply Forall_cons; [reflexivity|]). apply Forall_nil.
  - cbn [map snd].
    repeat (apply SSorted_cons;
            [|repeat (apply Forall_cons; [lra|]); apply Forall_nil]).
    apply SSorted_nil.
Defined.

Section Charge.

Lemma transitionStage_stable (s : State) :
  stableView (transitionStage s) = stableView s.
Proof.
  unfold transitionStage. destruct (negb _); [reflexivity|].
  destruct (isTransitioning s); [|reflexivity].
  destruct (Js_geb _ _); reflexivity.
Qed.

Lemma charging_stable (s1 s2 : State) (k : nat) :
  stableView s1 = stableView s2 -> charging s2 k -> charging s1 k.
Proof.
  unfold stableView, pinchView, charging. intros H.
  injection H as -> -> -> -> -> -> -> ->. auto.
Qed.

Lemma burstStage_idle (s : State) : shapeSwitchBurst s = 0 -> burstStage s = s.
Proof.
  intros H. unfold burstStage. rewrite H.
  now rewrite (proj2 (gtb_false 0 0)) by lra.
Qed.

Lemma charge_step (k : nat) :
  Rmin 1 (Rmin 1 (0.02 * INR k) + 0.02) = Rmin 1 (0.02 * INR (S k)).
Proof.
  rewrite S_INR. pose proof (pos_INR k).
  unfold Rmin. destruct (Rle_dec 1 (0.02 * INR k));
    destruct (Rle_dec 1 (1 + 0.02)); destruct (Rle_dec 1 (0.02 * (INR k + 1)));
    destruct (Rle_dec 1 (0.02 * INR k + 0.02)); lra.
Qed.

Lemma charging_pinchStage (gestureState : GestureState) (t : R) (k : nat)
    (s : State) :
  pinch gestureState = true ->
  800 < t ->
  charging s k ->
  charging (pinchStage gestureState t s) (S k).
Proof.
  intros Hp Ht [H1 [H2 [H3 [H4 [H5 [H6 [H7 H8]]]]]]]. unfold pinchStage.
  rewrite Hp, H3. cbn [andb].
  rewrite (proj2 (gtb_true (t - 0) 800)) by lra. cbv zeta. fields.
  rewrite H7, H8.
  replace (Js_geb (Js.Math_min 1 (Rmin 1 (0.02 * INR k) + 0.02)) 0.8
           && negb (negb (Nat.eqb k 0))) with false.
  - unfold charging. fields. unfold Js.Math_min. rewrite charge_step.
    repeat split; assumption.
  - symmetry. destruct k as [|k]; cbn [Nat.eqb negb]; [|apply andb_false_r].
    rewrite andb_true_r. unfold Js_geb. apply negb_false_iff, ltb_true.
    cbn [INR]. unfold Js.Math_min.
    rewrite (Rmin_right 1 (0.02 * 0)) by lra. rewrite Rmin_right by lra. lra.
Qed.

Lemma charging_updateParticles (gestureState : GestureState) (t : R)
    (k : nat) (s : State) :
  pinch gestureState = true ->
  800 < t ->
  16 <= t - lastUpdate (performanceOptimizer s) ->
  charging s k ->
  charging (updateParticles gestureState t s) (S k)
  /\ lastUpdate (performanceOptimizer (updateParticles gestureState t s)) = t.
Proof.
  intros Hp Ht Hgap Hc. unfold updateParticles.
  assert (H6 : updateInterval (performanceOptimizer s) = 16)
    by (destruct Hc as [_ [_ [_ [_ [_ [H6 _]]]]]]; exact H6).
  rewrite H6. rewrite (proj2 (ltb_false _ _)) by lra. cbv zeta.
  set (s1 := set_performanceOptimizer
               (set_lastUpdate t (performanceOptimizer s)) s).
  assert (Hc1 : charging s1 k).
  { destruct Hc as [H1 [H2 [H3 [H4 [H5 [_ [H7 H8]]]]]]].
    unfold charging, s1. fields. repeat split; assumption. }
  pose proof (charging_pinchStage gestureState t k s1 Hp Ht Hc1) as Hc2.
  assert (Hb : shapeSwitchBurst (pinchStage gestureState t s1) = 0)
    by (destruct Hc2 as [_ [_ [_ [_ [H5 _]]]]]; exact H5).
  rewrite (burstStage_idle _ Hb).
  pose proof (transitionStage_stable (pinchStage gestureState t s1)) as Hst.
  split.
  - eapply charging_stable; [exact Hst|exact Hc2].
  - pose proof (f_equal snd Hst) as Ho. cbn [snd stableView] in Ho.
    rewrite Ho. unfold pinchStage. destruct (_ && _); cbv zeta; fields.
    + destruct (_ && _); fields; [|reflexivity].
      unfold switchTemplate. destruct (switchCooldown _); reflexivity.
    + reflexivity.
Qed.

Lemma charging_run (hold : list (GestureState * R)) (rest : list R)
    (k : nat) (s : State) :
  Forall (fun u => pinch (fst u) = true /\ 800 < snd u) hold ->
  spaced (lastUpdate (performanceOptimizer s)) (map snd hold ++ rest) ->
  charging s k ->
  charging (run (updates hold) s) (k + length hold)
  /\ spaced (lastUpdate (performanceOptimizer (run (updates hold) s))) rest.
Proof.
  revert k s. induction hold as [|[gs t] hold IH]; intros k s Hall Hsp Hc.
  - cbn. rewrite Nat.add_0_r. auto.
  - apply Forall_cons_iff in Hall. destruct Hall as [[Hp Ht] Hall].
    cbn [fst snd map app spaced] in *. destruct Hsp as [Hgap Hsp].
    destruct (charging_updateParticles gs t k s Hp Ht Hgap Hc) as [Hc' Hl].
    cbn [updates map fst snd run fold_left step].
    fold (updates hold). fold (run (updates hold) (updateParticles gs t s)).
    rewrite <- Hl in Hsp.
    destruct (IH (S k) (updateParticles gs t s) Hall Hsp Hc') as [IH1 IH2].
    split; [|exact IH2].
    cbn [length]. rewrite Nat.add_succ_r. exact IH1.
Qed.

Lemma spaced_later (times : list R) (last : R) :
  spaced last times -> Forall (fun t => last < t) times.
Proof.
  revert last. induction times as [|t times IH]; intros last H.
  - constructor.
  - cbn [spaced] in H. destruct H as [Hgap Hrest]. constructor; [lra|].
    apply (Forall_impl _ (P := fun u => t < u)); [intros u Hu; lra|].
    now apply IH.
Qed.

Lemma charged_level (k : nat) : (40 <= k)%nat -> 0.8 <= Rmin 1 (0.02 * INR k).
Proof.
  intros H. apply le_INR in H.
  replace (INR 40) with 40 in H by (cbn; lra).
  apply Rmin_glb; lra.
Qed.

Lemma stable_fields (s1 s2 : State) :
  stableView s1 = stableView s2 ->
  currentTemplate s1 = currentTemplate s2
  /\ currentShapeName s1 = currentShapeName s2
  /\ lastPinchTime s1 = lastPinchTime s2
  /\ switchCooldown s1 = switchCooldown s2
  /\ isPinchingLastFrame s1 = isPinchingLastFrame s2
  /\ pinchChargeLevel s1 = pinchChargeLevel s2
  /\ shapeSwitchBurst s1 = shapeSwitchBurst s2
  /\ performanceOptimizer s1 = performanceOptimizer s2.
Proof.
  unfold stableView, pinchView. intros H.
  injection H as H1 H2 H3 H4 H5 H6 H7 H8. repeat split; assumption.
Qed.

(** The update that follows the release of a charged pinch. *)
Lemma release_update (gestureState : GestureState) (t : R) (k : nat)
    (s : State) :
  (40 <= k)%nat ->
  pinch gestureState = false ->
  16 <= t - lastUpdate (performanceOptimizer s) ->
  charging s k ->
  let s' := updateParticles gestureState t s in
  currentTemplate s' = 0%nat
  /\ lastPinchTime s' = 0
  /\ switchCooldown s' = false
  /\ shapeSwitchBurst s' = 0
  /\ performanceOptimizer s'
     = set_lastUpdate t (performanceOptimizer s)
  /\ 0.79 <= pinchChargeLevel s' <= 1
  /\ isPinchingLastFrame s' = false.
Proof.
  intros Hk Hp Hgap [H1 [H2 [H3 [H4 [H5 [H6 [H7 H8]]]]]]] s'.
  unfold s', updateParticles.
  rewrite H6. rewrite (proj2 (ltb_false _ _)) by lra. cbv zeta.
  set (s1 := set_performanceOptimizer
               (set_lastUpdate t (performanceOptimizer s)) s).
  assert (E : pinchStage gestureState t s1
              = set_isPinchingLastFrame false
                  (set_pinchChargeLevel
                     (Js.Math_max 0 (pinchChargeLevel s1 - 0.01)) s1)).
  { unfold pinchStage. now rewrite Hp. }
  rewrite E. rewrite burstStage_idle by (unfold s1; fields; exact H5).
  destruct (stable_fields _ _ (transitionStage_stable
              (set_isPinchingLastFrame false
                 (set_pinchChargeLevel
                    (Js.Math_max 0 (pinchChargeLevel s1 - 0.01)) s1))))
    as [-> [_ [-> [-> [-> [-> [-> ->]]]]]]].
  unfold s1. fields. rewrite H7.
  pose proof (charged_level k Hk). pose proof (Rmin_l 1 (0.02 * INR k)).
  unfold Js.Math_max. rewrite Rmax_right by lra.
  repeat split; try assumption; try reflexivity; lra.
Qed.

(** The first pinching update after a release, with the meter at 0.78 or
    more and the cooldown over. *)
Lemma trigger_update (gestureState : GestureState) (t : R) (s : State) :
  pinch gestureState = true ->
  800 < t - lastPinchTime s ->
  updateInterval (performanceOptimizer s)
  <= t - lastUpdate (performanceOptimizer s) ->
  0.78 <= pinchChargeLevel s ->
  isPinchingLastFrame s = false ->
  switchCooldown s = false ->
  let s' := updateParticles gestureState t s in
  currentTemplate s' = ((currentTemplate s + 1) mod 8)%nat
  /\ currentShapeName s'
     = nth ((currentTemplate s + 1) mod 8) shapeNames EmptyString
  /\ lastPinchTime s' = t
  /\ pinchChargeLevel s' = 0
  /\ shapeSwitchBurst s' = 0.95
  /\ switchCooldown s' = true
  /\ isPinchingLastFrame s' = true.
Proof.
  intros Hp Hcool Hgap Hc Hl Hsw s'. unfold s', updateParticles.
  rewrite (proj2 (ltb_false _ _)) by lra. cbv zeta.
  set (s1 := set_performanceOptimizer
               (set_lastUpdate t (performanceOptimizer s)) s).
  set (s2 := set_isPinchingLastFrame true
               (set_pinchChargeLevel 0
                  (set_shapeSwitchBurst 1
                     (switchTemplate
                        (set_lastPinchTime t
                           (set_pinchChargeLevel
                              (Js.Math_min 1 (pinchChargeLevel s1 + 0.02))
                              s1)))))).
  assert (E : pinchStage gestureState t s1 = s2).
  { unfold pinchStage, s2. rewrite Hp. cbn [andb].
    replace (Js.gtb (t - lastPinchTime s1) 800) with true
      by (symmetry; apply gtb_true; unfold s1; fields; lra).
    cbv zeta. fields.
    replace (Js_geb (Js.Math_min 1 (pinchChargeLevel s1 + 0.02)) 0.8) with true.
    - replace (isPinchingLastFrame s1) with false
        by (unfold s1; fields; now rewrite Hl).
      reflexivity.
    - symmetry. unfold Js_geb. apply negb_true_iff, ltb_false.
      unfold Js.Math_min, s1. fields. apply Rmin_glb; lra. }
  rewrite E.
  assert (Hsw1 : switchTemplate
                   (set_lastPinchTime t
                      (set_pinchChargeLevel
                         (Js.Math_min 1 (pinchChargeLevel s1 + 0.02)) s1))
                 = set_isTransitioning true
                     (set_transitionProgress 0
                        (updateShapeDisplay
                           (set_currentTemplate
                              ((currentTemplate s + 1) mod 8)
                              (set_switchCooldown true
                                 (set_lastPinchTime t
                                    (set_pinchChargeLevel
                                       (Js.Math_min 1
                                          (pinchChargeLevel s1 + 0.02))
                                       s1))))))).
  { unfold switchTemplate. fields. unfold s1 at 1. fields. rewrite Hsw.
    reflexivity. }
  assert (Eb : burstStage s2 = set_shapeSwitchBurst (1 * 0.95) s2).
  { unfold burstStage, s2. fields.
    rewrite (proj2 (gtb_true 1 0)) by lra.
    now rewrite (proj2 (ltb_false (1 * 0.95) 0.01)) by lra. }
  rewrite Eb.
  destruct (stable_fields _ _ (transitionStage_stable
              (set_shapeSwitchBurst (1 * 0.95) s2)))
    as [-> [-> [-> [-> [-> [-> [-> _]]]]]]].
  unfold s2. fields. rewrite Hsw1. fields.
  repeat split; try reflexivity. lra.
Qed.

End Charge.

(** X16: the way the shape switch does fire. From the start, after 40 or
    more updates that see a pinch (all later than 800 ms, none skipped by
    the rate limit), one update that sees no pinch and then one that sees
    a pinch again switch to the next shape: the heart, with the charge
    reset, the burst started and [lastPinchTime] at that update. *)
Theorem X16_pinch_release_pinch_switches :
  forall (ready : bool) (hold : list (GestureState * R))
         (released pinched : GestureState) (tR tP : R),
    (40 <= length hold)%nat ->
    Forall (fun u => pinch (fst u) = true /\ 800 < snd u) hold ->
    spaced 0 (map snd hold ++ [tR; tP]) ->
    pinch released = false ->
    pinch pinched = true ->
    let s := run (updates (hold ++ [(released, tR); (pinched, tP)]))
               (initialState ready) in
    currentTemplate s = 1%nat
    /\ currentShapeName s = "Heart"%string
    /\ lastPinchTime s = tP
    /\ pinchChargeLevel s = 0
    /\ shapeSwitchBurst s = 0.95
    /\ switchCooldown s = true.
Proof.
  intros ready hold released pinched tR tP Hlen Hall Hsp HpR HpP s.
  assert (Hc0 : charging (initialState ready) 0).
  { unfold charging. cbn. rewrite Rmult_0_r, Rmin_right by lra.
    repeat split. }
  destruct (charging_run hold [tR; tP] 0 (initialState ready) Hall Hsp Hc0)
    as [Hc Hsp'].
  cbn [Nat.add] in Hc. cbn [spaced] in Hsp'. destruct Hsp' as [HgR [HgP _]].
  set (sh := run (updates hold) (initialState ready)) in *.
  destruct (release_update released tR (length hold) sh Hlen HpR HgR Hc)
    as [R1 [R2 [R3 [R4 [R5 [R6 R7]]]]]].
  set (sr := updateParticles released tR sh) in *.
  assert (Hs : s = updateParticles pinched tP sr).
  { unfold s, updates, run. rewrite map_app, fold_left_app. reflexivity. }
  assert (HtP : 800 < tP).
  { destruct hold as [|[g0 t0] hold]; [cbn in Hlen; lia|].
    apply Forall_cons_iff in Hall. destruct Hall as [[_ Ht0] _].
    cbn [map snd fst app spaced] in Hsp, Ht0. destruct Hsp as [_ Hsp].
    apply spaced_later in Hsp. rewrite Forall_forall in Hsp.
    assert (Hin : In tP (map snd hold ++ [tR; tP])).
    { apply in_or_app. right. right. now left. }
    specialize (Hsp tP Hin). lra. }
  destruct (trigger_update pinched tP sr HpP) as [T1 [T2 [T3 [T4 [T5 [T6 _]]]]]];
    try assumption; try lra.
  - rewrite R5. fields.
    destruct Hc as [_ [_ [_ [_ [_ [H6 _]]]]]]. rewrite H6. lra.
  - rewrite Hs, T1, T2, T3, T4, T5, T6, R1. cbn. repeat split.
Qed.

Lemma X16_switch_witness :
  let hold := map (fun i => (pinchingGesture, 900 + 16 * INR i)) (seq 0 40) in
  currentShapeName
    (run (updates (hold ++ [(restingGesture, 1540); (pinchingGesture, 1556)]))
       (initialState true))
  = "Heart"%string.
Proof.
  intros hold.
  apply (X16_pinch_release_pinch_switches true hold restingGesture
           pinchingGesture 1540 1556).
  - unfold hold. rewrite length_map, length_seq. lia.
  - unfold hold. apply Forall_map, Forall_forall. intros i Hi.
    cbv beta. cbn [fst snd]. split; [reflexivity|].
    pose proof (pos_INR i). lra.
  - unfold hold. rewrite map_map. cbn [snd seq map app spaced INR].
    repeat split; lra.
  - reflexivity.
  - reflexivity.
Defined.

(** X17: a shape switch requested while the cooldown is on changes
    nothing; one requested when it is over moves to the next of the eight
    templates and starts the cooldown; and eight switches, each after the
    cooldown has elapsed, come back to the template and the shape name
    they started from. *)
Theorem X17_eight_switches_come_back :
  forall s : State,
    (currentTemplate s < 8)%nat ->
    nth_error shapeNames (currentTemplate s) = Some (currentShapeName s) ->
    (switchCooldown s = true -> switchTemplate s = s)
    /\ (switchCooldown s = false ->
        currentTemplate (switchTemplate s)
        = ((currentTemplate s + 1) mod 8)%nat
        /\ switchCooldown (switchTemplate s) = true
        /\ isTransitioning (switchTemplate s) = true
        /\ transitionProgress (switchTemplate s) = 0)
    /\ (let s8 := run (concat (repeat [CooldownElapsed; SwitchTemplate] 8))
                    s in
        currentTemplate s8 = currentTemplate s
        /\ currentShapeName s8 = currentShapeName s).
Proof.
  intros s Hlt Hname. split; [|split].
  - intros H. unfold switchTemplate. now rewrite H.
  - intros H. unfold switchTemplate. rewrite H. fields. auto.
  - destruct s as [n c p i name lp ch last b o th pu r]. fields.
    cbn [repeat concat app run fold_left step].
    unfold switchTemplate, cooldownElapsed. fields.
    do 8 (destruct n as [|n];
          [cbn in Hname; injection Hname as <-; cbn; split; reflexivity|]).
    lia.
Qed.

Lemma X17_switch_witness :
  currentShapeName
    (run (concat (repeat [CooldownElapsed; SwitchTemplate] 8))
       (initialState true))
  = "Sphere"%string
  /\ currentTemplate (switchTemplate (initialState true)) = 1%nat.
Proof.
  destruct (X17_eight_switches_come_back (initialState true))
    as [_ [H1 H8]].
  - cbn. lia.
  - reflexivity.
  - split.
    + cbn zeta in H8. destruct H8 as [_ H8]. exact H8.
    + destruct (H1 eq_refl) as [H _]. exact H.
Defined.

(** X18: the easing curve of the shape transition starts at 0, ends at 1,
    is symmetric about the midpoint (ease(1 - t) = 1 - ease(t)), never
    decreases on [0, 1] and stays in [0, 1] there. *)
Theorem X18_easing_curve :
  easeInOutCubic 0 = 0
  /\ easeInOutCubic 1 = 1
  /\ (forall t : R, easeInOutCubic (1 - t) = 1 - easeInOutCubic t)
  /\ (forall t u : R,
        0 <= t -> t <= u -> u <= 1 -> easeInOutCubic t <= easeInOutCubic u)
  /\ (forall t : R, 0 <= t <= 1 -> 0 <= easeInOutCubic t <= 1).
Proof.
  assert (Hcube : forall a b : R, 0 <= a -> a <= b -> a * a * a <= b * b * b).
  { intros a b Ha Hab.
    assert (a * a <= b * b) by (apply Rmult_le_compat; lra).
    apply Rmult_le_compat; try lra. apply Rmult_le_pos; lra. }
  assert (Hmono : forall t u : R,
             0 <= t -> t <= u -> u <= 1 ->
             easeInOutCubic t <= easeInOutCubic u).
  { intros t u H0 Htu H1. unfold easeInOutCubic. cbn [pow].
    destruct (Js.ltb t 0.5) eqn:Et; destruct (Js.ltb u 0.5) eqn:Eu;
      try apply ltb_true in Et; try apply ltb_false in Et;
      try apply ltb_true in Eu; try apply ltb_false in Eu; try lra.
    - pose proof (Hcube t u H0 Htu). lra.
    - assert (Ht : t * t * t <= 0.5 * 0.5 * 0.5) by (apply Hcube; lra).
      assert (Hu : (-2 * u + 2) * (-2 * u + 2) * (-2 * u + 2) <= 1 * 1 * 1)
        by (apply Hcube; lra).
      lra.
    - assert (Hu : (-2 * u + 2) * (-2 * u + 2) * (-2 * u + 2)
                   <= (-2 * t + 2) * (-2 * t + 2) * (-2 * t + 2))
        by (apply Hcube; lra).
      lra. }
  assert (H0 : easeInOutCubic 0 = 0).
  { unfold easeInOutCubic. rewrite (proj2 (ltb_true 0 0.5)) by lra. lra. }
  assert (H1 : easeInOutCubic 1 = 1).
  { unfold easeInOutCubic. rewrite (proj2 (ltb_false 1 0.5)) by lra.
    cbn [pow]. lra. }
  split; [exact H0|]. split; [exact H1|]. split; [|split].
  - intros t. unfold easeInOutCubic. cbn [pow].
    destruct (Js.ltb t 0.5) eqn:Et; destruct (Js.ltb (1 - t) 0.5) eqn:Eu;
      try apply ltb_true in Et; try apply ltb_false in Et;
      try apply ltb_true in Eu; try apply ltb_false in Eu; try lra; nra.
  - exact Hmono.
  - intros t [Ha Hb]. split.
    + rewrite <- H0. apply Hmono; lra.
    + rewrite <- H1. apply Hmono; lra.
Qed.

Lemma X18_easing_witness :
  easeInOutCubic 0.25 <= easeInOutCubic 0.75
  /\ 0 <= easeInOutCubic 0.5 <= 1.
Proof.
  destruct X18_easing_curve as [_ [_ [_ [Hmono Hrange]]]].
  split.
  - apply Hmono; lra.
  - apply Hrange. lra.
Defined.

End ParticlesFacts.

(** * Properties of the key handler *)

Section Keys.

Lemma particles_theme_update (gestureState : GestureState) (t : R)
    (p : Particles.State) :
  Particles.currentTheme (Particles.updateParticles gestureState t p)
  = Particles.currentTheme p
  /\ Particles.advancedEffects_pulse
       (Particles.updateParticles gestureState t p)
     = Particles.advancedEffects_pulse p.
Proof.
  unfold Particles.updateParticles, Particles.transitionStage,
    Particles.burstStage, Particles.pinchStage, Particles.switchTemplate.
  repeat match goal with
         | |- context [if ?c then _ else _] => destruct c
         end; split; reflexivity.
Qed.

Lemma keydown_vars (key : string) (s : Main.State) :
  fst s = Main.initialVars -> fst (Main.keydown key s) = Main.initialVars.
Proof.
  destruct s as [v p]. cbn [fst]. intros ->. unfold Main.keydown.
  repeat match goal with
         | |- context [if ?c then _ else _] => destruct c
         end; reflexivity.
Qed.

Lemma step_vars (s : Main.State) (e : Main.Event) :
  fst s = Main.initialVars -> fst (Main.step s e) = Main.initialVars.
Proof.
  destruct e; cbn [Main.step fst]; auto. apply keydown_vars.
Qed.

Lemma run_vars (ready : bool) (events : list Main.Event) :
  fst (Main.run events (Main.initialState ready)) = Main.initialVars.
Proof.
  unfold Main.run. induction events as [|e events IH] using rev_ind.
  - reflexivity.
  - rewrite fold_left_app. cbn [fold_left]. now apply step_vars.
Qed.

Lemma keydown_theme (key : string) (s : Main.State) :
  fst s = Main.initialVars ->
  Particles.currentTheme (snd s) = "cosmic"%string
  \/ Particles.currentTheme (snd s) = "neon"%string ->
  Particles.currentTheme (snd (Main.keydown key s)) = "cosmic"%string
  \/ Particles.currentTheme (snd (Main.keydown key s)) = "neon"%string.
Proof.
  destruct s as [v p]. cbn [fst snd]. intros -> H. unfold Main.keydown.
  repeat match goal with
         | |- context [if ?c then _ else _] => destruct c
         end; cbn; auto.
  unfold Particles.switchTemplate. now destruct (Particles.switchCooldown p).
Qed.

Lemma run_theme (ready : bool) (events : list Main.Event) :
  Particles.currentTheme (snd (Main.run events (Main.initialState ready)))
  = "cosmic"%string
  \/ Particles.currentTheme (snd (Main.run events (Main.initialState ready)))
     = "neon"%string.
Proof.
  induction events as [|e events IH] using rev_ind.
  - now left.
  - pose proof (run_vars ready events) as Hv.
    unfold Main.run in *. rewrite fold_left_app. cbn [fold_left].
    destruct e as [key|gs t|]; cbn [Main.step snd].
    + apply keydown_theme; assumption.
    + now rewrite (proj1 (particles_theme_update gs t _)).
    + exact IH.
Qed.

End Keys.

(** X19: [main.js] reads the current theme from a variable it never
    assigns and the pulse flag from a copy it never updates. So at any
    point of a session the T key selects the theme [neon], whatever the
    theme was, the P key switches the pulse effect off, whatever it was,
    and the theme is never anything but [cosmic] or [neon]. *)
Theorem X19_theme_and_pulse_keys_do_not_cycle :
  forall (ready : bool) (events : list Main.Event),
    let s := Main.run events (Main.initialState ready) in
    Particles.currentTheme (snd (Main.keydown "t" s)) = "neon"%string
    /\ Particles.currentTheme (snd (Main.keydown "T" s)) = "neon"%string
    /\ Particles.advancedEffects_pulse (snd (Main.keydown "p" s)) = false
    /\ Particles.advancedEffects_pulse (snd (Main.keydown "P" s)) = false
    /\ (Particles.currentTheme (snd s) = "cosmic"%string
        \/ Particles.currentTheme (snd s) = "neon"%string).
Proof.
  intros ready events s.
  pose proof (run_vars ready events) as Hv.
  pose proof (run_theme ready events) as Ht. fold s in Hv, Ht.
  destruct s as [v p]. cbn [fst snd] in *. subst v.
  repeat split; try exact Ht; reflexivity.
Qed.

(** * Properties of the first tracking callback *)

Section Legacy.

Variable landmarks : list XY.
Variable rest : list (option (list XY)).
Variable handedness : list Handedness.

Lemma legacy_first_hand (s : GestureState) :
  legacyOnResults (mkResults (Some landmarks :: rest) handedness) s
  = (thumbTip <- member (nth_error landmarks 4) ;;
     indexTip <- member (nth_error landmarks 8) ;;
     modify (set_pinch (Js.ltb
       (Js.Math_hypot (x thumbTip - x indexTip) (y thumbTip - y indexTip))
       0.04)) ;;
     palm <- member (nth_error landmarks 0) ;;
     middleTip <- member (nth_error landmarks 12) ;;
     modify (set_openness
       (Js.Math_min 1
          (Js.Math_hypot (x palm - x middleTip) (y palm - y middleTip) * 2))) ;;
     modify (fun s =>
       set_position (set_x ((x palm - 0.5) * 2) (position s)) s) ;;
     modify (fun s =>
       set_position (set_y (- (y palm - 0.5) * 2) (position s)) s)) s.
Proof. reflexivity. Qed.

Lemma legacy_long (s : GestureState) :
  (13 <= length landmarks)%nat ->
  legacyOnResults (mkResults (Some landmarks :: rest) handedness) s
  = (Normal tt,
     set_position
       (mkXY ((x (lm landmarks 0) - 0.5) * 2)
             (- (y (lm landmarks 0) - 0.5) * 2))
       (set_openness (Js.Math_min 1 (span landmarks 0 12 * 2))
          (set_pinch (Js.ltb (span landmarks 4 8) 0.04) s))).
Proof.
  intros H. rewrite legacy_first_hand.
  rewrite !nth_error_long by lia. reflexivity.
Qed.

Lemma legacy_short (s : GestureState) :
  (length landmarks < 9)%nat ->
  legacyOnResults (mkResults (Some landmarks :: rest) handedness) s
  = (Throw, s).
Proof.
  intros H. rewrite legacy_first_hand.
  destruct (Nat.lt_ge_cases (length landmarks) 5) as [H5|H5].
  - rewrite (nth_error_short landmarks 4) by lia. reflexivity.
  - rewrite (nth_error_long landmarks 4) by lia.
    rewrite (nth_error_short landmarks 8) by lia. reflexivity.
Qed.

Lemma legacy_middle (s : GestureState) :
  (9 <= length landmarks < 13)%nat ->
  legacyOnResults (mkResults (Some landmarks :: rest) handedness) s
  = (Throw, set_pinch (Js.ltb (span landmarks 4 8) 0.04) s).
Proof.
  intros H. rewrite legacy_first_hand.
  rewrite (nth_error_long landmarks 4), (nth_error_long landmarks 8),
    (nth_error_long landmarks 0) by lia.
  rewrite (nth_error_short landmarks 12) by lia. reflexivity.
Qed.

End Legacy.

(** X20: the first version of the callback does nothing on an empty hand
    list and looks at the first hand only. With 13 landmarks or more it
    returns normally: pinch is set exactly when the thumb to index
    distance is below 0.04, openness is min(1, 2 * distance(wrist, middle
    fingertip)) and the position is the raw, unsmoothed wrist position;
    nothing else changes. Below 9 landmarks, or with the hand missing, it
    throws before any write; from 9 to 12 it throws after having written
    [pinch] only. *)
Theorem X20_first_version_of_the_callback :
  forall (results : Results) (s : GestureState),
    (multiHandLandmarks results = [] ->
     legacyOnResults results s = (Normal tt, s))
    /\ (forall rest, multiHandLandmarks results = None :: rest ->
                     legacyOnResults results s = (Throw, s))
    /\ (forall landmarks rest,
          multiHandLandmarks results = Some landmarks :: rest ->
          ((13 <= length landmarks)%nat ->
           exists s' : GestureState,
             legacyOnResults results s = (Normal tt, s')
             /\ (pinch s' = true <-> spec_pinchDistance landmarks < 0.04)
             /\ openness s'
                = Rmin 1 (2 * spec_distance (lm landmarks 0) (lm landmarks 12))
             /\ position s' = spec_rawPosition (lm landmarks 0)
             /\ gestureType s' = gestureType s
             /\ gestureConfidence s' = gestureConfidence s
             /\ handVelocity s' = handVelocity s
             /\ fingerStates s' = fingerStates s
             /\ pinchDetails s' = pinchDetails s)
          /\ ((length landmarks < 9)%nat ->
              legacyOnResults results s = (Throw, s))
          /\ ((9 <= length landmarks < 13)%nat ->
              exists s' : GestureState,
                legacyOnResults results s = (Throw, s')
                /\ (pinch s' = true <-> spec_pinchDistance landmarks < 0.04)
                /\ openness s' = openness s
                /\ position s' = position s)).
Proof.
  intros [hands handedness] s. cbn [multiHandLandmarks]. split; [|split].
  - intros ->. reflexivity.
  - intros rest ->. reflexivity.
  - intros landmarks rest ->. split; [|split].
    + intros H. rewrite legacy_long by exact H. eexists.
      split; [reflexivity|]. cbn. split; [|split; [|split]].
      * rewrite ltb_true. unfold span. rewrite spec_distance_hypot.
        unfold spec_pinchDistance. reflexivity.
      * unfold span, Js.Math_min. rewrite spec_distance_hypot.
        now rewrite Rmult_comm.
      * unfold spec_rawPosition. f_equal; lra.
      * repeat split.
    + apply legacy_short.
    + intros H. rewrite legacy_middle by exact H. eexists.
      split; [reflexivity|]. cbn. split; [|split; reflexivity].
      rewrite ltb_true. unfold span. rewrite spec_distance_hypot.
      unfold spec_pinchDistance. reflexivity.
Qed.

Lemma X20_first_version_witness :
  exists s' : GestureState,
    legacyOnResults (oneHand (pinchAt 0.03)) initialState = (Normal tt, s')
    /\ pinch s' = true
  /\ legacyOnResults eightPoints initialState = (Throw, initialState).
Proof.
  destruct (X20_first_version_of_the_callback (oneHand (pinchAt 0.03))
              initialState) as [_ [_ H]].
  destruct (H (pinchAt 0.03) [] eq_refl) as [Hlong _].
  destruct Hlong as [s' [Hrun [Hp _]]]; [cbn; lia|].
  destruct (X20_first_version_of_the_callback eightPoints initialState)
    as [_ [_ H8]].
  destruct (H8 (repeat origin 8) [] eq_refl) as [_ [Hshort _]].
  exists s'. split; [exact Hrun|]. split.
  - apply Hp. rewrite <- pinchDistanceOf_spec.
    rewrite pinchDistance_pinchAt by lra. lra.
  - apply Hshort. cbn. lia.
Defined.

(** * Properties of the animated background *)

Module BackgroundFacts.

Import Background.

Ltac fields :=
  cbn [config performance uniforms own_adaptiveQuality materialLowQuality
       ringsLowQuality particleCount transformationSpeed performanceMode
       currentPalette lastFrameTime frameCount currentFPS adaptiveQuality
       updateInterval transformationProgress targetShape
       set_config set_performance set_uniforms set_own_adaptiveQuality
       set_materialLowQuality set_ringsLowQuality set_particleCount
       set_transformationSpeed set_performanceMode set_currentPalette
       set_lastFrameTime set_frameCount set_currentFPS set_updateInterval
       recreateParticleSystem reduceComplexity restoreComplexity] in *.

Ltac sound_fields H :=
  destruct H; constructor; fields; try assumption; try lra; try lia.

Section Quality.

Variable s : State.
Hypothesis sound : Sound s.

Lemma sound_reduceQuality : Sound (reduceQuality s).
Proof.
  unfold reduceQuality. sound_fields sound.
  unfold Js.Math_max. split; [|apply Rmax_lub; lra].
  eapply Rle_trans; [|apply Rmax_l]. lra.
Qed.

Lemma sound_increaseQuality : Sound (increaseQuality s).
Proof.
  unfold increaseQuality. sound_fields sound.
  unfold Js.Math_min. split; [apply Rmin_glb; lra|].
  eapply Rle_trans; [apply Rmin_l|]. lra.
Qed.

End Quality.

Section Operations.

Lemma sound_interval (s : State) (i : option nat) :
  Sound s -> Sound (set_performance (set_updateInterval i (performance s)) s).
Proof. intros H. sound_fields H. Qed.

Lemma sound_reduceComplexity (s : State) : Sound s -> Sound (reduceComplexity s).
Proof. intros H. sound_fields H. Qed.

Lemma sound_restoreComplexity (s : State) :
  Sound s -> Sound (restoreComplexity s).
Proof. intros H. sound_fields H. Qed.

Lemma sound_adaptQuality (s : State) : Sound s -> Sound (adaptQuality s).
Proof.
  intros H. unfold adaptQuality.
  assert (H1 : Sound
                 (if Z.ltb (currentFPS (performance s)) 30
                     && Js.gtb (particleCount (config s)) 200
                  then reduceQuality s
                  else if Z.gtb (currentFPS (performance s)) 55
                          && Js.ltb (particleCount (config s)) 1200
                       then increaseQuality s
                       else s)).
  { destruct (_ && _); [now apply sound_reduceQuality|].
    destruct (_ && _); [now apply sound_increaseQuality|exact H]. }
  cbv zeta. destruct (Z.ltb _ 25); [now apply sound_interval|].
  destruct (Z.ltb _ 40).
  - now apply sound_reduceComplexity, sound_interval.
  - now apply sound_restoreComplexity, sound_interval.
Qed.

Lemma sound_updatePerformance (t : R) (s : State) :
  Sound s -> Sound (updatePerformance t s).
Proof.
  intros H. unfold updatePerformance. cbv zeta.
  assert (H1 : Sound (set_performance
                        (set_frameCount (S (frameCount (performance s)))
                           (performance s)) s))
    by sound_fields H.
  destruct (Js_geb _ _); [|exact H1].
  match goal with
  | |- Sound (set_performance _ (if ?c then adaptQuality ?a else _)) =>
    assert (H2 : Sound a) by (clear - H1; sound_fields H1);
    assert (H3 : Sound (if c then adaptQuality a else a))
      by (destruct c; [now apply sound_adaptQuality|exact H2])
  end.
  sound_fields H3.
Qed.

Lemma sound_handleShapeTransformations (gestureState : GestureState)
    (s : State) :
  Sound s -> Sound (handleShapeTransformations gestureState s).
Proof.
  intros H. unfold handleShapeTransformations.
  destruct (gestureType gestureState); try exact H;
    (destruct (pinch gestureState); [|exact H]); cbv zeta; fields;
    unfold Js_geb;
    (destruct (Js.ltb _ 1) eqn:E; cbn [negb];
     [ apply ltb_true in E; destruct H; constructor; fields;
       try assumption; split; [|exact E];
       unfold Js.Math_min; apply Rmin_glb; lra
     | destruct H; constructor; fields; try assumption; try lra;
       apply Nat.mod_upper_bound; discriminate ]).
Qed.

Lemma sound_update (gestureState : GestureState) (t : R) (s : State) :
  Sound s -> Sound (update gestureState t s).
Proof.
  intros H. unfold update. cbv zeta.
  pose proof (sound_updatePerformance t s H) as H1.
  destruct (updateInterval _); [destruct (_ && _); [exact H1|]|];
    now apply sound_handleShapeTransformations.
Qed.

Lemma sound_setColorPalette (name : string) (s : State) :
  Sound s -> Sound (setColorPalette name s).
Proof.
  intros H. unfold setColorPalette. destruct (_ || _); [|exact H].
  sound_fields H.
Qed.

Lemma sound_setParticleDensity (density : R) (s : State) :
  Sound s -> Sound (setParticleDensity density s).
Proof.
  intros H. unfold setParticleDensity. sound_fields H.
  unfold Js.Math_max, Js.Math_min. split; [apply Rmax_l|].
  apply Rmax_lub; [lra|apply Rmin_l].
Qed.

Lemma sound_setTransformationSpeed (speed : R) (s : State) :
  Sound s -> Sound (setTransformationSpeed speed s).
Proof.
  intros H. unfold setTransformationSpeed. sound_fields H.
  unfold Js.Math_max, Js.Math_min. split; [apply Rmax_l|].
  apply Rmax_lub; [lra|apply Rmin_l].
Qed.

Lemma sound_setPerformanceMode (mode : string) (s : State) :
  Sound s -> Sound (setPerformanceMode mode s).
Proof.
  intros H. unfold setPerformanceMode. cbv zeta.
  destruct (String.eqb mode "low"); [sound_fields H|].
  destruct (String.eqb mode "medium"); [sound_fields H|].
  destruct (String.eqb mode "high"); [sound_fields H|].
  destruct (String.eqb mode "auto"); sound_fields H.
Qed.

Lemma background_sound_step (s : State) (e : Event) : Sound s -> Sound (step s e).
Proof.
  intros H. destruct e; cbn [step].
  - now apply sound_update.
  - now apply sound_setColorPalette.
  - now apply sound_setParticleDensity.
  - now apply sound_setTransformationSpeed.
  - now apply sound_setPerformanceMode.
  - now apply sound_setPerformanceMode.
  - now apply sound_setColorPalette.
Qed.

Lemma background_sound_initialState : Sound initialState.
Proof. constructor; cbn; try lra; try lia; reflexivity. Qed.

End Operations.

(** X21: whatever the render loop, the quality adaptation, the panel and
    the keys do, the background keeps between 100 and 2000 particles and a
    transformation speed between 0.1 and 10; the transformation progress
    stays in [0, 1) with the target shape one of three; and the flag of
    the performance monitor that gates the adaptation is never turned
    off: [setPerformanceMode] writes another property. *)
Theorem X21_background_stays_in_range :
  forall events : list Event,
    let s := run events initialState in
    100 <= particleCount (config s) <= 2000
    /\ 0.1 <= transformationSpeed (config s) <= 10
    /\ 0 <= transformationProgress (uniforms s) < 1
    /\ (targetShape (uniforms s) < 3)%nat
    /\ adaptiveQuality (performance s) = true.
Proof.
  intros events s.
  assert (Hs : Sound s).
  { unfold s, run. induction events as [|e events IH] using rev_ind.
    - apply background_sound_initialState.
    - rewrite fold_left_app. cbn [fold_left]. now apply background_sound_step. }
  destruct Hs. repeat split; assumption || tauto.
Qed.

Section Transformation.

Lemma indexOf_missing (v : string) (l : list string) :
  ~ In v l -> indexOf v l = None.
Proof.
  induction l as [|a l IH]; intros H; [reflexivity|].
  cbn [indexOf]. destruct (String.eqb_spec a v) as [->|Hne].
  - elim H. now left.
  - rewrite IH; [reflexivity|]. intros Hin. apply H. now right.
Qed.

Lemma keyB_mode (s : State) (mode : string) :
  performanceMode (config s) = mode ->
  performanceMode (config (keyB s)) = nextOf mode performanceModes.
Proof.
  intros <-. unfold keyB, setPerformanceMode. cbv zeta.
  repeat match goal with
         | |- context [if ?c then _ else _] => destruct c
         end; reflexivity.
Qed.

Lemma keyN_palette (s : State) (palette : string) :
  currentPalette (config s) = palette ->
  In (nextOf palette colorPaletteKeys) colorPaletteKeys ->
  currentPalette (config (keyN s)) = nextOf palette colorPaletteKeys.
Proof.
  intros <- Hin. unfold keyN, setColorPalette.
  replace (Particles.mem (nextOf (currentPalette (config s)) colorPaletteKeys)
             colorPaletteKeys) with true; [reflexivity|].
  symmetry. unfold Particles.mem. apply existsb_exists.
  eexists. split; [exact Hin|]. apply String.eqb_refl.
Qed.

End Transformation.

(** X22: a frame with no gesture or no pinch leaves the shape
    transformation alone; a pinching frame adds 0.016 times the speed to
    the progress and, once that reaches 1, moves to the next of the three
    shapes and restarts at 0. Setting the particle density or the
    performance mode (the B key included), and the quality adaptation
    whenever it changes the particle count, rebuild the particle system and
    so restart the transformation at shape 0 with progress 0. *)
Theorem X22_shape_transformation :
  forall (gestureState : GestureState) (s : State),
    (gestureType gestureState = none \/ pinch gestureState = false ->
     handleShapeTransformations gestureState s = s)
    /\ (gestureType gestureState <> none ->
        pinch gestureState = true ->
        let p := transformationProgress (uniforms s)
                 + transformationSpeed (config s) * 0.016 in
        (p < 1 ->
         uniforms (handleShapeTransformations gestureState s)
         = mkUniforms p (targetShape (uniforms s)))
        /\ (1 <= p ->
            uniforms (handleShapeTransformations gestureState s)
            = mkUniforms 0 ((targetShape (uniforms s) + 1) mod 3)))
    /\ (forall density : R,
          uniforms (setParticleDensity density s) = mkUniforms 0 0)
    /\ (forall mode : string,
          uniforms (setPerformanceMode mode s) = mkUniforms 0 0)
    /\ uniforms (keyB s) = mkUniforms 0 0
    /\ (particleCount (config (adaptQuality s)) <> particleCount (config s) ->
        uniforms (adaptQuality s) = mkUniforms 0 0).
Proof.
  intros gestureState s.
  split; [|split; [|split; [|split; [|split]]]].
  - unfold handleShapeTransformations. intros [-> | H]; [reflexivity|].
    rewrite H. now destruct (gestureType gestureState).
  - intros Hg Hp p. split.
    + intros Hlt. unfold handleShapeTransformations. rewrite Hp.
      assert (E : Js_geb (Js.Math_min 1 p) 1 = false).
      { unfold Js_geb. apply negb_false_iff, ltb_true.
        unfold Js.Math_min. rewrite Rmin_right by lra. exact Hlt. }
      destruct (gestureType gestureState); try (now elim Hg);
        cbv zeta; fields; fold p; rewrite E; fields;
        unfold Js.Math_min; now rewrite Rmin_right by lra.
    + intros Hge. unfold handleShapeTransformations. rewrite Hp.
      assert (E : Js_geb (Js.Math_min 1 p) 1 = true).
      { unfold Js_geb. apply negb_true_iff, ltb_false.
        unfold Js.Math_min. rewrite Rmin_left by lra. lra. }
      destruct (gestureType gestureState); try (now elim Hg);
        cbv zeta; fields; fold p; rewrite E; reflexivity.
  - reflexivity.
  - intros mode. unfold setPerformanceMode. cbv zeta.
    repeat match goal with
           | |- context [if ?c then _ else _] => destruct c
           end; reflexivity.
  - unfold keyB, setPerformanceMode. cbv zeta.
    repeat match goal with
           | |- context [if ?c then _ else _] => destruct c
           end; reflexivity.
  - unfold adaptQuality. cbv zeta.
    destruct (Z.ltb (currentFPS (performance s)) 30
              && Js.gtb (particleCount (config s)) 200);
      [|destruct (Z.gtb (currentFPS (performance s)) 55
                 && Js.ltb (particleCount (config s)) 1200)];
      repeat match goal with
             | |- context [if Z.ltb ?a ?b then _ else _] =>
               destruct (Z.ltb a b)
             end; fields; intros H; try reflexivity; now elim H.
Qed.

Lemma X22_transformation_witness :
  uniforms (handleShapeTransformations
              (set_gestureType fist pinchingGesture) initialState)
  = mkUniforms (0 + 2 * 0.016) 0.
Proof.
  destruct (X22_shape_transformation (set_gestureType fist pinchingGesture)
              initialState) as [_ [H _]].
  apply H.
  - discriminate.
  - reflexivity.
  - cbn. lra.
Defined.

(** X23: each press of the B key moves the performance mode one step along
    auto, low, medium, high and from high back to auto; from a mode
    outside the list it goes to auto. Each press of the N key moves the
    palette one step along cosmic, nebula, aurora, sunset and from sunset
    back to cosmic; from a palette outside the list it goes to cosmic. So
    four presses of either key come back to where they started. *)
Theorem X23_mode_and_palette_keys_cycle :
  forall s : State,
    (In (performanceMode (config s)) performanceModes ->
     performanceMode (config (keyB (keyB (keyB (keyB s)))))
     = performanceMode (config s))
    /\ (~ In (performanceMode (config s)) performanceModes ->
        performanceMode (config (keyB s)) = "auto"%string)
    /\ (In (currentPalette (config s)) colorPaletteKeys ->
        currentPalette (config (keyN (keyN (keyN (keyN s)))))
        = currentPalette (config s))
    /\ (performanceMode (config s) = "auto"%string ->
        performanceMode (config (keyB s)) = "low"%string)
    /\ (performanceMode (config s) = "low"%string ->
        performanceMode (config (keyB s)) = "medium"%string)
    /\ (performanceMode (config s) = "medium"%string ->
        performanceMode (config (keyB s)) = "high"%string)
    /\ (performanceMode (config s) = "high"%string ->
        performanceMode (config (keyB s)) = "auto"%string)
    /\ (currentPalette (config s) = "cosmic"%string ->
        currentPalette (config (keyN s)) = "nebula"%string)
    /\ (currentPalette (config s) = "nebula"%string ->
        currentPalette (config (keyN s)) = "aurora"%string)
    /\ (currentPalette (config s) = "aurora"%string ->
        currentPalette (config (keyN s)) = "sunset"%string)
    /\ (currentPalette (config s) = "sunset"%string ->
        currentPalette (config (keyN s)) = "cosmic"%string)
    /\ (~ In (currentPalette (config s)) colorPaletteKeys ->
        currentPalette (config (keyN s)) = "cosmic"%string).
Proof.
  intros s.
  assert (Hnext : forall v, In v colorPaletteKeys ->
                            In (nextOf v colorPaletteKeys) colorPaletteKeys).
  { intros v Hv. cbn [In colorPaletteKeys] in Hv.
    destruct Hv as [<-|[<-|[<-|[<-|[]]]]]; cbn; tauto. }
  assert (HB : forall mode, performanceMode (config s) = mode ->
                            performanceMode (config (keyB s))
                            = nextOf mode performanceModes)
    by apply keyB_mode.
  assert (HN : forall palette,
             currentPalette (config s) = palette ->
             In palette colorPaletteKeys ->
             currentPalette (config (keyN s))
             = nextOf palette colorPaletteKeys).
  { intros palette Hp Hin. apply keyN_palette; [exact Hp|]. now apply Hnext. }
  split; [|split; [|split]].
  - intros Hin.
    rewrite (keyB_mode _ _ (keyB_mode _ _ (keyB_mode _ _
               (keyB_mode s _ eq_refl)))).
    cbn [In performanceModes] in Hin.
    destruct Hin as [<-|[<-|[<-|[<-|[]]]]]; reflexivity.
  - intros Hout. rewrite (keyB_mode s _ eq_refl).
    unfold nextOf. now rewrite indexOf_missing.
  - intros Hin.
    pose proof (keyN_palette s _ eq_refl (Hnext _ Hin)) as H1.
    pose proof (keyN_palette _ _ H1 (Hnext _ (Hnext _ Hin))) as H2.
    pose proof (keyN_palette _ _ H2 (Hnext _ (Hnext _ (Hnext _ Hin)))) as H3.
    pose proof (keyN_palette _ _ H3
                  (Hnext _ (Hnext _ (Hnext _ (Hnext _ Hin))))) as H4.
    rewrite H4. cbn [In colorPaletteKeys] in Hin.
    destruct Hin as [<-|[<-|[<-|[<-|[]]]]]; reflexivity.
  - repeat split; intros H.
    + now rewrite (HB _ H).
    + now rewrite (HB _ H).
    + now rewrite (HB _ H).
    + now rewrite (HB _ H).
    + rewrite (HN _ H); [reflexivity | cbn; tauto].
    + rewrite (HN _ H); [reflexivity | cbn; tauto].
    + rewrite (HN _ H); [reflexivity | cbn; tauto].
    + rewrite (HN _ H); [reflexivity | cbn; tauto].
    + rewrite (keyN_palette s _ eq_refl).
      * unfold nextOf. now rewrite indexOf_missing.
      * unfold nextOf. rewrite indexOf_missing by exact H. cbn. tauto.
Qed.

Lemma X23_cycle_witness :
  performanceMode (config (keyB initialState)) = "low"%string
  /\ performanceMode (config (keyB (keyB (keyB (keyB initialState)))))
     = "auto"%string
  /\ currentPalette (config (keyN initialState)) = "nebula"%string
  /\ currentPalette (config (keyN (keyN (keyN (keyN initialState)))))
     = "cosmic"%string.
Proof.
  destruct (X23_mode_and_palette_keys_cycle initialState)
    as [HB4 [_ [HN4 [HB [_ [_ [_ [HN _]]]]]]]].
  split; [apply HB; reflexivity|].
  split; [apply HB4; cbn; tauto|].
  split; [apply HN; reflexivity|].
  apply HN4. cbn. tauto.
Defined.

(** X24: a background particle coordinate is kept in a single-precision
    array, so the number tested after the move is the stored, rounded sum
    of position and velocity times 0.016. Since 20 and -20 are stored
    exactly, the coordinate left in the array is always inside the box of
    half-width 20: a stored sum above 20 is replaced by -20, one below -20
    by 20, and one inside the box stays as stored. *)
Theorem X24_coordinates_stay_in_the_box :
  forall (Math_fround : R -> R) (position velocity : R),
    Math_fround 20 = 20 ->
    Math_fround (-20) = -20 ->
    let stored := Math_fround (position + velocity * 0.016) in
    -20 <= moveCoordinate Math_fround position velocity <= 20
    /\ (20 < stored ->
        moveCoordinate Math_fround position velocity = -20)
    /\ (stored < -20 ->
        moveCoordinate Math_fround position velocity = 20)
    /\ (-20 <= stored <= 20 ->
        moveCoordinate Math_fround position velocity = stored).
Proof.
  intros Math_fround position velocity Hup Hdown stored.
  unfold moveCoordinate, Math_sign. cbv zeta. fold stored.
  destruct (Js.gtb (Rabs stored) 20) eqn:E.
  - apply gtb_true in E.
    destruct (Js.gtb stored 0) eqn:E1; [|destruct (Js.ltb stored 0) eqn:E2];
      try apply gtb_true in E1; try apply gtb_false in E1;
      try apply ltb_true in E2; try apply ltb_false in E2.
    + rewrite Rabs_right in E by lra.
      replace (- (1) * 20) with (-20) by lra. rewrite Hdown.
      repeat split; intros; lra.
    + rewrite Rabs_left in E by lra.
      replace (- (-1) * 20) with 20 by lra. rewrite Hup.
      repeat split; intros; lra.
    + assert (H0 : stored = 0) by lra. rewrite H0, Rabs_R0 in E. lra.
  - apply gtb_false in E. pose proof (Rle_abs stored).
    pose proof (Rle_abs (- stored)).
    rewrite Rabs_Ropp in *. repeat split; intros; lra.
Qed.

Lemma X24_coordinates_witness :
  moveCoordinate roundNearTwenty 19.996000289916992 0.25 = 20
  /\ moveCoordinate roundNearTwenty 19.99 1 = -20.
Proof.
  assert (Hup : roundNearTwenty 20 = 20).
  { unfold roundNearTwenty. now destruct (Js.ltb _ _). }
  assert (Hfar : forall a : R, 0.001 <= Rabs (a - 20) -> roundNearTwenty a = a).
  { intros a Ha. unfold roundNearTwenty.
    replace (Js.ltb (Rabs (a - 20)) 0.0000009) with false; [reflexivity|].
    symmetry. apply ltb_false. lra. }
  assert (Hdown : roundNearTwenty (-20) = -20).
  { apply Hfar. rewrite Rabs_left by lra. lra. }
  assert (Hnear : roundNearTwenty (19.996000289916992 + 0.25 * 0.016) = 20).
  { unfold roundNearTwenty.
    replace (Js.ltb (Rabs (19.996000289916992 + 0.25 * 0.016 - 20))
               0.0000009) with true; [reflexivity|].
    symmetry. apply ltb_true. rewrite Rabs_right by lra. lra. }
  assert (Hpast : roundNearTwenty (19.99 + 1 * 0.016) = 19.99 + 1 * 0.016).
  { apply Hfar. rewrite Rabs_right by lra. lra. }
  split.
  - destruct (X24_coordinates_stay_in_the_box roundNearTwenty
                19.996000289916992 0.25 Hup Hdown) as [_ [_ [_ H]]].
    rewrite H; [exact Hnear|]. rewrite Hnear. lra.
  - destruct (X24_coordinates_stay_in_the_box roundNearTwenty
                19.99 1 Hup Hdown) as [_ [H _]].
    apply H. rewrite Hpast. lra.
Defined.

Section Adaptation.




End Adaptation.



End BackgroundFacts.


(** * The hand leaves the frame *)


